(** * The "Nine" card game: CPU strategy and turn/phase state machine

    A shallow embedding of [src/js/controllers/NineGameController.js] and of
    [src/js/utils/helpers.js], in two parts.

    The first part follows one match, from [startGame()] to the result
    modal, during which the New Game button is not clicked.
    - JavaScript numbers that hold card values, scores and turn numbers are
      integers ([Z]); a value returned by [Math.random()] is a rational ([Q]),
      and the arithmetic on it is exact: the literal [0.6] is 6/10 and the
      product [Math.random() * array.length] is not rounded.
    - [this.state] is the record [State]; every method that mutates it is a
      function from states to states.  Fields that only cache DOM nodes are
      left out of [State]; the page is modelled beside it ([Dom]).
    - [Math.random] is a stateful source: the [k]-th call returns [random k],
      and the code that draws from it lives in the small state monad [Rand].
    - [handleConfirm] is an [async] function with two suspension points; it is
      cut at its [await]s into three segments that an event loop ([exec])
      runs, so that clicks arriving during a delay are part of the model.

    The second part, [Full], is the controller as the page runs it.  The New
    Game button can be clicked at any moment, also during a delay, and the
    suspended computation then resumes on the state of the new match; card
    fields hold [null] and whatever [cpuSelectCard()] returns; scores are
    the numbers of the engine, [-Infinity] included; and a product with a
    value of [Math.random()] and the literal [0.6] are rounded to binary64
    ([Double]).  What a click on New Game during a delay, or the rounding,
    can change is stated on the second part. *)

From Stdlib Require Import ZArith QArith Qround Qpower Qabs List Bool String Lia Lqa.
From Stdlib Require Import Sorting.Sorted Permutation DecimalString.
Import ListNotations.

Close Scope Q_scope.
Open Scope Z_scope.

(* ------------------------------------------------------------------ *)
(** ** The fragment of the JavaScript library that the controller uses *)
(* ------------------------------------------------------------------ *)

Module Js.

(** What an expression of the controller that is meant to produce a card
    can evaluate to: a number, [undefined] (an array read out of range) or
    [-Infinity] ([Math.max] of no arguments). *)
Inductive value : Type :=
| Num (n : Z)
| Undefined
| NegInfinity.

(** [ToIntegerOrInfinity] followed by the clamping of [Array.prototype.slice]:
    a negative relative index counts from the end. *)
Definition rel_index (len k : Z) : Z :=
  if k <? 0 then Z.max (len + k) 0 else Z.min k len.

(** [array.slice(start)] is [slice start None array];
    [array.slice(start, end)] is [slice start (Some end) array]. *)
Definition slice {A : Type} (start : Z) (end_ : option Z) (l : list A) : list A :=
  let len := Z.of_nat (List.length l) in
  let from := rel_index len start in
  let final := match end_ with
               | None => len
               | Some e => rel_index len e
               end in
  firstn (Z.to_nat (final - from)) (skipn (Z.to_nat from) l).

(** [array.includes(v)] *)
Definition includes (v : Z) (l : list Z) : bool := existsb (Z.eqb v) l.

(** [array.push(v)] (the array after the call) *)
Definition push {A : Type} (v : A) (l : list A) : list A := l ++ [v].

(** [array[i]] *)
Definition get (l : list Z) (i : Z) : value :=
  if i <? 0 then Undefined
  else match nth_error l (Z.to_nat i) with
       | Some x => Num x
       | None => Undefined
       end.

(** [Math.max(...array)] *)
Definition Math_max (l : list Z) : value :=
  fold_left (fun acc x => match acc with
                          | Num m => Num (Z.max m x)
                          | _ => Num x
                          end) l NegInfinity.

(** [Math.floor(r * n)] for an integer [n] *)
Definition floor_mul (r : Q) (n : Z) : Z := Qfloor (r * inject_Z n)%Q.

(** [r < c] on numbers *)
Definition ltb (r c : Q) : bool := negb (Qle_bool c r).

(** Decimal rendering of an integer inside a template literal. *)
Definition show (n : Z) : string := NilZero.string_of_int (Z.to_int n).

End Js.

(* ------------------------------------------------------------------ *)
(** ** Numbers as the engine holds them *)
(* ------------------------------------------------------------------ *)

(** A JavaScript number is a binary64 floating-point number, and the result
    of an arithmetic operation is the exact result rounded to the nearest
    such number, ties going to the one with an even significand.  A finite
    number is a rational; this module gives the rounding, for magnitudes
    below 2^1024 (nothing the controller computes comes near). *)
Module Double.

(** 53 significant bits; the last place of the smallest numbers is
    2^-1074. *)
Definition prec : Z := 53.
Definition emin : Z := -1074.

(** The integer part of the binary logarithm of a positive rational. *)
Definition ilog2 (x : Q) : Z :=
  let e := Z.log2 (Qnum x) - Z.log2 (Zpos (Qden x)) in
  if Qle_bool (2 ^ e) x then e else e - 1.

(** The exponent of the last place of the numbers as large as [x]. *)
Definition ulp_exp (x : Q) : Z := Z.max (ilog2 (Qabs x) - (prec - 1)) emin.

(** The nearest integer, ties going to the even one. *)
Definition nearest_even (q : Q) : Z :=
  let f := Qfloor q in
  match (q - inject_Z f ?= 1 # 2)%Q with
  | Lt => f
  | Gt => f + 1
  | Eq => if Z.even f then f else f + 1
  end.

(** The number nearest to [x]. *)
Definition round (x : Q) : Q :=
  let e := ulp_exp x in
  (inject_Z (nearest_even (x / 2 ^ e)) * 2 ^ e)%Q.

(** [x] is a number. *)
Definition representable (x : Q) : Prop := (round x == x)%Q.

(** [a * b], [a + b] and [a - b] *)
Definition mul (a b : Q) : Q := round (a * b).

Definition add (a b : Q) : Q := round (a + b).

Definition sub (a b : Q) : Q := round (a - b).

(** What a decimal literal denotes: [0.6] is [literal (6 # 10)]. *)
Definition literal (x : Q) : Q := round x.

End Double.

(* ------------------------------------------------------------------ *)
(** ** Game state *)
(* ------------------------------------------------------------------ *)

(** [gamePhase: 'selection' | 'reveal' | 'complete'] *)
Inductive Phase : Type := selection | reveal | complete.

(** [winner: 'player' | 'cpu' | 'tie'] *)
Inductive Winner : Type := player | cpu | tie.

Definition Phase_eqb (a b : Phase) : bool :=
  match a, b with
  | selection, selection | reveal, reveal | complete, complete => true
  | _, _ => false
  end.

(** The object returned by [resolveRound]. *)
Record RoundResult : Type := mkRoundResult {
  winner : Winner;
  playerPoints : Z;
  cpuPoints : Z;
  message : string
}.

(** [this.state], without the DOM cache. *)
Record State : Type := mkState {
  playerCards : list Z;
  cpuCards : list Z;
  playerUsedCards : list Z;
  cpuUsedCards : list Z;
  currentTurn : Z;
  isPlayerTurn : bool;
  playerSelectedCard : option Z;
  cpuSelectedCard : option Z;
  lastPlayerCard : option Z;
  lastCpuCard : option Z;
  lastRoundResult : option RoundResult;
  playerScore : Z;
  cpuScore : Z;
  highScore : option Z;
  gamePhase : Phase;
  isLocked : bool
}.

(** The state built by the constructor. *)
Definition constructor_state : State :=
  {| playerCards := [1; 2; 3; 4; 5; 6; 7; 8; 9];
     cpuCards := [1; 2; 3; 4; 5; 6; 7; 8; 9];
     playerUsedCards := [];
     cpuUsedCards := [];
     currentTurn := 1;
     isPlayerTurn := true;
     playerSelectedCard := None;
     cpuSelectedCard := None;
     lastPlayerCard := None;
     lastCpuCard := None;
     lastRoundResult := None;
     playerScore := 0;
     cpuScore := 0;
     highScore := None;
     gamePhase := selection;
     isLocked := false |}.

(** [startGame()]: every field but [highScore] is reset. *)
Definition startGame (s : State) : State :=
  {| playerCards := [1; 2; 3; 4; 5; 6; 7; 8; 9];
     cpuCards := [1; 2; 3; 4; 5; 6; 7; 8; 9];
     playerUsedCards := [];
     cpuUsedCards := [];
     currentTurn := 1;
     isPlayerTurn := true;
     playerSelectedCard := None;
     cpuSelectedCard := None;
     lastPlayerCard := None;
     lastCpuCard := None;
     lastRoundResult := None;
     playerScore := 0;
     cpuScore := 0;
     highScore := highScore s;
     gamePhase := selection;
     isLocked := false |}.

(** [resetGame()] *)
Definition resetGame (s : State) : State := startGame s.

(* ------------------------------------------------------------------ *)
(** ** Round resolver *)
(* ------------------------------------------------------------------ *)

(** [resolveRound(playerCard, cpuCard)] *)
Definition resolveRound (playerCard cpuCard : Z) : RoundResult :=
  let totalPoints := playerCard + cpuCard in
  if playerCard >? cpuCard then
    {| winner := player;
       playerPoints := totalPoints;
       cpuPoints := 0;
       message := ("You win " ++ Js.show totalPoints ++ " points! (Your "
                   ++ Js.show playerCard ++ " > CPU " ++ Js.show cpuCard ++ ")")%string |}
  else if cpuCard >? playerCard then
    {| winner := cpu;
       playerPoints := 0;
       cpuPoints := totalPoints;
       message := ("CPU wins " ++ Js.show totalPoints ++ " points! (CPU "
                   ++ Js.show cpuCard ++ " > Your " ++ Js.show playerCard ++ ")")%string |}
  else
    {| winner := tie;
       playerPoints := 0;
       cpuPoints := 0;
       message := ("Tie! No points awarded. (" ++ Js.show playerCard ++ " = "
                   ++ Js.show cpuCard ++ ")")%string |}.

(* ------------------------------------------------------------------ *)
(** ** Randomness *)
(* ------------------------------------------------------------------ *)

(** A computation that calls [Math.random()]: it is given the number of calls
    made so far and returns its result with the new count. *)
Definition Rand (A : Type) : Type := nat -> A * nat.

Definition ret {A : Type} (a : A) : Rand A := fun k => (a, k).

Definition bind {A B : Type} (m : Rand A) (f : A -> Rand B) : Rand B :=
  fun k => let (a, k') := m k in f a k'.

Notation "x <- m ;; f" := (bind m (fun x => f))
  (at level 61, m at next level, right associativity).

Section Strategy.

(** [random k] is what the [k]-th call of [Math.random()] returns. *)
Variable random : nat -> Q.

(** [Math.random()] *)
Definition Math_random : Rand Q := fun k => (random k, S k).

(** [randomChoice(array)] *)
Definition randomChoice (array : list Z) : Rand Js.value :=
  r <- Math_random ;;
  ret (Js.get array (Js.floor_mul r (Z.of_nat (List.length array)))).

(** [cpuSelectCard()]; in [middleCards.length > 0 && Math.random() < 0.6]
    the draw is made only when the left operand holds. *)
Definition cpuSelectCard (s : State) : Rand Js.value :=
  let availableCards := cpuCards s in
  let playerScore := playerScore s in
  let cpuScore := cpuScore s in
  let remainingTurns := 10 - currentTurn s in
  let scoreDiff := cpuScore - playerScore in
  if (scoreDiff <? -15) && (Z.of_nat (List.length availableCards) >? 3) then
    let topCards := Js.slice (-3) None availableCards in
    randomChoice topCards
  else if (scoreDiff >? 15) && (Z.of_nat (List.length availableCards) >? 3) then
    let bottomCards := Js.slice 0 (Some 3) availableCards in
    randomChoice bottomCards
  else if (remainingTurns <=? 3) && (scoreDiff <=? 0) then
    ret (Js.Math_max availableCards)
  else
    let middleCards := filter (fun c => (c >=? 4) && (c <=? 6)) availableCards in
    if Z.of_nat (List.length middleCards) >? 0 then
      r <- Math_random ;;
      if Js.ltb r (6 # 10) then randomChoice middleCards
      else randomChoice availableCards
    else randomChoice availableCards.

End Strategy.

(* ------------------------------------------------------------------ *)
(** ** Event handlers *)
(* ------------------------------------------------------------------ *)

(** The errors that the specification names.  No method of the controller
    has a [throw] statement. *)
Inductive Error : Type :=
| InvalidSelectionError
| InvalidCardError
| InvalidPhaseError.

(** How a call completes: it returns, or it throws to its caller. *)
Inductive Completion (A : Type) : Type :=
| Returned (a : A)
| Thrown (e : Error).

Arguments Returned {A} a.
Arguments Thrown {A} e.

Definition set_playerSelectedCard (v : option Z) (s : State) : State :=
  {| playerCards := playerCards s;
     cpuCards := cpuCards s;
     playerUsedCards := playerUsedCards s;
     cpuUsedCards := cpuUsedCards s;
     currentTurn := currentTurn s;
     isPlayerTurn := isPlayerTurn s;
     playerSelectedCard := v;
     cpuSelectedCard := cpuSelectedCard s;
     lastPlayerCard := lastPlayerCard s;
     lastCpuCard := lastCpuCard s;
     lastRoundResult := lastRoundResult s;
     playerScore := playerScore s;
     cpuScore := cpuScore s;
     highScore := highScore s;
     gamePhase := gamePhase s;
     isLocked := isLocked s |}.

Definition set_isLocked (b : bool) (s : State) : State :=
  {| playerCards := playerCards s;
     cpuCards := cpuCards s;
     playerUsedCards := playerUsedCards s;
     cpuUsedCards := cpuUsedCards s;
     currentTurn := currentTurn s;
     isPlayerTurn := isPlayerTurn s;
     playerSelectedCard := playerSelectedCard s;
     cpuSelectedCard := cpuSelectedCard s;
     lastPlayerCard := lastPlayerCard s;
     lastCpuCard := lastCpuCard s;
     lastRoundResult := lastRoundResult s;
     playerScore := playerScore s;
     cpuScore := cpuScore s;
     highScore := highScore s;
     gamePhase := gamePhase s;
     isLocked := b |}.

Definition set_highScore (v : option Z) (s : State) : State :=
  {| playerCards := playerCards s;
     cpuCards := cpuCards s;
     playerUsedCards := playerUsedCards s;
     cpuUsedCards := cpuUsedCards s;
     currentTurn := currentTurn s;
     isPlayerTurn := isPlayerTurn s;
     playerSelectedCard := playerSelectedCard s;
     cpuSelectedCard := cpuSelectedCard s;
     lastPlayerCard := lastPlayerCard s;
     lastCpuCard := lastCpuCard s;
     lastRoundResult := lastRoundResult s;
     playerScore := playerScore s;
     cpuScore := cpuScore s;
     highScore := v;
     gamePhase := gamePhase s;
     isLocked := isLocked s |}.

Definition set_gamePhase (p : Phase) (s : State) : State :=
  {| playerCards := playerCards s;
     cpuCards := cpuCards s;
     playerUsedCards := playerUsedCards s;
     cpuUsedCards := cpuUsedCards s;
     currentTurn := currentTurn s;
     isPlayerTurn := isPlayerTurn s;
     playerSelectedCard := playerSelectedCard s;
     cpuSelectedCard := cpuSelectedCard s;
     lastPlayerCard := lastPlayerCard s;
     lastCpuCard := lastCpuCard s;
     lastRoundResult := lastRoundResult s;
     playerScore := playerScore s;
     cpuScore := cpuScore s;
     highScore := highScore s;
     gamePhase := p;
     isLocked := isLocked s |}.

(** [endGame()] *)
Definition endGame (s : State) : State :=
  set_isLocked true (set_gamePhase complete s).

(** [this.state.playerSelectedCard === cardValue] *)
Definition selected_is (sel : option Z) (cardValue : Z) : bool :=
  match sel with
  | Some v => v =? cardValue
  | None => false
  end.

(** [handleCardClick(index)] *)
Definition handleCardClick (index : nat) (s : State) : Completion State :=
  if isLocked s then Returned s
  else if negb (Phase_eqb (gamePhase s) selection) then Returned s
  else
    let cardValue := Z.of_nat index + 1 in
    if Js.includes cardValue (playerUsedCards s) then Returned s
    else if selected_is (playerSelectedCard s) cardValue
         then Returned (set_playerSelectedCard None s)
         else Returned (set_playerSelectedCard (Some cardValue) s).

(** The points at which a suspended computation resumes: the two [await]s
    reached from [handleConfirm] and the [setTimeout] callback of
    [handleGameComplete], which has captured [winner], [message] and
    [isNewRecord]. *)
Inductive Cont : Type :=
| AfterThinking
| AfterReveal
| ShowResult (w : Winner) (msg : string) (isNewRecord : bool).

(** [handleConfirm()] up to [await this.sleep(1000)]: the state it leaves,
    and whether the call is now suspended. *)
Definition handleConfirm (s : State) : Completion (State * option Cont) :=
  if isLocked s then Returned (s, None)
  else match playerSelectedCard s with
       | None => Returned (s, None)
       | Some _ =>
           if negb (Phase_eqb (gamePhase s) selection) then Returned (s, None)
           else Returned (set_isLocked true s, Some AfterThinking)
       end.

(** [revealCards()] up to [await this.sleep(2000)].  It has no result when
    one of the two cards to compare is not a number. *)
Definition revealCards (s : State) : option State :=
  match lastPlayerCard s, lastCpuCard s with
  | Some playerCard, Some cpuCard =>
      let result := resolveRound playerCard cpuCard in
      Some {| playerCards := playerCards s;
              cpuCards := cpuCards s;
              playerUsedCards := playerUsedCards s;
              cpuUsedCards := cpuUsedCards s;
              currentTurn := currentTurn s;
              isPlayerTurn := isPlayerTurn s;
              playerSelectedCard := playerSelectedCard s;
              cpuSelectedCard := cpuSelectedCard s;
              lastPlayerCard := lastPlayerCard s;
              lastCpuCard := lastCpuCard s;
              lastRoundResult := Some result;
              playerScore := playerScore s + playerPoints result;
              cpuScore := cpuScore s + cpuPoints result;
              highScore := highScore s;
              gamePhase := gamePhase s;
              isLocked := isLocked s |}
  | _, _ => None
  end.

(** [nextTurn()] *)
Definition nextTurn (s : State) : State :=
  let turn := currentTurn s + 1 in
  {| playerCards := playerCards s;
     cpuCards := cpuCards s;
     playerUsedCards := playerUsedCards s;
     cpuUsedCards := cpuUsedCards s;
     currentTurn := turn;
     isPlayerTurn := (Z.rem turn 2 =? 1);
     playerSelectedCard := None;
     cpuSelectedCard := None;
     lastPlayerCard := lastPlayerCard s;
     lastCpuCard := lastCpuCard s;
     lastRoundResult := lastRoundResult s;
     playerScore := playerScore s;
     cpuScore := cpuScore s;
     highScore := highScore s;
     gamePhase := selection;
     isLocked := false |}.

(** The persistence capability handed to the constructor.  Only the two
    methods that the controller calls are listed; [Store] is whatever the
    service keeps, and [saveNineGameScore] reports success or failure. *)
Class GameDataService (Store : Type) : Type := {
  loadNineGameHighScore : Store -> option Z;
  saveNineGameScore : Z -> Store -> bool * Store
}.

(** The argument of [showResultModal]. *)
Module ResultModal.
Record t : Type := make {
  winner : Winner;
  message : string;
  playerScore : Z;
  cpuScore : Z;
  highScore : option Z;
  isNewRecord : bool
}.
End ResultModal.

(** A click on the [index]-th player card (nine card elements carry a
    listener, [index] is 0-8), a click on the confirm button, or the
    [k]-th pending timer firing. *)
Inductive Event : Type :=
| CardClick (index : nat)
| ConfirmClick
| TimerFires (k : nat).

Section Machine.

Variable random : nat -> Q.
Context {Store : Type} {service : GameDataService Store}.

(** The controller together with what surrounds it. *)
Record Config : Type := mkConfig {
  st : State;                       (* this.state *)
  store : Store;                    (* behind this.gameDataService *)
  saveCalls : list Z;               (* arguments of saveNineGameScore so far *)
  pending : list Cont;              (* suspended computations *)
  draws : nat;                      (* calls of Math.random so far *)
  shown : list ResultModal.t        (* calls of showResultModal so far *)
}.

(** [handleConfirm()] from the end of the first delay to the delay inside
    [revealCards()].  It has no result when the card of either side is not
    a number ([null], [undefined] or [-Infinity]), which [State] cannot
    hold. *)
Definition handleConfirm_afterThinking (s : State) : Rand (option State) :=
  v <- cpuSelectCard random s ;;
  ret (match v, playerSelectedCard s with
       | Js.Num c, Some p =>
           revealCards
             {| playerCards := filter (fun x => negb (x =? p)) (playerCards s);
                cpuCards := filter (fun x => negb (x =? c)) (cpuCards s);
                playerUsedCards := Js.push p (playerUsedCards s);
                cpuUsedCards := Js.push c (cpuUsedCards s);
                currentTurn := currentTurn s;
                isPlayerTurn := isPlayerTurn s;
                playerSelectedCard := playerSelectedCard s;
                cpuSelectedCard := Some c;
                lastPlayerCard := playerSelectedCard s;
                lastCpuCard := Some c;
                lastRoundResult := lastRoundResult s;
                playerScore := playerScore s;
                cpuScore := cpuScore s;
                highScore := highScore s;
                gamePhase := reveal;
                isLocked := isLocked s |}
       | _, _ => None
       end).

(** [checkAndSaveHighScore()]: its return value, the state and the store
    it leaves, and the arguments of the writes it made.  What
    [saveNineGameScore] returns is dropped. *)
Definition checkAndSaveHighScore (s : State) (d : Store)
  : bool * State * Store * list Z :=
  let currentScore := playerScore s in
  let currentBest := highScore s in
  if match currentBest with
     | None => true
     | Some best => currentScore >? best
     end
  then
    let (_, d') := saveNineGameScore currentScore d in
    (true, set_highScore (Some currentScore) s, d', [currentScore])
  else (false, s, d, []).

(** [handleGameComplete()]: the last component is the callback handed to
    [setTimeout]. *)
Definition handleGameComplete (s : State) (d : Store)
  : State * Store * list Z * Cont :=
  let s1 := set_isLocked true (set_gamePhase complete s) in
  let '(winner, message) :=
    if playerScore s1 >? cpuScore s1 then (player, "You Win!"%string)
    else if cpuScore s1 >? playerScore s1 then (cpu, "CPU Wins!"%string)
    else (tie, "It's a Tie!"%string) in
  let '(isNewRecord, s2, d', calls) := checkAndSaveHighScore s1 d in
  (s2, d', calls, ShowResult winner message isNewRecord).

(** The callback of [handleGameComplete] reads the scores when it runs. *)
Definition showResult (w : Winner) (msg : string) (isNewRecord : bool)
    (s : State) : ResultModal.t :=
  {| ResultModal.winner := w;
     ResultModal.message := msg;
     ResultModal.playerScore := playerScore s;
     ResultModal.cpuScore := cpuScore s;
     ResultModal.highScore := highScore s;
     ResultModal.isNewRecord := isNewRecord |}.

Fixpoint remove_nth {A : Type} (k : nat) (l : list A) : list A :=
  match l, k with
  | [], _ => []
  | _ :: t, O => t
  | x :: t, S k' => x :: remove_nth k' t
  end.

(** One turn of the event loop.  [None]: the event cannot happen (no such
    card element, no such timer) or a segment has no result. *)
Definition exec (e : Event) (c : Config) : option Config :=
  match e with
  | CardClick index =>
      if (index <? 9)%nat then
        match handleCardClick index (st c) with
        | Returned s' =>
            Some (mkConfig s' (store c) (saveCalls c) (pending c) (draws c) (shown c))
        | Thrown _ => None
        end
      else None
  | ConfirmClick =>
      match handleConfirm (st c) with
      | Returned (s', suspended) =>
          Some (mkConfig s' (store c) (saveCalls c)
                  (pending c ++ match suspended with
                                | Some k => [k]
                                | None => []
                                end)
                  (draws c) (shown c))
      | Thrown _ => None
      end
  | TimerFires k =>
      match nth_error (pending c) k with
      | None => None
      | Some AfterThinking =>
          match handleConfirm_afterThinking (st c) (draws c) with
          | (Some s', n) =>
              Some (mkConfig s' (store c) (saveCalls c)
                      (remove_nth k (pending c) ++ [AfterReveal]) n (shown c))
          | (None, _) => None
          end
      | Some AfterReveal =>
          if currentTurn (st c) >=? 9 then
            let '(s', d', calls, callback) := handleGameComplete (st c) (store c) in
            Some (mkConfig s' d' (saveCalls c ++ calls)
                    (remove_nth k (pending c) ++ [callback]) (draws c) (shown c))
          else
            Some (mkConfig (nextTurn (st c)) (store c) (saveCalls c)
                    (remove_nth k (pending c)) (draws c) (shown c))
      | Some (ShowResult w msg isNewRecord) =>
          Some (mkConfig (st c) (store c) (saveCalls c)
                  (remove_nth k (pending c)) (draws c)
                  (shown c ++ [showResult w msg isNewRecord (st c)]))
      end
  end.

Fixpoint run (es : list Event) (c : Config) : option Config :=
  match es with
  | [] => Some c
  | e :: es' =>
      match exec e c with
      | Some c' => run es' c'
      | None => None
      end
  end.

(** [init()]: the stored high score is loaded, then [startGame()]. *)
Definition init (d : Store) : State :=
  startGame (set_highScore (loadNineGameHighScore d) constructor_state).

(** The start of a match: [startGame()] has just run (from [init()] or
    from [resetGame()]) and nothing is suspended. *)
Definition match_start (s0 : State) (d : Store) (n : nat) : Config :=
  mkConfig (startGame s0) d [] [] n [].

(** The configurations of one match. *)
Inductive reachable : Config -> Prop :=
| reach_start : forall s0 d n, reachable (match_start s0 d n)
| reach_step : forall e c c',
    reachable c -> exec e c = Some c' -> reachable c'.

End Machine.

(* ------------------------------------------------------------------ *)
(** ** The specification's vocabulary *)
(* ------------------------------------------------------------------ *)

(** These definitions follow the words of the specification (sections 3,
    4.1 to 4.3); the theorems below compare the code with them. *)
Module Spec.

Fixpoint insert (x : Z) (l : list Z) : list Z :=
  match l with
  | [] => [x]
  | y :: t => if x <=? y then x :: l else y :: insert x t
  end.

Definition sort (l : list Z) : list Z := fold_right insert [] l.

(** [bottomN(pool, n)]: the [n] lowest available values, all of them if
    fewer than [n] remain. *)
Definition bottomN (n : nat) (available : list Z) : list Z :=
  firstn n (sort available).

(** [topN(pool, n)]: the [n] highest available values, all of them if
    fewer than [n] remain. *)
Definition topN (n : nat) (available : list Z) : list Z :=
  rev (firstn n (rev (sort available))).

(** The single highest available card. *)
Definition highest (available : list Z) (c : Z) : Prop :=
  In c available /\ forall x, In x available -> x <= c.

(** [mid = {c in available : 4 <= c <= 6}] *)
Definition mid (available : list Z) : list Z :=
  filter (fun c => (4 <=? c) && (c <=? 6)) available.

(** Picking uniformly from [X] with the draw [r] of a source that is uniform
    on the unit interval: the interval is cut into [|X|] pieces of equal
    length and the piece that holds [r] names the element. *)
Definition uniform_pick (X : list Z) (r : Q) (c : Z) : Prop :=
  exists i : nat,
    nth_error X i = Some c /\
    (inject_Z (Z.of_nat i) <= r * inject_Z (Z.of_nat (List.length X)))%Q /\
    (r * inject_Z (Z.of_nat (List.length X)) < inject_Z (Z.of_nat i + 1))%Q.

Definition desperation (available : list Z) (scoreDiff : Z) : Prop :=
  scoreDiff < -15 /\ (List.length available > 3)%nat.

Definition preservation (available : list Z) (scoreDiff : Z) : Prop :=
  scoreDiff > 15 /\ (List.length available > 3)%nat.

Definition endgame (scoreDiff turnNumber : Z) : Prop :=
  10 - turnNumber <= 3 /\ scoreDiff <= 0.

(** A card pool: no value twice, [available] and [used] disjoint, and
    their union is 1..9. *)
Definition pool (available used : list Z) : Prop :=
  NoDup available /\ NoDup used /\
  (forall x, In x available -> ~ In x used) /\
  (forall x, In x available \/ In x used <-> 1 <= x <= 9).

(** [RoundOutcome.pointsAwarded]: the sum of the two cards, 0 on a tie. *)
Definition pointsAwarded (playerCard opponentCard : Z) : Z :=
  if playerCard =? opponentCard then 0 else playerCard + opponentCard.

(** "No stored high score exists or the new score strictly exceeds it". *)
Definition beats_record (newScore : Z) (storedScore : option Z) : bool :=
  match storedScore with
  | None => true
  | Some stored => stored <? newScore
  end.

(** The maximum of the prior high score, if any, and the new score. *)
Definition best (storedScore : option Z) (newScore : Z) : Z :=
  match storedScore with
  | None => newScore
  | Some stored => Z.max stored newScore
  end.

Definition is_tie (round : Z * Z) : bool := fst round =? snd round.

(** The sum of [playerCard + opponentCard] over the rounds that are not
    ties. *)
Definition nontie_total (rounds : list (Z * Z)) : Z :=
  fold_right Z.add 0
    (map (fun round => fst round + snd round)
       (filter (fun round => negb (is_tie round)) rounds)).

End Spec.

(** The values of the nine cards. *)
Definition deck : list Z := [1; 2; 3; 4; 5; 6; 7; 8; 9].

(** An array of cards in strictly ascending order. *)
Fixpoint ascending (l : list Z) : bool :=
  match l with
  | [] => true
  | x :: t => match t with
              | [] => true
              | y :: _ => (x <? y) && ascending t
              end
  end.

(** The rounds played so far, oldest first: the two arrays of used cards
    are pushed to together. *)
Definition rounds (s : State) : list (Z * Z) :=
  combine (playerUsedCards s) (cpuUsedCards s).

(** Every value that a random source returns is in the unit interval. *)
Definition unit_source (random : nat -> Q) : Prop :=
  forall k, (0 <= random k)%Q /\ (random k < 1)%Q.

(* ------------------------------------------------------------------ *)
(** ** Sources and services used in the examples *)
(* ------------------------------------------------------------------ *)


(** A random source that cycles through 0, 0.1, ..., 0.9. *)
Definition tenths : nat -> Q := fun k => (Z.of_nat (k mod 10) # 10)%Q.

(** A one-cell store whose writes succeed. *)
Definition cell_service : GameDataService (option Z) :=
  {| loadNineGameHighScore := fun d => d;
     saveNineGameScore := fun v _ => (true, Some v) |}.

(** A store whose writes fail. *)
Definition failing_service : GameDataService (option Z) :=
  {| loadNineGameHighScore := fun d => d;
     saveNineGameScore := fun _ d => (false, d) |}.

(** The four events of one turn in which the player plays card [index + 1]. *)
Definition play_turn (index : nat) : list Event :=
  [CardClick index; ConfirmClick; TimerFires 0; TimerFires 0].

(** A whole match in which the player plays 9, 8, ..., 1. *)
Definition descending_match : list Event :=
  flat_map play_turn [8; 7; 6; 5; 4; 3; 2; 1; 0]%nat.

(** The start of a match on the one-cell store with nothing stored. *)
Definition fresh_match : Config (Store := option Z) :=
  match_start constructor_state None 0.

(** [run], on the one-cell store, falling back on the start. *)
Definition after (random : nat -> Q) (es : list Event) : Config (Store := option Z) :=
  match run (service := cell_service) random es fresh_match with
  | Some c => c
  | None => fresh_match
  end.

(** Card 5 is selected and not yet confirmed. *)
Definition card_pending : Config (Store := option Z) :=
  Eval vm_compute in after tenths [CardClick 4].

(** Card 5 is confirmed and the CPU is thinking. *)
Definition cpu_thinking : Config (Store := option Z) :=
  Eval vm_compute in after tenths [CardClick 4; ConfirmClick].

(** The first turn, in which the player played card 3, is over. *)
Definition three_played : Config (Store := option Z) :=
  Eval vm_compute in after tenths (play_turn 2).

(** The cards of turn 9 are revealed; the match is about to complete. *)
Definition last_reveal : Config (Store := option Z) :=
  Eval vm_compute in after tenths (removelast descending_match).

(** The match is complete. *)
Definition match_over : Config (Store := option Z) :=
  Eval vm_compute in after tenths descending_match.

(** A call signals an invalid selection to its caller, under either of the
    two names that the specification gives this error. *)
Definition signals_invalid {A : Type} (r : Completion A) : Prop :=
  r = Thrown InvalidSelectionError \/ r = Thrown InvalidCardError.

(* ------------------------------------------------------------------ *)
(** ** The invariant of a match *)
(* ------------------------------------------------------------------ *)

(** The cards of the deck that are not in [used], in deck order. *)
Definition unused (used : list Z) : list Z :=
  filter (fun x => negb (Js.includes x used)) deck.

Definition sumZ (l : list Z) : Z := fold_right Z.add 0 l.

(** What [resolveRound] gave each side over a list of rounds. *)
Definition player_total (rs : list (Z * Z)) : Z :=
  sumZ (map (fun r => playerPoints (resolveRound (fst r) (snd r))) rs).

Definition cpu_total (rs : list (Z * Z)) : Z :=
  sumZ (map (fun r => cpuPoints (resolveRound (fst r) (snd r))) rs).

(** The number of rounds resolved: the current one counts once its cards
    are revealed. *)
Definition resolved (s : State) : Z :=
  match gamePhase s with
  | selection => currentTurn s - 1
  | _ => currentTurn s
  end.

(** How phase, lock, pending selection and suspended computations go
    together. *)
Definition control_ok (s : State) (pend : list Cont) : Prop :=
  match gamePhase s, isLocked s, pend with
  | selection, false, [] =>
      forall p, playerSelectedCard s = Some p -> In p (playerCards s)
  | selection, true, [AfterThinking] =>
      exists p, playerSelectedCard s = Some p /\ In p (playerCards s)
  | reveal, true, [AfterReveal] => True
  | complete, true, [] => currentTurn s = 9
  | complete, true, [ShowResult _ _ _] => currentTurn s = 9
  | _, _, _ => False
  end.

Record state_ok (s : State) : Prop := {
  ok_playerCards : playerCards s = unused (playerUsedCards s);
  ok_cpuCards : cpuCards s = unused (cpuUsedCards s);
  ok_playerUsed_nodup : NoDup (playerUsedCards s);
  ok_cpuUsed_nodup : NoDup (cpuUsedCards s);
  ok_playerUsed_deck : forall x, In x (playerUsedCards s) -> In x deck;
  ok_cpuUsed_deck : forall x, In x (cpuUsedCards s) -> In x deck;
  ok_playerUsed_length : Z.of_nat (List.length (playerUsedCards s)) = resolved s;
  ok_cpuUsed_length : Z.of_nat (List.length (cpuUsedCards s)) = resolved s;
  ok_turn : 1 <= currentTurn s <= 9;
  ok_playerScore : playerScore s = player_total (rounds s);
  ok_cpuScore : cpuScore s = cpu_total (rounds s)
}.

Definition Inv {Store : Type} (c : Config (Store := Store)) : Prop :=
  state_ok (st c) /\ control_ok (st c) (pending c).

(** The fields that [state_ok] reads. *)
Definition same_board (s s' : State) : Prop :=
  playerCards s' = playerCards s /\ cpuCards s' = cpuCards s /\
  playerUsedCards s' = playerUsedCards s /\ cpuUsedCards s' = cpuUsedCards s /\
  currentTurn s' = currentTurn s /\ gamePhase s' = gamePhase s /\
  playerScore s' = playerScore s /\ cpuScore s' = cpuScore s.

(** One card of each side goes from available to used. *)
Definition moves_cards (p q : Z) (s s' : State) : Prop :=
  In p (playerCards s) /\ In q (cpuCards s) /\
  playerCards s' = filter (fun x => negb (x =? p)) (playerCards s) /\
  cpuCards s' = filter (fun x => negb (x =? q)) (cpuCards s) /\
  playerUsedCards s' = playerUsedCards s ++ [p] /\
  cpuUsedCards s' = cpuUsedCards s ++ [q].

(** Neither pool changes. *)
Definition same_pools (s s' : State) : Prop :=
  playerCards s' = playerCards s /\ cpuCards s' = cpuCards s /\
  playerUsedCards s' = playerUsedCards s /\ cpuUsedCards s' = cpuUsedCards s.

(** Neither score changes. *)
Definition same_scores (s s' : State) : Prop :=
  playerScore s' = playerScore s /\ cpuScore s' = cpuScore s.

(** The events that can happen in a configuration: a click needs one of
    the nine card elements, a timer must be pending. *)
Definition enabled {Store : Type} (e : Event) (c : Config (Store := Store)) : Prop :=
  match e with
  | CardClick index => (index < 9)%nat
  | ConfirmClick => True
  | TimerFires k => (k < List.length (pending c))%nat
  end.





(* ------------------------------------------------------------------ *)
(** ** The page *)
(* ------------------------------------------------------------------ *)

(** The DOM nodes that the controller caches in [this.state] and writes
    to.  The state-changing part of each method is above; here is what the
    same method writes to the page. *)
Module Dom.

(** A node, as far as the controller touches it.  [classList] is the list
    of class tokens; assigning to [className] replaces it. *)
Record Element : Type := mkElement {
  dataset_value : option string;
  textContent : string;
  classList : list string;
  disabled : bool
}.

(** [classList.add(token)] *)
Definition classList_add (token : string) (l : list string) : list string :=
  if existsb (String.eqb token) l then l else l ++ [token].

(** [classList.remove(...tokens)] *)
Definition classList_remove (tokens l : list string) : list string :=
  filter (fun x => negb (existsb (String.eqb x) tokens)) l.

Definition set_textContent (text : string) (el : Element) : Element :=
  {| dataset_value := dataset_value el;
     textContent := text;
     classList := classList el;
     disabled := disabled el |}.

Definition set_className (tokens : list string) (el : Element) : Element :=
  {| dataset_value := dataset_value el;
     textContent := textContent el;
     classList := tokens;
     disabled := disabled el |}.

Definition set_disabled (b : bool) (el : Element) : Element :=
  {| dataset_value := dataset_value el;
     textContent := textContent el;
     classList := classList el;
     disabled := b |}.

(** The cache of nodes; a node that the page lacks is [None] ([null]). *)
Record t : Type := mk {
  playerCardElements : list Element;
  cpuCardElements : list Element;
  confirmButton : option Element;
  playerScoreDisplay : option Element;
  cpuScoreDisplay : option Element;
  highScoreDisplay : option Element;
  turnDisplay : option Element;
  resultDisplay : option Element
}.

End Dom.

(** [array.forEach((x, index) => ...)] over nodes that the callback
    updates. *)
Fixpoint forEach_from {A : Type} (f : nat -> A -> A) (index : nat) (l : list A)
  : list A :=
  match l with
  | [] => []
  | x :: t => f index x :: forEach_from f (S index) t
  end.

Definition forEach {A : Type} (f : nat -> A -> A) (l : list A) : list A :=
  forEach_from f 0 l.

(** [cardValue % 2 === 1 ? 'red' : 'black'] *)
Definition colour (cardValue : Z) : string :=
  if Z.rem cardValue 2 =? 1 then "red"%string else "black"%string.

(** The callback of [renderCards()] for a player card. *)
Definition render_player_card (s : State) (index : nat) (cardEl : Dom.Element)
  : Dom.Element :=
  let cardValue := Z.of_nat index + 1 in
  let isUsed := Js.includes cardValue (playerUsedCards s) in
  let isSelected := selected_is (playerSelectedCard s) cardValue in
  let classes :=
    Dom.classList_remove ["used"; "selected"; "red"; "black"]%string
      (Dom.classList cardEl) in
  let classes := Dom.classList_add (colour cardValue) classes in
  let classes := if isUsed then Dom.classList_add "used" classes else classes in
  let classes :=
    if isSelected then Dom.classList_add "selected" classes else classes in
  {| Dom.dataset_value := Some (Js.show cardValue);
     Dom.textContent := Js.show cardValue;
     Dom.classList := classes;
     Dom.disabled := Dom.disabled cardEl |}.

(** The callback of [renderCards()] for a CPU card. *)
Definition render_cpu_card (s : State) (index : nat) (cardEl : Dom.Element)
  : Dom.Element :=
  let cardValue := Z.of_nat index + 1 in
  let isUsed := Js.includes cardValue (cpuUsedCards s) in
  let classes := Dom.classList_remove ["used"%string] (Dom.classList cardEl) in
  if isUsed then
    {| Dom.dataset_value := Some (Js.show cardValue);
       Dom.textContent := Js.show cardValue;
       Dom.classList :=
         Dom.classList_add (colour cardValue) (Dom.classList_add "used" classes);
       Dom.disabled := Dom.disabled cardEl |}
  else
    {| Dom.dataset_value := Some (Js.show cardValue);
       Dom.textContent := "?";
       Dom.classList := Dom.classList_remove ["red"; "black"]%string classes;
       Dom.disabled := Dom.disabled cardEl |}.

(** [renderCards()] *)
Definition renderCards (s : State) (dom : Dom.t) : Dom.t :=
  {| Dom.playerCardElements :=
       forEach (render_player_card s) (Dom.playerCardElements dom);
     Dom.cpuCardElements :=
       forEach (render_cpu_card s) (Dom.cpuCardElements dom);
     Dom.confirmButton := Dom.confirmButton dom;
     Dom.playerScoreDisplay := Dom.playerScoreDisplay dom;
     Dom.cpuScoreDisplay := Dom.cpuScoreDisplay dom;
     Dom.highScoreDisplay := Dom.highScoreDisplay dom;
     Dom.turnDisplay := Dom.turnDisplay dom;
     Dom.resultDisplay := Dom.resultDisplay dom |}.

(** [updateScoreDisplays()] *)
Definition updateScoreDisplays (s : State) (dom : Dom.t) : Dom.t :=
  {| Dom.playerCardElements := Dom.playerCardElements dom;
     Dom.cpuCardElements := Dom.cpuCardElements dom;
     Dom.confirmButton := Dom.confirmButton dom;
     Dom.playerScoreDisplay :=
       option_map (Dom.set_textContent (Js.show (playerScore s)))
         (Dom.playerScoreDisplay dom);
     Dom.cpuScoreDisplay :=
       option_map (Dom.set_textContent (Js.show (cpuScore s)))
         (Dom.cpuScoreDisplay dom);
     Dom.highScoreDisplay :=
       option_map (Dom.set_textContent
                     match highScore s with
                     | Some best => Js.show best
                     | None => "--"%string
                     end)
         (Dom.highScoreDisplay dom);
     Dom.turnDisplay := Dom.turnDisplay dom;
     Dom.resultDisplay := Dom.resultDisplay dom |}.

(** [updateTurnDisplay()] *)
Definition updateTurnDisplay (s : State) (dom : Dom.t) : Dom.t :=
  let turnText := ("Turn " ++ Js.show (currentTurn s) ++ "/9")%string in
  let whoseTurn :=
    if isPlayerTurn s then "Your turn"%string else "CPU's turn"%string in
  {| Dom.playerCardElements := Dom.playerCardElements dom;
     Dom.cpuCardElements := Dom.cpuCardElements dom;
     Dom.confirmButton := Dom.confirmButton dom;
     Dom.playerScoreDisplay := Dom.playerScoreDisplay dom;
     Dom.cpuScoreDisplay := Dom.cpuScoreDisplay dom;
     Dom.highScoreDisplay := Dom.highScoreDisplay dom;
     Dom.turnDisplay :=
       option_map (Dom.set_textContent (turnText ++ " - " ++ whoseTurn)%string)
         (Dom.turnDisplay dom);
     Dom.resultDisplay := Dom.resultDisplay dom |}.

Definition set_confirmButton_disabled (b : bool) (dom : Dom.t) : Dom.t :=
  {| Dom.playerCardElements := Dom.playerCardElements dom;
     Dom.cpuCardElements := Dom.cpuCardElements dom;
     Dom.confirmButton := option_map (Dom.set_disabled b) (Dom.confirmButton dom);
     Dom.playerScoreDisplay := Dom.playerScoreDisplay dom;
     Dom.cpuScoreDisplay := Dom.cpuScoreDisplay dom;
     Dom.highScoreDisplay := Dom.highScoreDisplay dom;
     Dom.turnDisplay := Dom.turnDisplay dom;
     Dom.resultDisplay := Dom.resultDisplay dom |}.

(** [updateConfirmButton()] *)
Definition updateConfirmButton (s : State) (dom : Dom.t) : Dom.t :=
  set_confirmButton_disabled
    (match playerSelectedCard s with None => true | Some _ => false end
     || isLocked s
     || negb (Phase_eqb (gamePhase s) selection))
    dom.

(** The two assignments to [resultDisplay.textContent] and
    [resultDisplay.className]. *)
Definition set_resultDisplay (text : string) (className : list string)
    (dom : Dom.t) : Dom.t :=
  {| Dom.playerCardElements := Dom.playerCardElements dom;
     Dom.cpuCardElements := Dom.cpuCardElements dom;
     Dom.confirmButton := Dom.confirmButton dom;
     Dom.playerScoreDisplay := Dom.playerScoreDisplay dom;
     Dom.cpuScoreDisplay := Dom.cpuScoreDisplay dom;
     Dom.highScoreDisplay := Dom.highScoreDisplay dom;
     Dom.turnDisplay := Dom.turnDisplay dom;
     Dom.resultDisplay :=
       option_map (fun el => Dom.set_className className
                               (Dom.set_textContent text el))
         (Dom.resultDisplay dom) |}.

(** [result.winner] inside the template literal of [revealCards()]. *)
Definition winner_name (w : Winner) : string :=
  match w with
  | player => "player"
  | cpu => "cpu"
  | tie => "tie"
  end.

(** What [startGame()] writes, after it has reset the state. *)
Definition startGame_dom (s : State) (dom : Dom.t) : Dom.t :=
  let s' := startGame s in
  set_resultDisplay "Select a card and click Confirm!" ["result-display"%string]
    (updateConfirmButton s'
       (updateTurnDisplay s' (updateScoreDisplays s' (renderCards s' dom)))).

(** What [handleCardClick(index)] writes. *)
Definition handleCardClick_dom (index : nat) (s : State) (dom : Dom.t) : Dom.t :=
  if isLocked s then dom
  else if negb (Phase_eqb (gamePhase s) selection) then dom
  else
    let cardValue := Z.of_nat index + 1 in
    if Js.includes cardValue (playerUsedCards s) then dom
    else
      let s' :=
        if selected_is (playerSelectedCard s) cardValue
        then set_playerSelectedCard None s
        else set_playerSelectedCard (Some cardValue) s in
      updateConfirmButton s' (renderCards s' dom).

(** What [handleConfirm()] writes before its first [await]. *)
Definition handleConfirm_dom (s : State) (dom : Dom.t) : Dom.t :=
  if isLocked s then dom
  else match playerSelectedCard s with
       | None => dom
       | Some _ =>
           if negb (Phase_eqb (gamePhase s) selection) then dom
           else set_resultDisplay "CPU is thinking..." ["result-display"%string]
                  (set_confirmButton_disabled true dom)
       end.

(** What [revealCards()] writes before its [await], entered in state [s]:
    the cards are rendered first, the scores are shown after they have
    been updated. *)
Definition revealCards_dom (s : State) (dom : Dom.t) : Dom.t :=
  match lastPlayerCard s, lastCpuCard s, revealCards s with
  | Some playerCard, Some cpuCard, Some s' =>
      let dom := renderCards s dom in
      let result := resolveRound playerCard cpuCard in
      let dom := updateScoreDisplays s' dom in
      set_resultDisplay (message result)
        ["result-display"%string; winner_name (winner result)] dom
  | _, _, _ => dom
  end.

(** The state in which [handleConfirm()] calls [revealCards()]. *)
Definition cards_played (p c : Z) (s : State) : State :=
  {| playerCards := filter (fun x => negb (x =? p)) (playerCards s);
     cpuCards := filter (fun x => negb (x =? c)) (cpuCards s);
     playerUsedCards := Js.push p (playerUsedCards s);
     cpuUsedCards := Js.push c (cpuUsedCards s);
     currentTurn := currentTurn s;
     isPlayerTurn := isPlayerTurn s;
     playerSelectedCard := playerSelectedCard s;
     cpuSelectedCard := Some c;
     lastPlayerCard := playerSelectedCard s;
     lastCpuCard := Some c;
     lastRoundResult := lastRoundResult s;
     playerScore := playerScore s;
     cpuScore := cpuScore s;
     highScore := highScore s;
     gamePhase := reveal;
     isLocked := isLocked s |}.

(** What [nextTurn()] writes, after it has changed the state. *)
Definition nextTurn_dom (s : State) (dom : Dom.t) : Dom.t :=
  let s' := nextTurn s in
  set_resultDisplay "Select a card and click Confirm!" ["result-display"%string]
    (renderCards s' (updateConfirmButton s' (updateTurnDisplay s' dom))).

(** What [checkAndSaveHighScore()] writes. *)
Definition checkAndSaveHighScore_dom (s : State) (dom : Dom.t) : Dom.t :=
  let currentScore := playerScore s in
  let currentBest := highScore s in
  if match currentBest with
     | None => true
     | Some best => currentScore >? best
     end
  then updateScoreDisplays (set_highScore (Some currentScore) s) dom
  else dom.

(** What [handleGameComplete()] writes (the modal apart). *)
Definition handleGameComplete_dom (s : State) (dom : Dom.t) : Dom.t :=
  checkAndSaveHighScore_dom (set_isLocked true (set_gamePhase complete s)) dom.

Section Page.

Variable random : nat -> Q.
Context {Store : Type} {service : GameDataService Store}.

(** What the segment of [handleConfirm()] after the first delay writes. *)
Definition handleConfirm_afterThinking_dom (s : State) (k : nat) (dom : Dom.t)
  : Dom.t :=
  match fst (cpuSelectCard random s k), playerSelectedCard s with
  | Js.Num c, Some p => revealCards_dom (cards_played p c s) dom
  | _, _ => dom
  end.

(** The page after the event loop has run [e] in configuration [c]. *)
Definition exec_dom (e : Event) (c : @Config Store) (dom : Dom.t) : Dom.t :=
  match e with
  | CardClick index =>
      if (index <? 9)%nat then handleCardClick_dom index (st c) dom else dom
  | ConfirmClick => handleConfirm_dom (st c) dom
  | TimerFires k =>
      match nth_error (pending c) k with
      | Some AfterThinking =>
          handleConfirm_afterThinking_dom (st c) (draws c) dom
      | Some AfterReveal =>
          if currentTurn (st c) >=? 9 then handleGameComplete_dom (st c) dom
          else nextTurn_dom (st c) dom
      | _ => dom
      end
  end.

(** The configurations of one match together with the page. *)
Inductive page_reachable : Config -> Dom.t -> Prop :=
| page_start : forall s0 d n dom0,
    page_reachable (match_start s0 d n) (startGame_dom s0 dom0)
| page_step : forall e c c' dom,
    page_reachable c dom -> exec random e c = Some c' ->
    page_reachable c' (exec_dom e c dom).

End Page.

(** A player card node shows the state. *)
Definition player_card_synced (s : State) (index : nat) (el : Dom.Element)
  : Prop :=
  let v := Z.of_nat index + 1 in
  Dom.dataset_value el = Some (Js.show v) /\
  Dom.textContent el = Js.show v /\
  (In "used"%string (Dom.classList el) <-> In v (playerUsedCards s)) /\
  (In "selected"%string (Dom.classList el) <-> playerSelectedCard s = Some v) /\
  (In "red"%string (Dom.classList el) <-> Z.odd v = true) /\
  (In "black"%string (Dom.classList el) <-> Z.odd v = false).

(** A CPU card node shows the state: face down until the card is used. *)
Definition cpu_card_synced (s : State) (index : nat) (el : Dom.Element)
  : Prop :=
  let v := Z.of_nat index + 1 in
  Dom.dataset_value el = Some (Js.show v) /\
  (In v (cpuUsedCards s) ->
   Dom.textContent el = Js.show v /\
   In "used"%string (Dom.classList el) /\
   (In "red"%string (Dom.classList el) <-> Z.odd v = true) /\
   (In "black"%string (Dom.classList el) <-> Z.odd v = false)) /\
  (~ In v (cpuUsedCards s) ->
   Dom.textContent el = "?"%string /\
   ~ In "used"%string (Dom.classList el) /\
   ~ In "red"%string (Dom.classList el) /\
   ~ In "black"%string (Dom.classList el)).

(** The text of the turn display for a state. *)
Definition turn_text (s : State) : string :=
  ("Turn " ++ Js.show (currentTurn s) ++ "/9 - "
   ++ if isPlayerTurn s then "Your turn" else "CPU's turn")%string.

(** The result display shows the stage of the turn. *)
Definition result_synced (s : State) (el : Dom.Element) : Prop :=
  match gamePhase s, isLocked s with
  | selection, false =>
      Dom.textContent el = "Select a card and click Confirm!"%string /\
      Dom.classList el = ["result-display"%string]
  | selection, true =>
      Dom.textContent el = "CPU is thinking..."%string /\
      Dom.classList el = ["result-display"%string]
  | _, _ =>
      exists p c,
        lastPlayerCard s = Some p /\ lastCpuCard s = Some c /\
        lastRoundResult s = Some (resolveRound p c) /\
        Dom.textContent el = message (resolveRound p c) /\
        Dom.classList el
        = ["result-display"%string; winner_name (winner (resolveRound p c))]
  end.

(** The page shows the state. *)
Record synced (s : State) (dom : Dom.t) : Prop := {
  sync_player : forall index el,
    nth_error (Dom.playerCardElements dom) index = Some el ->
    player_card_synced s index el;
  sync_cpu : forall index el,
    nth_error (Dom.cpuCardElements dom) index = Some el ->
    cpu_card_synced s index el;
  sync_confirm : forall el,
    Dom.confirmButton dom = Some el ->
    Dom.disabled el
    = (match playerSelectedCard s with None => true | Some _ => false end
       || isLocked s || negb (Phase_eqb (gamePhase s) selection));
  sync_playerScore : forall el,
    Dom.playerScoreDisplay dom = Some el ->
    Dom.textContent el = Js.show (playerScore s);
  sync_cpuScore : forall el,
    Dom.cpuScoreDisplay dom = Some el ->
    Dom.textContent el = Js.show (cpuScore s);
  sync_highScore : forall el,
    Dom.highScoreDisplay dom = Some el ->
    Dom.textContent el = match highScore s with
                         | Some best => Js.show best
                         | None => "--"%string
                         end;
  sync_turn : forall el,
    Dom.turnDisplay dom = Some el -> Dom.textContent el = turn_text s;
  sync_result : forall el,
    Dom.resultDisplay dom = Some el -> result_synced s el
}.

Section PageRun.

Variable random : nat -> Q.
Context {Store : Type} {service : GameDataService Store}.

(** [run] with the page carried along. *)
Fixpoint run_page (es : list Event) (c : @Config Store) (dom : Dom.t)
  : option (Config * Dom.t) :=
  match es with
  | [] => Some (c, dom)
  | e :: es' =>
      match exec random e c with
      | Some c' => run_page es' c' (exec_dom random e c dom)
      | None => None
      end
  end.

End PageRun.

(** A page with nine card nodes for each side and every display. *)
Definition blank_element : Dom.Element :=
  {| Dom.dataset_value := None;
     Dom.textContent := "";
     Dom.classList := ["nine-card"%string];
     Dom.disabled := false |}.

Definition blank_page : Dom.t :=
  {| Dom.playerCardElements := repeat blank_element 9;
     Dom.cpuCardElements := repeat blank_element 9;
     Dom.confirmButton := Some blank_element;
     Dom.playerScoreDisplay := Some blank_element;
     Dom.cpuScoreDisplay := Some blank_element;
     Dom.highScoreDisplay := Some blank_element;
     Dom.turnDisplay := Some blank_element;
     Dom.resultDisplay := Some blank_element |}.

(** The page of [fresh_match]. *)
Definition fresh_page : Dom.t := startGame_dom constructor_state blank_page.

(** The page after the events [es] of a match that starts on [blank_page]. *)
Definition page_after (random : nat -> Q) (es : list Event) : Dom.t :=
  match run_page (service := cell_service) random es fresh_match fresh_page with
  | Some (_, dom) => dom
  | None => fresh_page
  end.

Definition card_pending_page : Dom.t :=
  Eval vm_compute in page_after tenths [CardClick 4].

Definition three_played_page : Dom.t :=
  Eval vm_compute in page_after tenths (play_turn 2).

Definition last_reveal_page : Dom.t :=
  Eval vm_compute in page_after tenths (removelast descending_match).


(* ------------------------------------------------------------------ *)
(** ** [src/js/utils/helpers.js] *)
(* ------------------------------------------------------------------ *)

Module Helpers.





Section WithRandom.

Variable random : nat -> Q.



(** [getRandomInt(min, max)]; each operation rounds its result. *)
Definition getRandomInt (min max : Q) : Rand Q :=
  let min := inject_Z (Qceiling min) in
  let max := inject_Z (Qfloor max) in
  r <- Math_random random ;;
  ret (Double.add
         (inject_Z (Qfloor (Double.mul r (Double.add (Double.sub max min) 1))))
         min).

End WithRandom.

End Helpers.

(** What [Math.random()] promises: a number that is at least 0 and below 1. *)
Definition double_source (random : nat -> Q) : Prop :=
  forall k, Double.representable (random k) /\ (0 <= random k)%Q /\ (random k < 1)%Q.

(** A random source that cycles through 0, 1/8, ..., 7/8. *)
Definition eighths : nat -> Q := fun k => (Z.of_nat (k mod 8) # 8)%Q.

(* ------------------------------------------------------------------ *)
(** ** The controller on the page: New Game, [null] cards, rounded draws *)
(* ------------------------------------------------------------------ *)

(** The numbers that scores and cards can come to be: integers (small
    ones, on which the arithmetic of the engine is exact), the two
    infinities and [NaN]. *)
Module JsNumber.

Inductive t : Type :=
| Int (z : Z)
| NegInfinity
| PosInfinity
| NaN.

(** [a + b] *)
Definition add (a b : t) : t :=
  match a, b with
  | Int x, Int y => Int (x + y)
  | NaN, _ | _, NaN => NaN
  | NegInfinity, PosInfinity | PosInfinity, NegInfinity => NaN
  | NegInfinity, _ | _, NegInfinity => NegInfinity
  | PosInfinity, _ | _, PosInfinity => PosInfinity
  end.

(** [-a] *)
Definition opp (a : t) : t :=
  match a with
  | Int x => Int (- x)
  | NegInfinity => PosInfinity
  | PosInfinity => NegInfinity
  | NaN => NaN
  end.

(** [a - b] *)
Definition sub (a b : t) : t := add a (opp b).

(** [a < b]: false as soon as one side is [NaN]. *)
Definition ltb (a b : t) : bool :=
  match a, b with
  | Int x, Int y => x <? y
  | NaN, _ | _, NaN => false
  | NegInfinity, NegInfinity => false
  | NegInfinity, _ => true
  | _, NegInfinity => false
  | PosInfinity, _ => false
  | Int _, PosInfinity => true
  end.

(** [a > b] *)
Definition gtb (a b : t) : bool := ltb b a.

(** [a <= b] *)
Definition leb (a b : t) : bool :=
  match a, b with
  | Int x, Int y => x <=? y
  | NaN, _ | _, NaN => false
  | NegInfinity, _ => true
  | _, PosInfinity => true
  | _, NegInfinity => false
  | PosInfinity, _ => false
  end.

(** A number inside a template literal. *)
Definition show (a : t) : string :=
  match a with
  | Int z => Js.show z
  | NegInfinity => "-Infinity"%string
  | PosInfinity => "Infinity"%string
  | NaN => "NaN"%string
  end.

End JsNumber.

(** The New Game button calls [resetGame()] whenever it is clicked, also
    while [handleConfirm] or the callback of [handleGameComplete] is
    suspended: no timer is cancelled, and the suspended computation resumes
    on the state of the new match.  There [playerSelectedCard] can be
    [null] when it is pushed on [playerUsedCards] and handed to
    [resolveRound], and [cpuSelectCard()] can be called with no card left
    and return [undefined] or [-Infinity].  This module embeds the
    controller with that button, with fields and arrays that hold what the
    code puts there, and with the arithmetic on the values of
    [Math.random()] rounded as the engine rounds it. *)
Module Full.

(** What the player's card fields hold: a card or [null] ([None]).  What the
    CPU's card fields hold: [null] ([None]) or what [cpuSelectCard()]
    returned. *)
Definition PlayerCard : Type := option Z.
Definition CpuCard : Type := option Js.value.

(** [ToNumber]: [null] converts to 0 and [undefined] to [NaN]. *)
Definition playerNumber (v : PlayerCard) : JsNumber.t :=
  match v with
  | Some n => JsNumber.Int n
  | None => JsNumber.Int 0
  end.

Definition cpuNumber (v : CpuCard) : JsNumber.t :=
  match v with
  | Some (Js.Num n) => JsNumber.Int n
  | Some Js.Undefined => JsNumber.NaN
  | Some Js.NegInfinity => JsNumber.NegInfinity
  | None => JsNumber.Int 0
  end.

(** A card field inside a template literal. *)
Definition showPlayer (v : PlayerCard) : string :=
  match v with
  | Some n => Js.show n
  | None => "null"%string
  end.

Definition showCpu (v : CpuCard) : string :=
  match v with
  | Some (Js.Num n) => Js.show n
  | Some Js.Undefined => "undefined"%string
  | Some Js.NegInfinity => "-Infinity"%string
  | None => "null"%string
  end.

(** [c !== v] for a card [c] of [cpuCards] and what [cpuSelectCard()]
    returned. *)
Definition differs (v : Js.value) (c : Z) : bool :=
  match v with
  | Js.Num n => negb (c =? n)
  | _ => true
  end.

(** The object returned by [resolveRound]. *)
Record RoundResult : Type := mkRoundResult {
  winner : Winner;
  playerPoints : JsNumber.t;
  cpuPoints : JsNumber.t;
  message : string
}.

(** [array.includes(v)] for a number [v] and an array that may hold
    [null]. *)
Definition includes (v : Z) (l : list (option Z)) : bool :=
  existsb (fun u => selected_is u v) l.

(** [this.state], without the DOM cache; [None] is [null]. *)
Record State : Type := mkState {
  playerCards : list Z;
  cpuCards : list Z;
  playerUsedCards : list PlayerCard;
  cpuUsedCards : list Js.value;
  currentTurn : Z;
  isPlayerTurn : bool;
  playerSelectedCard : PlayerCard;
  cpuSelectedCard : CpuCard;
  lastPlayerCard : PlayerCard;
  lastCpuCard : CpuCard;
  lastRoundResult : option RoundResult;
  playerScore : JsNumber.t;
  cpuScore : JsNumber.t;
  highScore : option JsNumber.t;
  gamePhase : Phase;
  isLocked : bool
}.

(** The state built by the constructor. *)
Definition constructor_state : State :=
  {| playerCards := [1; 2; 3; 4; 5; 6; 7; 8; 9];
     cpuCards := [1; 2; 3; 4; 5; 6; 7; 8; 9];
     playerUsedCards := [];
     cpuUsedCards := [];
     currentTurn := 1;
     isPlayerTurn := true;
     playerSelectedCard := None;
     cpuSelectedCard := None;
     lastPlayerCard := None;
     lastCpuCard := None;
     lastRoundResult := None;
     playerScore := JsNumber.Int 0;
     cpuScore := JsNumber.Int 0;
     highScore := None;
     gamePhase := selection;
     isLocked := false |}.

(** [startGame()]: every field but [highScore] is reset. *)
Definition startGame (s : State) : State :=
  {| playerCards := [1; 2; 3; 4; 5; 6; 7; 8; 9];
     cpuCards := [1; 2; 3; 4; 5; 6; 7; 8; 9];
     playerUsedCards := [];
     cpuUsedCards := [];
     currentTurn := 1;
     isPlayerTurn := true;
     playerSelectedCard := None;
     cpuSelectedCard := None;
     lastPlayerCard := None;
     lastCpuCard := None;
     lastRoundResult := None;
     playerScore := JsNumber.Int 0;
     cpuScore := JsNumber.Int 0;
     highScore := highScore s;
     gamePhase := selection;
     isLocked := false |}.

(** [resetGame()] *)
Definition resetGame (s : State) : State := startGame s.

(** [resolveRound(playerCard, cpuCard)]: [+] and [>] convert their
    operands to numbers, the template literals print them as they are. *)
Definition resolveRound (playerCard : PlayerCard) (cpuCard : CpuCard)
  : RoundResult :=
  let totalPoints := JsNumber.add (playerNumber playerCard) (cpuNumber cpuCard) in
  if JsNumber.gtb (playerNumber playerCard) (cpuNumber cpuCard) then
    {| winner := player;
       playerPoints := totalPoints;
       cpuPoints := JsNumber.Int 0;
       message := ("You win " ++ JsNumber.show totalPoints ++ " points! (Your "
                   ++ showPlayer playerCard ++ " > CPU " ++ showCpu cpuCard
                   ++ ")")%string |}
  else if JsNumber.gtb (cpuNumber cpuCard) (playerNumber playerCard) then
    {| winner := cpu;
       playerPoints := JsNumber.Int 0;
       cpuPoints := totalPoints;
       message := ("CPU wins " ++ JsNumber.show totalPoints ++ " points! (CPU "
                   ++ showCpu cpuCard ++ " > Your " ++ showPlayer playerCard
                   ++ ")")%string |}
  else
    {| winner := tie;
       playerPoints := JsNumber.Int 0;
       cpuPoints := JsNumber.Int 0;
       message := ("Tie! No points awarded. (" ++ showPlayer playerCard ++ " = "
                   ++ showCpu cpuCard ++ ")")%string |}.

Section Strategy.

(** [random k] is what the [k]-th call of [Math.random()] returns. *)
Variable random : nat -> Q.

(** [randomChoice(array)]: the product is rounded before [Math.floor]. *)
Definition randomChoice (array : list Z) : Rand Js.value :=
  r <- Math_random random ;;
  ret (Js.get array
         (Qfloor (Double.mul r (inject_Z (Z.of_nat (List.length array)))))).

(** [cpuSelectCard()]; in [middleCards.length > 0 && Math.random() < 0.6]
    the draw is made only when the left operand holds, and it is compared
    with the number that the literal [0.6] denotes. *)
Definition cpuSelectCard (s : State) : Rand Js.value :=
  let availableCards := cpuCards s in
  let playerScore := playerScore s in
  let cpuScore := cpuScore s in
  let remainingTurns := 10 - currentTurn s in
  let scoreDiff := JsNumber.sub cpuScore playerScore in
  if JsNumber.ltb scoreDiff (JsNumber.Int (-15))
     && (Z.of_nat (List.length availableCards) >? 3) then
    let topCards := Js.slice (-3) None availableCards in
    randomChoice topCards
  else if JsNumber.gtb scoreDiff (JsNumber.Int 15)
          && (Z.of_nat (List.length availableCards) >? 3) then
    let bottomCards := Js.slice 0 (Some 3) availableCards in
    randomChoice bottomCards
  else if (remainingTurns <=? 3) && JsNumber.leb scoreDiff (JsNumber.Int 0) then
    ret (Js.Math_max availableCards)
  else
    let middleCards := filter (fun c => (c >=? 4) && (c <=? 6)) availableCards in
    if Z.of_nat (List.length middleCards) >? 0 then
      r <- Math_random random ;;
      if Js.ltb r (Double.literal (6 # 10)) then randomChoice middleCards
      else randomChoice availableCards
    else randomChoice availableCards.

End Strategy.

Definition set_playerSelectedCard (v : PlayerCard) (s : State) : State :=
  {| playerCards := playerCards s;
     cpuCards := cpuCards s;
     playerUsedCards := playerUsedCards s;
     cpuUsedCards := cpuUsedCards s;
     currentTurn := currentTurn s;
     isPlayerTurn := isPlayerTurn s;
     playerSelectedCard := v;
     cpuSelectedCard := cpuSelectedCard s;
     lastPlayerCard := lastPlayerCard s;
     lastCpuCard := lastCpuCard s;
     lastRoundResult := lastRoundResult s;
     playerScore := playerScore s;
     cpuScore := cpuScore s;
     highScore := highScore s;
     gamePhase := gamePhase s;
     isLocked := isLocked s |}.

Definition set_isLocked (b : bool) (s : State) : State :=
  {| playerCards := playerCards s;
     cpuCards := cpuCards s;
     playerUsedCards := playerUsedCards s;
     cpuUsedCards := cpuUsedCards s;
     currentTurn := currentTurn s;
     isPlayerTurn := isPlayerTurn s;
     playerSelectedCard := playerSelectedCard s;
     cpuSelectedCard := cpuSelectedCard s;
     lastPlayerCard := lastPlayerCard s;
     lastCpuCard := lastCpuCard s;
     lastRoundResult := lastRoundResult s;
     playerScore := playerScore s;
     cpuScore := cpuScore s;
     highScore := highScore s;
     gamePhase := gamePhase s;
     isLocked := b |}.

Definition set_highScore (v : option JsNumber.t) (s : State) : State :=
  {| playerCards := playerCards s;
     cpuCards := cpuCards s;
     playerUsedCards := playerUsedCards s;
     cpuUsedCards := cpuUsedCards s;
     currentTurn := currentTurn s;
     isPlayerTurn := isPlayerTurn s;
     playerSelectedCard := playerSelectedCard s;
     cpuSelectedCard := cpuSelectedCard s;
     lastPlayerCard := lastPlayerCard s;
     lastCpuCard := lastCpuCard s;
     lastRoundResult := lastRoundResult s;
     playerScore := playerScore s;
     cpuScore := cpuScore s;
     highScore := v;
     gamePhase := gamePhase s;
     isLocked := isLocked s |}.

Definition set_gamePhase (p : Phase) (s : State) : State :=
  {| playerCards := playerCards s;
     cpuCards := cpuCards s;
     playerUsedCards := playerUsedCards s;
     cpuUsedCards := cpuUsedCards s;
     currentTurn := currentTurn s;
     isPlayerTurn := isPlayerTurn s;
     playerSelectedCard := playerSelectedCard s;
     cpuSelectedCard := cpuSelectedCard s;
     lastPlayerCard := lastPlayerCard s;
     lastCpuCard := lastCpuCard s;
     lastRoundResult := lastRoundResult s;
     playerScore := playerScore s;
     cpuScore := cpuScore s;
     highScore := highScore s;
     gamePhase := p;
     isLocked := isLocked s |}.

(** [handleCardClick(index)]; every path ends in a plain [return]. *)
Definition handleCardClick (index : nat) (s : State) : State :=
  if isLocked s then s
  else if negb (Phase_eqb (gamePhase s) selection) then s
  else
    let cardValue := Z.of_nat index + 1 in
    if includes cardValue (playerUsedCards s) then s
    else if selected_is (playerSelectedCard s) cardValue
         then set_playerSelectedCard None s
         else set_playerSelectedCard (Some cardValue) s.

(** [handleConfirm()] up to [await this.sleep(1000)]: the state it leaves,
    and whether the call is now suspended. *)
Definition handleConfirm (s : State) : State * option Cont :=
  if isLocked s then (s, None)
  else match playerSelectedCard s with
       | None => (s, None)
       | Some _ =>
           if negb (Phase_eqb (gamePhase s) selection) then (s, None)
           else (set_isLocked true s, Some AfterThinking)
       end.

(** The assignments of [handleConfirm()] between its two delays, when
    [cpuSelectCard()] has returned [v]: whatever [playerSelectedCard]
    holds by now, a card or [null], is pushed on [playerUsedCards] and
    filtered out of [playerCards], and [v], a card or not, is pushed on
    [cpuUsedCards] and filtered out of [cpuCards]. *)
Definition playCards (v : Js.value) (s : State) : State :=
  {| playerCards :=
       filter (fun c => negb (selected_is (playerSelectedCard s) c)) (playerCards s);
     cpuCards := filter (differs v) (cpuCards s);
     playerUsedCards := Js.push (playerSelectedCard s) (playerUsedCards s);
     cpuUsedCards := Js.push v (cpuUsedCards s);
     currentTurn := currentTurn s;
     isPlayerTurn := isPlayerTurn s;
     playerSelectedCard := playerSelectedCard s;
     cpuSelectedCard := Some v;
     lastPlayerCard := playerSelectedCard s;
     lastCpuCard := Some v;
     lastRoundResult := lastRoundResult s;
     playerScore := playerScore s;
     cpuScore := cpuScore s;
     highScore := highScore s;
     gamePhase := reveal;
     isLocked := isLocked s |}.

(** [revealCards()] up to [await this.sleep(2000)]. *)
Definition revealCards (s : State) : State :=
  let playerCard := lastPlayerCard s in
  let cpuCard := lastCpuCard s in
  let result := resolveRound playerCard cpuCard in
  {| playerCards := playerCards s;
     cpuCards := cpuCards s;
     playerUsedCards := playerUsedCards s;
     cpuUsedCards := cpuUsedCards s;
     currentTurn := currentTurn s;
     isPlayerTurn := isPlayerTurn s;
     playerSelectedCard := playerSelectedCard s;
     cpuSelectedCard := cpuSelectedCard s;
     lastPlayerCard := lastPlayerCard s;
     lastCpuCard := lastCpuCard s;
     lastRoundResult := Some result;
     playerScore := JsNumber.add (playerScore s) (playerPoints result);
     cpuScore := JsNumber.add (cpuScore s) (cpuPoints result);
     highScore := highScore s;
     gamePhase := gamePhase s;
     isLocked := isLocked s |}.

(** [nextTurn()] *)
Definition nextTurn (s : State) : State :=
  let turn := currentTurn s + 1 in
  {| playerCards := playerCards s;
     cpuCards := cpuCards s;
     playerUsedCards := playerUsedCards s;
     cpuUsedCards := cpuUsedCards s;
     currentTurn := turn;
     isPlayerTurn := (Z.rem turn 2 =? 1);
     playerSelectedCard := None;
     cpuSelectedCard := None;
     lastPlayerCard := lastPlayerCard s;
     lastCpuCard := lastCpuCard s;
     lastRoundResult := lastRoundResult s;
     playerScore := playerScore s;
     cpuScore := cpuScore s;
     highScore := highScore s;
     gamePhase := selection;
     isLocked := false |}.

(** The persistence capability handed to the constructor: the two methods
    that the controller calls, on a store that holds a number or nothing. *)
Class GameDataService (Store : Type) : Type := {
  loadNineGameHighScore : Store -> option JsNumber.t;
  saveNineGameScore : JsNumber.t -> Store -> bool * Store
}.

(** The argument of [showResultModal]. *)
Module ResultModal.
Record t : Type := make {
  winner : Winner;
  message : string;
  playerScore : JsNumber.t;
  cpuScore : JsNumber.t;
  highScore : option JsNumber.t;
  isNewRecord : bool
}.
End ResultModal.

(** A click on the [index]-th player card, on the confirm button or on
    the New Game button (the one of the page or Play Again of the result
    modal), or the [k]-th pending timer firing. *)
Inductive Event : Type :=
| CardClick (index : nat)
| ConfirmClick
| NewGameClick
| TimerFires (k : nat).

Section Machine.

Variable random : nat -> Q.
Context {Store : Type} {service : GameDataService Store}.

(** The controller together with what surrounds it. *)
Record Config : Type := mkConfig {
  st : State;                       (* this.state *)
  store : Store;                    (* behind this.gameDataService *)
  saveCalls : list JsNumber.t;      (* arguments of saveNineGameScore so far *)
  pending : list Cont;              (* suspended computations *)
  draws : nat;                      (* calls of Math.random so far *)
  shown : list ResultModal.t        (* calls of showResultModal so far *)
}.

(** [handleConfirm()] from the end of the first delay to the delay inside
    [revealCards()]. *)
Definition handleConfirm_afterThinking (s : State) : Rand State :=
  v <- cpuSelectCard random s ;;
  ret (revealCards (playCards v s)).

(** [checkAndSaveHighScore()]: its return value, the state and the store
    it leaves, and the arguments of the writes it made.  What
    [saveNineGameScore] returns is dropped. *)
Definition checkAndSaveHighScore (s : State) (d : Store)
  : bool * State * Store * list JsNumber.t :=
  let currentScore := playerScore s in
  let currentBest := highScore s in
  if match currentBest with
     | None => true
     | Some best => JsNumber.gtb currentScore best
     end
  then
    let (_, d') := saveNineGameScore currentScore d in
    (true, set_highScore (Some currentScore) s, d', [currentScore])
  else (false, s, d, []).

(** [handleGameComplete()]: the last component is the callback handed to
    [setTimeout]. *)
Definition handleGameComplete (s : State) (d : Store)
  : State * Store * list JsNumber.t * Cont :=
  let s1 := set_isLocked true (set_gamePhase complete s) in
  let '(winner, message) :=
    if JsNumber.gtb (playerScore s1) (cpuScore s1) then (player, "You Win!"%string)
    else if JsNumber.gtb (cpuScore s1) (playerScore s1)
         then (cpu, "CPU Wins!"%string)
    else (tie, "It's a Tie!"%string) in
  let '(isNewRecord, s2, d', calls) := checkAndSaveHighScore s1 d in
  (s2, d', calls, ShowResult winner message isNewRecord).

(** The callback of [handleGameComplete] reads the scores when it runs. *)
Definition showResult (w : Winner) (msg : string) (isNewRecord : bool)
    (s : State) : ResultModal.t :=
  {| ResultModal.winner := w;
     ResultModal.message := msg;
     ResultModal.playerScore := playerScore s;
     ResultModal.cpuScore := cpuScore s;
     ResultModal.highScore := highScore s;
     ResultModal.isNewRecord := isNewRecord |}.

(** One turn of the event loop.  A click on New Game resets the state and
    leaves the suspended computations where they are; the button carries
    two listeners that call [resetGame()], the one of
    [setupCommonListeners] and the one of [setupGameListeners], and the
    second call changes nothing ([resetGame_twice]).  [None]: the event
    cannot happen (no such card element, no such timer). *)
Definition exec (e : Event) (c : Config) : option Config :=
  match e with
  | CardClick index =>
      if (index <? 9)%nat then
        Some (mkConfig (handleCardClick index (st c)) (store c) (saveCalls c)
                (pending c) (draws c) (shown c))
      else None
  | ConfirmClick =>
      let '(s', suspended) := handleConfirm (st c) in
      Some (mkConfig s' (store c) (saveCalls c)
              (pending c ++ match suspended with
                            | Some k => [k]
                            | None => []
                            end)
              (draws c) (shown c))
  | NewGameClick =>
      Some (mkConfig (resetGame (st c)) (store c) (saveCalls c)
              (pending c) (draws c) (shown c))
  | TimerFires k =>
      match nth_error (pending c) k with
      | None => None
      | Some AfterThinking =>
          let '(s', n) := handleConfirm_afterThinking (st c) (draws c) in
          Some (mkConfig s' (store c) (saveCalls c)
                  (remove_nth k (pending c) ++ [AfterReveal]) n (shown c))
      | Some AfterReveal =>
          if currentTurn (st c) >=? 9 then
            let '(s', d', calls, callback) := handleGameComplete (st c) (store c) in
            Some (mkConfig s' d' (saveCalls c ++ calls)
                    (remove_nth k (pending c) ++ [callback]) (draws c) (shown c))
          else
            Some (mkConfig (nextTurn (st c)) (store c) (saveCalls c)
                    (remove_nth k (pending c)) (draws c) (shown c))
      | Some (ShowResult w msg isNewRecord) =>
          Some (mkConfig (st c) (store c) (saveCalls c)
                  (remove_nth k (pending c)) (draws c)
                  (shown c ++ [showResult w msg isNewRecord (st c)]))
      end
  end.

Fixpoint run (es : list Event) (c : Config) : option Config :=
  match es with
  | [] => Some c
  | e :: es' =>
      match exec e c with
      | Some c' => run es' c'
      | None => None
      end
  end.

(** [init()]: the stored high score is loaded, then [startGame()]. *)
Definition init (d : Store) : State :=
  startGame (set_highScore (loadNineGameHighScore d) constructor_state).

(** The page has just been loaded on the store [d]: [init()] has run and
    nothing is suspended. *)
Definition loaded (d : Store) (n : nat) : Config :=
  mkConfig (init d) d [] [] n [].

(** The configurations of a session: any number of matches, New Game
    clicked at any moment. *)
Inductive reachable : Config -> Prop :=
| reach_loaded : forall d n, reachable (loaded d n)
| reach_step : forall e c c',
    reachable c -> exec e c = Some c' -> reachable c'.

End Machine.

(** A one-cell store whose writes succeed, and one whose writes fail. *)
Definition cell_service : GameDataService (option JsNumber.t) :=
  {| loadNineGameHighScore := fun d => d;
     saveNineGameScore := fun v _ => (true, Some v) |}.

Definition failing_service : GameDataService (option JsNumber.t) :=
  {| loadNineGameHighScore := fun d => d;
     saveNineGameScore := fun _ d => (false, d) |}.

(** The four events of one turn in which the player plays card [index + 1]. *)
Definition play_turn (index : nat) : list Event :=
  [CardClick index; ConfirmClick; TimerFires 0; TimerFires 0].

(** A whole match in which the player plays 9, 8, ..., 1, and one in which
    the player plays 1, 2, ..., 9. *)
Definition descending_match : list Event :=
  flat_map play_turn [8; 7; 6; 5; 4; 3; 2; 1; 0]%nat.

Definition ascending_match : list Event :=
  flat_map play_turn [0; 1; 2; 3; 4; 5; 6; 7; 8]%nat.

(** [run] from the loaded page on a one-cell store with nothing stored,
    falling back on the loaded page. *)
Definition after (service : GameDataService (option JsNumber.t))
    (random : nat -> Q) (es : list Event)
  : Config (Store := option JsNumber.t) :=
  match run (service := service) random es (loaded (service := service) None 0) with
  | Some c => c
  | None => loaded (service := service) None 0
  end.

End Full.

(** The strategy of section 4.3 of the specification, in its words, for
    draws that go through the arithmetic of the engine.  Conditions on
    scores, turn number and cards are exact; a pick "uniformly at random"
    and the probability 0.6 are met up to the rounding of one product and
    of one literal. *)
Module Rules.

(** How far one rounding can move [x]. *)
Definition slack (x : Q) : Q := (x * 2 ^ (-53) + 2 ^ (-1075))%Q.

(** Picking uniformly from [X] with the draw [r] of a source that is uniform
    on the unit interval: the interval is cut into [|X|] pieces of equal
    length and the piece that holds [r] names the element.  Where a piece
    ends is decided on the rounded product [r * |X|]. *)
Definition uniform_pick (X : list Z) (r : Q) (c : Z) : Prop :=
  exists i : nat,
    nth_error X i = Some c /\
    let x := (r * inject_Z (Z.of_nat (List.length X)))%Q in
    (inject_Z (Z.of_nat i) - slack x <= x)%Q /\
    (x < inject_Z (Z.of_nat i + 1) + slack x)%Q.

(** "With probability 0.6": the event that the draw falls below 0.6, and
    its complement; the literal [0.6] denotes a number less than 2^-54
    below 6/10. *)
Definition below_0_6 (r : Q) : Prop := (r < 6 # 10)%Q.

Definition not_below_0_6 (r : Q) : Prop := ((6 # 10) - 2 ^ (-54) <= r)%Q.

(** [chooseCard available scoreDiff turnNumber ds c]: with the draws [ds]
    taken from the random source, in this order, the strategy picks [c].
    Each rule applies only when the rules before it do not. *)
Inductive chooseCard (available : list Z) (scoreDiff turnNumber : Z)
  : list Q -> Z -> Prop :=
| desperation : forall r c,
    Spec.desperation available scoreDiff ->
    uniform_pick (Spec.topN 3 available) r c ->
    chooseCard available scoreDiff turnNumber [r] c
| preservation : forall r c,
    ~ Spec.desperation available scoreDiff ->
    Spec.preservation available scoreDiff ->
    uniform_pick (Spec.bottomN 3 available) r c ->
    chooseCard available scoreDiff turnNumber [r] c
| endgame : forall c,
    ~ Spec.desperation available scoreDiff ->
    ~ Spec.preservation available scoreDiff ->
    Spec.endgame scoreDiff turnNumber ->
    Spec.highest available c ->
    chooseCard available scoreDiff turnNumber [] c
| balanced : forall r1 r2 c,
    ~ Spec.desperation available scoreDiff ->
    ~ Spec.preservation available scoreDiff ->
    ~ Spec.endgame scoreDiff turnNumber ->
    Spec.mid available <> [] ->
    below_0_6 r1 ->
    uniform_pick (Spec.mid available) r2 c ->
    chooseCard available scoreDiff turnNumber [r1; r2] c
| fallback_after_draw : forall r1 r2 c,
    ~ Spec.desperation available scoreDiff ->
    ~ Spec.preservation available scoreDiff ->
    ~ Spec.endgame scoreDiff turnNumber ->
    Spec.mid available <> [] ->
    not_below_0_6 r1 ->
    uniform_pick available r2 c ->
    chooseCard available scoreDiff turnNumber [r1; r2] c
| fallback : forall r c,
    ~ Spec.desperation available scoreDiff ->
    ~ Spec.preservation available scoreDiff ->
    ~ Spec.endgame scoreDiff turnNumber ->
    Spec.mid available = [] ->
    uniform_pick available r c ->
    chooseCard available scoreDiff turnNumber [r] c.

(** "No stored high score exists or the new score strictly exceeds it",
    and the maximum of the prior high score, if any, and the new score, on
    the numbers of the engine. *)
Definition beats_record (newScore : JsNumber.t) (stored : option JsNumber.t)
  : bool :=
  match stored with
  | None => true
  | Some high => JsNumber.ltb high newScore
  end.

Definition max (a b : JsNumber.t) : JsNumber.t :=
  if JsNumber.ltb a b then b else a.

Definition best (stored : option JsNumber.t) (newScore : JsNumber.t)
  : JsNumber.t :=
  match stored with
  | None => newScore
  | Some high => max high newScore
  end.

End Rules.

(** Turn 8, the CPU 20 points behind, cards 2, 3, 7, 8, 9 available. *)
Definition desperate : Full.State :=
  {| Full.playerCards := [1; 2; 3; 4; 5];
     Full.cpuCards := [2; 3; 7; 8; 9];
     Full.playerUsedCards := [Some 9; Some 8; Some 7; Some 6];
     Full.cpuUsedCards := [Js.Num 1; Js.Num 4; Js.Num 5; Js.Num 6];
     Full.currentTurn := 8;
     Full.isPlayerTurn := false;
     Full.playerSelectedCard := Some 1;
     Full.cpuSelectedCard := None;
     Full.lastPlayerCard := None;
     Full.lastCpuCard := None;
     Full.lastRoundResult := None;
     Full.playerScore := JsNumber.Int 20;
     Full.cpuScore := JsNumber.Int 0;
     Full.highScore := None;
     Full.gamePhase := selection;
     Full.isLocked := true |}.

(** Turn 1 with cards 7, 8, 9 left to the CPU and no points scored. *)
Definition three_high_cards : Full.State :=
  {| Full.playerCards := [1; 2; 3; 4; 5; 6; 7; 8; 9];
     Full.cpuCards := [7; 8; 9];
     Full.playerUsedCards := [];
     Full.cpuUsedCards := [];
     Full.currentTurn := 1;
     Full.isPlayerTurn := true;
     Full.playerSelectedCard := Some 1;
     Full.cpuSelectedCard := None;
     Full.lastPlayerCard := None;
     Full.lastCpuCard := None;
     Full.lastRoundResult := None;
     Full.playerScore := JsNumber.Int 0;
     Full.cpuScore := JsNumber.Int 0;
     Full.highScore := None;
     Full.gamePhase := selection;
     Full.isLocked := true |}.

(** The cards of the deck that are not in the player's array of used cards,
    in deck order, and the same for the CPU. *)
Definition left_to_player (used : list Full.PlayerCard) : list Z :=
  filter (fun x => negb (Full.includes x used)) deck.

Definition played_by_cpu (x : Z) (used : list Js.value) : bool :=
  existsb (fun v => negb (Full.differs v x)) used.

Definition left_to_cpu (used : list Js.value) : list Z :=
  filter (fun x => negb (played_by_cpu x used)) deck.

(** Every entry of the CPU's array of used cards is a card. *)
Definition cards_only (used : list Js.value) : Prop :=
  forall v, In v used -> exists n, v = Js.Num n.

(** The rounds played since the last [startGame()], oldest first, as
    [resolveRound] saw them when the CPU's card was a card: a [null] card
    of the player counts 0. *)
Definition playerValue (v : Full.PlayerCard) : Z :=
  match v with
  | Some n => n
  | None => 0
  end.

Definition cpuValue (v : Js.value) : Z :=
  match v with
  | Js.Num n => n
  | _ => 0
  end.

Definition session_rounds (s : Full.State) : list (Z * Z) :=
  combine (map playerValue (Full.playerUsedCards s))
          (map cpuValue (Full.cpuUsedCards s)).

(** What holds of [this.state] throughout a session. *)
Record session_ok (s : Full.State) : Prop := {
  so_turn : 1 <= Full.currentTurn s <= 9;
  so_complete : Full.gamePhase s = complete -> Full.currentTurn s = 9;
  so_lengths :
    List.length (Full.playerUsedCards s) = List.length (Full.cpuUsedCards s);
  so_playerCards : Full.playerCards s = left_to_player (Full.playerUsedCards s);
  so_cpuCards : Full.cpuCards s = left_to_cpu (Full.cpuUsedCards s);
  so_cpuUsed : forall x, In (Js.Num x) (Full.cpuUsedCards s) -> In x deck;
  so_selected : forall p, Full.playerSelectedCard s = Some p -> 1 <= p <= 9;
  so_playerUsed : forall p, In (Some p) (Full.playerUsedCards s) -> 1 <= p <= 9;
  so_scores :
    cards_only (Full.cpuUsedCards s) ->
    Full.playerScore s = JsNumber.Int (player_total (session_rounds s)) /\
    Full.cpuScore s = JsNumber.Int (cpu_total (session_rounds s))
}.

(** A write, once made, is what the next read returns. *)
Definition writes_take_effect {Store : Type}
    (service : Full.GameDataService Store) : Prop :=
  forall (v : JsNumber.t) (d : Store),
    Full.loadNineGameHighScore (snd (Full.saveNineGameScore v d)) = Some v.

(** Card 3 is confirmed, New Game is clicked during the CPU's delay, and
    the delay ends. *)
Definition reset_while_thinking : Full.Config (Store := option JsNumber.t) :=
  Eval vm_compute in
    Full.after Full.cell_service eighths
      [Full.CardClick 2; Full.ConfirmClick; Full.NewGameClick; Full.TimerFires 0].

(** The cards of turn 9 are revealed, and the match is complete. *)
Definition ninth_reveal : Full.Config (Store := option JsNumber.t) :=
  Eval vm_compute in
    Full.after Full.cell_service eighths (removelast Full.descending_match).

Definition ninth_complete : Full.Config (Store := option JsNumber.t) :=
  Eval vm_compute in Full.after Full.cell_service eighths Full.descending_match.

(** Two matches on a store whose writes fail: in the first the player
    plays 1, 2, ..., 9; the result modal is shown and Play Again clicked;
    in the second the player plays 9, 8, ..., 1. *)
Definition two_matches : list Full.Event :=
  Full.ascending_match ++ [Full.TimerFires 0; Full.NewGameClick]
  ++ Full.descending_match.

(** The second match with the cards of its turn 9 revealed, and
    complete. *)
Definition second_reveal : Full.Config (Store := option JsNumber.t) :=
  Eval vm_compute in
    Full.after Full.failing_service eighths (removelast two_matches).

Definition second_complete : Full.Config (Store := option JsNumber.t) :=
  Eval vm_compute in Full.after Full.failing_service eighths two_matches.

(** Card 9 is confirmed, New Game is clicked during the CPU's delay, and
    card 9 is selected and confirmed again before the delay ends: two
    calls of [handleConfirm] are suspended, and both resume. *)
Definition confirmed_twice : list Full.Event :=
  [Full.CardClick 8; Full.ConfirmClick; Full.NewGameClick;
   Full.CardClick 8; Full.ConfirmClick; Full.TimerFires 0; Full.TimerFires 0].

(** From then on, each time one of the two calls ends its turn and unlocks
    the game, the player selects card [index + 1] and confirms before the
    other call has ended its turn; the two calls then play a round each. *)
Definition two_rounds (index : nat) : list Full.Event :=
  [Full.TimerFires 0; Full.CardClick index; Full.ConfirmClick;
   Full.TimerFires 0; Full.CardClick index; Full.ConfirmClick;
   Full.TimerFires 0; Full.TimerFires 0].

(** Ten rounds after one click on New Game: the tenth is played at turn 9
    with no card left to the CPU. *)
Definition ten_rounds : list Full.Event :=
  confirmed_twice ++ two_rounds 7 ++ two_rounds 6 ++ two_rounds 5 ++ two_rounds 4.

Definition tenth_round : Full.Config (Store := option JsNumber.t) :=
  Eval vm_compute in Full.after Full.cell_service eighths ten_rounds.

(* ================================================================== *)
(** * Properties *)
(* ================================================================== *)

(** ** Arrays, [Math.floor] and [Math.max] *)

Lemma slice_last3 (l : list Z) :
  Js.slice (-3) None l = skipn (List.length l - 3) l.
Proof.
  unfold Js.slice, Js.rel_index. cbn [Z.ltb Z.compare].
  replace (Z.to_nat (Z.max (Z.of_nat (List.length l) + -3) 0))
    with (List.length l - 3)%nat by lia.
  apply firstn_all2. rewrite length_skipn. lia.
Qed.

Lemma slice_first3 (l : list Z) :
  Js.slice 0 (Some 3) l = firstn 3 l.
Proof.
  unfold Js.slice, Js.rel_index. cbn [Z.ltb Z.compare skipn Z.to_nat].
  replace (Z.min 0 (Z.of_nat (List.length l))) with 0 by lia.
  cbn [Z.to_nat skipn]. rewrite Z.sub_0_r.
  destruct (Z.le_gt_cases 3 (Z.of_nat (List.length l))) as [H | H].
  - now rewrite Z.min_l by lia.
  - rewrite Z.min_r, Nat2Z.id by lia.
    rewrite !firstn_all2; trivial; lia.
Qed.

Lemma get_Num_nth (l : list Z) (i c : Z) :
  Js.get l i = Js.Num c -> 0 <= i /\ nth_error l (Z.to_nat i) = Some c.
Proof.
  unfold Js.get. destruct (i <? 0) eqn:Hi; [discriminate |].
  destruct (nth_error l (Z.to_nat i)) eqn:Hn; [| discriminate].
  intros [= ->]. split; [lia | reflexivity].
Qed.

Lemma get_Num_In (l : list Z) (i c : Z) : Js.get l i = Js.Num c -> In c l.
Proof.
  intros H. apply get_Num_nth in H as [_ H]. eapply nth_error_In; eauto.
Qed.

Lemma get_in_range (l : list Z) (i : Z) :
  0 <= i < Z.of_nat (List.length l) -> exists c, Js.get l i = Js.Num c.
Proof.
  intros [H0 H1]. unfold Js.get.
  destruct (i <? 0) eqn:Hi; [lia |].
  destruct (nth_error l (Z.to_nat i)) eqn:Hn; [eauto |].
  apply nth_error_None in Hn. lia.
Qed.

Lemma floor_mul_bounds (r : Q) (n i : Z) :
  Js.floor_mul r n = i <->
  (inject_Z i <= r * inject_Z n)%Q /\ (r * inject_Z n < inject_Z (i + 1))%Q.
Proof.
  unfold Js.floor_mul. split.
  - intros <-. split; [apply Qfloor_le | apply Qlt_floor].
  - intros [Hlo Hhi].
    pose proof (Qfloor_le (r * inject_Z n)) as Fle.
    pose proof (Qlt_floor (r * inject_Z n)) as Flt.
    assert (i < Qfloor (r * inject_Z n) + 1) as A.
    { rewrite Zlt_Qlt. eapply Qle_lt_trans; eauto. }
    assert (Qfloor (r * inject_Z n) < i + 1) as B.
    { rewrite Zlt_Qlt. eapply Qle_lt_trans; eauto. }
    lia.
Qed.

Lemma floor_mul_range (r : Q) (n : Z) :
  (0 <= r)%Q -> (r < 1)%Q -> 0 < n -> 0 <= Js.floor_mul r n < n.
Proof.
  intros H0 H1 Hn.
  destruct (proj1 (floor_mul_bounds r n _) eq_refl) as [Hlo Hhi].
  assert (0 < inject_Z n)%Q as Hq
    by (change 0%Q with (inject_Z 0); rewrite <- Zlt_Qlt; exact Hn).
  split.
  - assert (-1 < Js.floor_mul r n + 0) as A; [| lia].
    rewrite Z.add_0_r.
    assert (inject_Z 0 < inject_Z (Js.floor_mul r n + 1))%Q as B.
    { eapply Qle_lt_trans; [| exact Hhi].
      apply Qmult_le_0_compat; [exact H0 | apply Qlt_le_weak, Hq]. }
    rewrite <- Zlt_Qlt in B. lia.
  - rewrite Zlt_Qlt. eapply Qle_lt_trans; [exact Hlo |].
    setoid_replace (inject_Z n) with (1 * inject_Z n)%Q at 2 by ring.
    apply Qmult_lt_compat_r; assumption.
Qed.

Lemma Math_max_from (l : list Z) (a : Z) :
  exists m,
    fold_left (fun acc x => match acc with
                            | Js.Num m => Js.Num (Z.max m x)
                            | _ => Js.Num x
                            end) l (Js.Num a) = Js.Num m /\
    a <= m /\ (forall x, In x l -> x <= m) /\ (m = a \/ In m l).
Proof.
  revert a. induction l as [| y l IH]; intros a; cbn [fold_left].
  - exists a. repeat split; [lia | intros x [] | now left].
  - destruct (IH (Z.max a y)) as (m & E & Ha & Hall & Hin).
    exists m. split; [exact E |]. split; [lia |]. split.
    + intros x [<- | Hx]; [lia | auto].
    + destruct Hin as [-> | Hin]; [| right; now right].
      destruct (Z.max_spec a y) as [[_ ->] | [_ ->]]; [right; now left | now left].
Qed.

Lemma Math_max_spec (l : list Z) :
  l <> [] ->
  exists m, Js.Math_max l = Js.Num m /\ In m l /\ forall x, In x l -> x <= m.
Proof.
  destruct l as [| y l]; [congruence | intros _].
  unfold Js.Math_max. cbn [fold_left].
  destruct (Math_max_from l y) as (m & E & Ha & Hall & Hin).
  exists m. split; [exact E |]. split.
  - destruct Hin as [-> | Hin]; [now left | now right].
  - intros x [<- | Hx]; auto.
Qed.

Lemma Math_max_Num_In (l : list Z) (c : Z) : Js.Math_max l = Js.Num c -> In c l.
Proof.
  destruct l as [| y l]; [discriminate |].
  intros H. destruct (Math_max_spec (y :: l)) as (m & E & Hin & _); [discriminate |].
  congruence.
Qed.

Lemma In_firstn {A : Type} (n : nat) (l : list A) (x : A) :
  In x (firstn n l) -> In x l.
Proof.
  intros H. rewrite <- (firstn_skipn n l). apply in_or_app. now left.
Qed.

Lemma In_skipn {A : Type} (n : nat) (l : list A) (x : A) :
  In x (skipn n l) -> In x l.
Proof.
  intros H. rewrite <- (firstn_skipn n l). apply in_or_app. now right.
Qed.

Lemma In_slice {A : Type} (a : Z) (b : option Z) (l : list A) (x : A) :
  In x (Js.slice a b l) -> In x l.
Proof.
  unfold Js.slice. intros H.
  apply In_firstn in H. revert H. apply In_skipn.
Qed.

(** ** The round resolver *)

(** C3: for cards [a], [b] in 1..9, [resolveRound a b] names the player as
    winner and awards [a + b] to the player and 0 to the CPU when [a > b],
    names the CPU and awards [a + b] to the CPU and 0 to the player when
    [b > a], and is a tie with 0 points for both when [a = b].  Being a
    function of its two arguments alone, it reads and changes no state. *)
Theorem resolveRound_outcome (a b : Z) :
  1 <= a <= 9 -> 1 <= b <= 9 ->
  (a > b -> winner (resolveRound a b) = player /\
            playerPoints (resolveRound a b) = a + b /\
            cpuPoints (resolveRound a b) = 0) /\
  (b > a -> winner (resolveRound a b) = cpu /\
            cpuPoints (resolveRound a b) = a + b /\
            playerPoints (resolveRound a b) = 0) /\
  (a = b -> winner (resolveRound a b) = tie /\
            playerPoints (resolveRound a b) = 0 /\
            cpuPoints (resolveRound a b) = 0).
Proof.
  intros _ _. unfold resolveRound.
  destruct (a >? b) eqn:Hab; [| destruct (b >? a) eqn:Hba]; cbn;
    repeat split; intros; try reflexivity; lia.
Qed.

Lemma resolveRound_outcome_witness :
  winner (resolveRound 9 1) = player /\
  playerPoints (resolveRound 9 1) = 10 /\
  cpuPoints (resolveRound 9 1) = 0.
Proof.
  apply (resolveRound_outcome 9 1); lia.
Defined.

Lemma resolveRound_points (p q : Z) :
  playerPoints (resolveRound p q) + cpuPoints (resolveRound p q)
  = Spec.pointsAwarded p q /\
  (0 <= p -> 0 <= q ->
   0 <= playerPoints (resolveRound p q) /\ 0 <= cpuPoints (resolveRound p q)).
Proof.
  unfold resolveRound, Spec.pointsAwarded.
  destruct (p >? q) eqn:A; [| destruct (q >? p) eqn:B];
    destruct (p =? q) eqn:C; cbn; split; intros; lia.
Qed.

(** ** The opponent strategy *)

Section StrategyFacts.

Variable random : nat -> Q.

Lemma randomChoice_Num_In (X : list Z) (k : nat) (c : Z) :
  fst (randomChoice random X k) = Js.Num c -> In c X.
Proof. cbn. apply get_Num_In. Qed.

Lemma randomChoice_draws (X : list Z) (k : nat) :
  snd (randomChoice random X k) = S k.
Proof. reflexivity. Qed.

Lemma randomChoice_uniform (X : list Z) (k : nat) :
  unit_source random -> X <> [] ->
  exists c, randomChoice random X k = (Js.Num c, S k) /\
            Spec.uniform_pick X (random k) c.
Proof.
  intros Hu HX. destruct (Hu k) as [H0 H1].
  assert (0 < Z.of_nat (List.length X)) as Hlen
    by (destruct X; [congruence | cbn [List.length]; lia]).
  pose proof (floor_mul_range _ _ H0 H1 Hlen) as Hr.
  destruct (get_in_range X _ Hr) as [c Hc].
  exists c. split.
  - cbv [randomChoice bind Math_random ret]. now rewrite Hc.
  - apply get_Num_nth in Hc as [Hi Hn].
    exists (Z.to_nat (Js.floor_mul (random k) (Z.of_nat (List.length X)))).
    split; [exact Hn |].
    rewrite Z2Nat.id by lia. now apply floor_mul_bounds.
Qed.

Lemma cpuSelectCard_Num_In (s : State) (k : nat) (c : Z) :
  fst (cpuSelectCard random s k) = Js.Num c -> In c (cpuCards s).
Proof.
  unfold cpuSelectCard.
  destruct (_ && _).
  { intros H. apply randomChoice_Num_In in H. eapply In_slice; eauto. }
  destruct (_ && _).
  { intros H. apply randomChoice_Num_In in H. eapply In_slice; eauto. }
  destruct (_ && _).
  { cbn. apply Math_max_Num_In. }
  destruct (_ >? 0).
  - cbv [bind Math_random]. destruct (Js.ltb _ _); intros H.
    + apply randomChoice_Num_In in H. apply filter_In in H. tauto.
    + now apply randomChoice_Num_In in H.
  - apply randomChoice_Num_In.
Qed.

End StrategyFacts.

Lemma ascending_tail (x : Z) (l : list Z) :
  ascending (x :: l) = true -> ascending l = true.
Proof.
  cbn [ascending]. destruct l as [| y t]; [reflexivity |].
  intros H. apply andb_prop in H. tauto.
Qed.

Lemma ascending_strongly_sorted (l : list Z) :
  ascending l = true -> StronglySorted Z.lt l.
Proof.
  intros H. apply Sorted_StronglySorted; [exact Z.lt_trans |].
  induction l as [| x l IH]; [constructor |].
  constructor; [apply IH; eapply ascending_tail; eauto |].
  destruct l as [| y t]; constructor.
  cbn [ascending] in H. apply andb_prop in H. lia.
Qed.

Lemma sort_ascending (l : list Z) : ascending l = true -> Spec.sort l = l.
Proof.
  induction l as [| x l IH]; [reflexivity |]. intros H.
  cbn [Spec.sort fold_right]. fold (Spec.sort l).
  rewrite IH by (eapply ascending_tail; eauto).
  destruct l as [| y t]; [reflexivity |].
  cbn [ascending] in H. apply andb_prop in H as [H _].
  cbn [Spec.insert]. now replace (x <=? y) with true by lia.
Qed.

Lemma bottomN_slice (l : list Z) :
  ascending l = true -> Js.slice 0 (Some 3) l = Spec.bottomN 3 l.
Proof.
  intros H. unfold Spec.bottomN. rewrite sort_ascending by exact H.
  apply slice_first3.
Qed.

Lemma topN_slice (l : list Z) :
  ascending l = true -> Js.slice (-3) None l = Spec.topN 3 l.
Proof.
  intros H. unfold Spec.topN. rewrite sort_ascending by exact H.
  rewrite firstn_rev, rev_involutive. apply slice_last3.
Qed.

Lemma split_ascending (a b : list Z) :
  StronglySorted Z.lt (a ++ b) ->
  forall x y, In x a -> In y b -> x < y.
Proof.
  induction a as [| z a IH]; cbn [app]; intros S x y Hx Hy; [destruct Hx |].
  inversion S as [| ? ? S' F]; subst.
  destruct Hx as [<- | Hx]; [| eauto].
  rewrite Forall_forall in F. apply F, in_or_app. now right.
Qed.

Lemma middleCards_mid (l : list Z) :
  filter (fun c => (c >=? 4) && (c <=? 6)) l = Spec.mid l.
Proof.
  unfold Spec.mid. apply filter_ext. intros c. now rewrite Z.geb_leb.
Qed.

Lemma desperation_guard (l : list Z) (d : Z) :
  (d <? -15) && (Z.of_nat (List.length l) >? 3) = true <-> Spec.desperation l d.
Proof. unfold Spec.desperation. rewrite andb_true_iff. lia. Qed.

Lemma preservation_guard (l : list Z) (d : Z) :
  (d >? 15) && (Z.of_nat (List.length l) >? 3) = true <-> Spec.preservation l d.
Proof. unfold Spec.preservation. rewrite andb_true_iff. lia. Qed.

Lemma endgame_guard (d t : Z) :
  (10 - t <=? 3) && (d <=? 0) = true <-> Spec.endgame d t.
Proof. unfold Spec.endgame. rewrite andb_true_iff. lia. Qed.

Lemma nonempty_length {A : Type} (l : list A) :
  l <> [] <-> (0 < List.length l)%nat.
Proof. destruct l; cbn; split; intros; try congruence; lia. Qed.

Lemma slice_last3_nonempty (l : list Z) : l <> [] -> Js.slice (-3) None l <> [].
Proof.
  rewrite slice_last3, !nonempty_length, length_skipn. lia.
Qed.

Lemma slice_first3_nonempty (l : list Z) : l <> [] -> Js.slice 0 (Some 3) l <> [].
Proof.
  rewrite slice_first3, !nonempty_length, length_firstn. lia.
Qed.

Lemma cpuSelectCard_member (random : nat -> Q) (s : State) (k : nat) :
  unit_source random ->
  cpuCards s <> [] ->
  exists c, fst (cpuSelectCard random s k) = Js.Num c /\ In c (cpuCards s).
Proof.
  intros Hu Hne.
  assert (exists c, fst (cpuSelectCard random s k) = Js.Num c) as [c Hc].
  { unfold cpuSelectCard.
    destruct (_ && _).
    { destruct (randomChoice_uniform random _ k Hu (slice_last3_nonempty _ Hne))
        as (c & -> & _). now exists c. }
    destruct (_ && _).
    { destruct (randomChoice_uniform random _ k Hu (slice_first3_nonempty _ Hne))
        as (c & -> & _). now exists c. }
    destruct (_ && _).
    { destruct (Math_max_spec _ Hne) as (m & E & _). exists m. exact E. }
    destruct (_ >? 0) eqn:Hmid.
    - cbv [bind Math_random]. destruct (Js.ltb _ _).
      + assert (filter (fun c => (c >=? 4) && (c <=? 6)) (cpuCards s) <> []) as Hm
          by (apply nonempty_length; lia).
        destruct (randomChoice_uniform random _ (S k) Hu Hm) as (c & -> & _).
        now exists c.
      + destruct (randomChoice_uniform random _ (S k) Hu Hne) as (c & -> & _).
        now exists c.
    - destruct (randomChoice_uniform random _ k Hu Hne) as (c & -> & _).
      now exists c. }
  exists c. split; [exact Hc |]. eapply cpuSelectCard_Num_In; eauto.
Qed.



Lemma tenths_unit : unit_source tenths.
Proof.
  intros k. unfold tenths.
  pose proof (Nat.mod_upper_bound k 10 ltac:(lia)) as H.
  split; unfold Qle, Qlt; cbn [Qnum Qden]; lia.
Qed.


(** ** Card pools *)

Lemma includes_In (v : Z) (l : list Z) : Js.includes v l = true <-> In v l.
Proof.
  unfold Js.includes. rewrite existsb_exists. split.
  - intros (x & Hx & E). apply Z.eqb_eq in E. now subst.
  - intros H. exists v. split; [exact H | apply Z.eqb_refl].
Qed.

Lemma includes_push (v p : Z) (l : list Z) :
  Js.includes v (Js.push p l) = Js.includes v l || (v =? p).
Proof.
  unfold Js.includes, Js.push. rewrite existsb_app. cbn [existsb].
  now rewrite orb_false_r.
Qed.

Lemma In_unused (used : list Z) (x : Z) :
  In x (unused used) <-> In x deck /\ ~ In x used.
Proof.
  unfold unused. rewrite filter_In, negb_true_iff.
  pose proof (includes_In x used) as H.
  destruct (Js.includes x used); intuition congruence.
Qed.

Lemma unused_push (used : list Z) (p : Z) :
  filter (fun x => negb (x =? p)) (unused used) = unused (Js.push p used).
Proof.
  unfold unused. induction deck as [| y l IH]; [reflexivity |].
  cbn [filter]. rewrite includes_push.
  destruct (Js.includes y used); cbn [negb orb filter]; [exact IH |].
  destruct (y =? p); cbn [negb]; now rewrite IH.
Qed.

Lemma filter_ascending (f : Z -> bool) (l : list Z) :
  StronglySorted Z.lt l -> StronglySorted Z.lt (filter f l).
Proof.
  induction 1 as [| x l S IH F]; cbn [filter]; [constructor |].
  destruct (f x); [| exact IH]. constructor; [exact IH |].
  rewrite Forall_forall in *. intros y Hy. apply F.
  apply filter_In in Hy. tauto.
Qed.

Lemma strongly_sorted_ascending (l : list Z) :
  StronglySorted Z.lt l -> ascending l = true.
Proof.
  induction 1 as [| x l S IH F]; [reflexivity |].
  cbn [ascending]. destruct l as [| y t]; [reflexivity |].
  rewrite IH, andb_true_r. inversion F; subst. lia.
Qed.

Lemma unused_ascending (used : list Z) : ascending (unused used) = true.
Proof.
  apply strongly_sorted_ascending, filter_ascending.
  apply ascending_strongly_sorted. reflexivity.
Qed.

Lemma NoDup_push (p : Z) (l : list Z) :
  NoDup l -> ~ In p l -> NoDup (Js.push p l).
Proof.
  intros N H. unfold Js.push. apply NoDup_app; trivial.
  - repeat constructor. intros [].
  - intros a Ha [<- | []]. contradiction.
Qed.

Lemma combine_push (a b : list Z) (p q : Z) :
  List.length a = List.length b ->
  combine (Js.push p a) (Js.push q b) = combine a b ++ [(p, q)].
Proof.
  unfold Js.push. revert b. induction a as [| x a IH]; intros [| y b] E;
    try discriminate; cbn in *; [reflexivity |].
  f_equal. apply IH. congruence.
Qed.

Lemma sumZ_app (a b : list Z) : sumZ (a ++ b) = sumZ a + sumZ b.
Proof.
  unfold sumZ. induction a as [| x a IH]; cbn [app fold_right]; lia.
Qed.

Lemma player_total_app (rs : list (Z * Z)) (p q : Z) :
  player_total (rs ++ [(p, q)]) = player_total rs + playerPoints (resolveRound p q).
Proof.
  unfold player_total. rewrite map_app, sumZ_app. cbn. lia.
Qed.

Lemma cpu_total_app (rs : list (Z * Z)) (p q : Z) :
  cpu_total (rs ++ [(p, q)]) = cpu_total rs + cpuPoints (resolveRound p q).
Proof.
  unfold cpu_total. rewrite map_app, sumZ_app. cbn. lia.
Qed.

Lemma totals_nontie (rs : list (Z * Z)) :
  player_total rs + cpu_total rs = Spec.nontie_total rs.
Proof.
  unfold player_total, cpu_total, Spec.nontie_total, Spec.is_tie.
  induction rs as [| [p q] rs IH]; [reflexivity |].
  cbn [map filter fst snd sumZ fold_right] in *.
  pose proof (proj1 (resolveRound_points p q)) as E.
  unfold Spec.pointsAwarded in E.
  destruct (p =? q); cbn [negb map fold_right fst snd];
    unfold sumZ in *; lia.
Qed.

Lemma totals_nonneg (rs : list (Z * Z)) :
  (forall r, In r rs -> 0 <= fst r /\ 0 <= snd r) ->
  0 <= player_total rs /\ 0 <= cpu_total rs.
Proof.
  unfold player_total, cpu_total.
  induction rs as [| [p q] rs IH]; intros H; cbn [map sumZ fold_right fst snd];
    [lia |].
  destruct IH as [A B]; [intros r Hr; apply H; now right |].
  destruct (H (p, q) (or_introl eq_refl)) as [Hp Hq]. cbn in Hp, Hq.
  destruct (proj2 (resolveRound_points p q) Hp Hq).
  unfold sumZ in *. lia.
Qed.

Lemma deck_range (x : Z) : In x deck <-> 1 <= x <= 9.
Proof.
  unfold deck. cbn [In]. lia.
Qed.

(** ** The invariant holds in every reachable configuration *)

Lemma state_ok_same_board (s s' : State) :
  same_board s s' -> state_ok s -> state_ok s'.
Proof.
  intros (E1 & E2 & E3 & E4 & E5 & E6 & E7 & E8) [].
  constructor; unfold resolved, rounds in *;
    rewrite ?E1, ?E2, ?E3, ?E4, ?E5, ?E6, ?E7, ?E8; assumption.
Qed.

Lemma state_ok_startGame (s0 : State) : state_ok (startGame s0).
Proof.
  constructor; cbn; try reflexivity; try lia; try constructor;
    intros x [].
Qed.

Lemma handleCardClick_ok (index : nat) (s s' : State) (pend : list Cont) :
  (index < 9)%nat ->
  state_ok s -> control_ok s pend ->
  handleCardClick index s = Returned s' ->
  state_ok s' /\ control_ok s' pend.
Proof.
  intros Hi S C. unfold handleCardClick.
  destruct (isLocked s) eqn:L; [intros [= <-]; tauto |].
  destruct (Phase_eqb (gamePhase s) selection) eqn:P; cbn [negb];
    [| intros [= <-]; tauto].
  destruct (Js.includes _ _) eqn:U; [intros [= <-]; tauto |].
  assert (In (Z.of_nat index + 1) (playerCards s)) as Hin.
  { rewrite (ok_playerCards s S). apply In_unused. split.
    - apply deck_range. lia.
    - rewrite <- includes_In. congruence. }
  assert (forall v, state_ok (set_playerSelectedCard v s)) as S'.
  { intros v. eapply state_ok_same_board; [| exact S].
    repeat split; reflexivity. }
  destruct (gamePhase s) eqn:P'; try discriminate.
  unfold control_ok in *. rewrite P', L in C.
  destruct (selected_is _ _); intros [= <-]; (split; [apply S' |]);
    cbn; rewrite P', L; destruct pend; try contradiction;
    intros p [= <-]; trivial.
Qed.

Lemma handleConfirm_ok (s s' : State) (pend : list Cont) (k : option Cont) :
  state_ok s -> control_ok s pend ->
  handleConfirm s = Returned (s', k) ->
  state_ok s' /\
  control_ok s' (pend ++ match k with Some x => [x] | None => [] end).
Proof.
  intros S C. unfold handleConfirm.
  destruct (isLocked s) eqn:L;
    [intros [= <- <-]; rewrite app_nil_r; tauto |].
  destruct (playerSelectedCard s) as [p |] eqn:Sel;
    [| intros [= <- <-]; rewrite app_nil_r; tauto].
  destruct (Phase_eqb (gamePhase s) selection) eqn:P; cbn [negb];
    [| intros [= <- <-]; rewrite app_nil_r; tauto].
  intros [= <- <-]. split.
  - eapply state_ok_same_board; [| exact S]. repeat split; reflexivity.
  - destruct (gamePhase s) eqn:P'; try discriminate.
    unfold control_ok in *. cbn. rewrite P', L in C. rewrite P'.
    destruct pend; [| contradiction]. cbn. eauto.
Qed.

Lemma timer_alone (s : State) (pend : list Cont) (k : nat) (x : Cont) :
  control_ok s pend -> nth_error pend k = Some x ->
  pend = [x] /\ k = 0%nat.
Proof.
  intros C H. unfold control_ok in C.
  destruct (gamePhase s), (isLocked s), pend as [| y [| z pend]];
    try contradiction; try (destruct y; contradiction);
    try (destruct k; discriminate);
    destruct k as [| k]; cbn in H;
      try (injection H as <-; split; reflexivity);
      destruct k; discriminate.
Qed.

Section MachineFacts.

Variable random : nat -> Q.
Context {Store : Type} {service : GameDataService Store}.

Lemma afterThinking_fields (s s' : State) (k n : nat) :
  handleConfirm_afterThinking random s k = (Some s', n) ->
  exists p c,
    playerSelectedCard s = Some p /\
    cpuSelectCard random s k = (Js.Num c, n) /\
    playerCards s' = filter (fun x => negb (x =? p)) (playerCards s) /\
    cpuCards s' = filter (fun x => negb (x =? c)) (cpuCards s) /\
    playerUsedCards s' = Js.push p (playerUsedCards s) /\
    cpuUsedCards s' = Js.push c (cpuUsedCards s) /\
    currentTurn s' = currentTurn s /\
    gamePhase s' = reveal /\
    isLocked s' = isLocked s /\
    playerScore s' = playerScore s + playerPoints (resolveRound p c) /\
    cpuScore s' = cpuScore s + cpuPoints (resolveRound p c) /\
    highScore s' = highScore s /\
    lastRoundResult s' = Some (resolveRound p c).
Proof.
  unfold handleConfirm_afterThinking, bind, ret.
  destruct (cpuSelectCard random s k) as [v k'].
  destruct v as [c | |]; try discriminate.
  destruct (playerSelectedCard s) as [p |] eqn:Sel; try discriminate.
  unfold revealCards. cbn. intros [= <- <-].
  exists p, c. cbn. repeat split; reflexivity.
Qed.

Lemma afterThinking_ok (s s' : State) (k n : nat) :
  state_ok s -> control_ok s [AfterThinking] ->
  handleConfirm_afterThinking random s k = (Some s', n) ->
  state_ok s' /\ control_ok s' [AfterReveal].
Proof.
  intros S C H.
  destruct (afterThinking_fields _ _ _ _ H)
    as (p & c & Sel & Cpu & E1 & E2 & E3 & E4 & E5 & E6 & E7 & E8 & E9 & _).
  unfold control_ok in C.
  destruct (gamePhase s) eqn:P; destruct (isLocked s) eqn:L; try contradiction.
  destruct C as (p' & Sel' & Hp). rewrite Sel in Sel'. injection Sel' as <-.
  assert (In c (cpuCards s)) as Hc.
  { apply (cpuSelectCard_Num_In random s k). now rewrite Cpu. }
  destruct S as [Sp Sc Np Nc Dp Dc Lp Lc T Ps Cs].
  rewrite Sp in Hp. rewrite Sc in Hc.
  apply In_unused in Hp as [Hpd Hpu]. apply In_unused in Hc as [Hcd Hcu].
  unfold resolved in *. rewrite P in *.
  split.
  - constructor; unfold resolved, rounds;
      rewrite ?E1, ?E2, ?E3, ?E4, ?E5, ?E6, ?E8, ?E9.
    + rewrite Sp. apply unused_push.
    + rewrite Sc. apply unused_push.
    + now apply NoDup_push.
    + now apply NoDup_push.
    + unfold Js.push. intros x Hx. apply in_app_or in Hx as [Hx | [<- | []]]; auto.
    + unfold Js.push. intros x Hx. apply in_app_or in Hx as [Hx | [<- | []]]; auto.
    + unfold Js.push. rewrite length_app. cbn [List.length]. lia.
    + unfold Js.push. rewrite length_app. cbn [List.length]. lia.
    + exact T.
    + rewrite combine_push by lia. rewrite player_total_app.
      unfold rounds in Ps. lia.
    + rewrite combine_push by lia. rewrite cpu_total_app.
      unfold rounds in Cs. lia.
  - unfold control_ok. rewrite E6, E7, ?L. exact I.
Qed.

Lemma nextTurn_ok (s : State) :
  state_ok s -> control_ok s [AfterReveal] -> currentTurn s < 9 ->
  state_ok (nextTurn s) /\ control_ok (nextTurn s) [].
Proof.
  intros S C T.
  unfold control_ok in C.
  destruct (gamePhase s) eqn:P; destruct (isLocked s) eqn:L; try contradiction.
  destruct S as [Sp Sc Np Nc Dp Dc Lp Lc Tn Ps Cs].
  unfold resolved in *. rewrite P in *.
  split.
  - constructor; unfold resolved, rounds; cbn; trivial; lia.
  - unfold control_ok. cbn. discriminate.
Qed.

Lemma handleGameComplete_fields (s s' : State) (d d' : Store)
    (calls : list Z) (callback : Cont) :
  handleGameComplete s d = (s', d', calls, callback) ->
  same_board (endGame s) s' /\ isLocked s' = true /\
  exists w msg flag, callback = ShowResult w msg flag.
Proof.
  unfold handleGameComplete, checkAndSaveHighScore.
  destruct (if playerScore (endGame s) >? cpuScore (endGame s) then _ else _)
    as [w msg].
  destruct (match highScore (endGame s) with None => _ | Some _ => _ end).
  - destruct (saveNineGameScore _ d) as [ok d1]. intros [= <- <- <- <-].
    repeat split; eauto.
  - intros [= <- <- <- <-]. repeat split; eauto.
Qed.

Lemma handleGameComplete_ok (s s' : State) (d d' : Store)
    (calls : list Z) (callback : Cont) :
  state_ok s -> control_ok s [AfterReveal] -> currentTurn s >= 9 ->
  handleGameComplete s d = (s', d', calls, callback) ->
  state_ok s' /\ control_ok s' [callback].
Proof.
  intros S C T H.
  apply handleGameComplete_fields in H as (B & L' & w & msg & flag & ->).
  unfold control_ok in C.
  destruct (gamePhase s) eqn:P; destruct (isLocked s) eqn:L; try contradiction.
  assert (state_ok (endGame s)) as S1.
  { destruct S as [Sp Sc Np Nc Dp Dc Lp Lc Tn Ps Cs].
    unfold resolved in *. rewrite P in *.
    constructor; unfold resolved, rounds; cbn; trivial. }
  split; [eapply state_ok_same_board; eauto |].
  destruct B as (_ & _ & _ & _ & E5 & E6 & _).
  unfold control_ok. rewrite E6, L', E5. cbn.
  pose proof (ok_turn s S). lia.
Qed.

Lemma exec_Inv (e : Event) (c c' : Config) :
  Inv c -> exec random e c = Some c' -> Inv c'.
Proof.
  destruct c as [s d calls pend n sh]. unfold Inv. cbn [st pending].
  intros [S C] E. destruct e as [index | | k]; cbn [exec st pending store
    saveCalls draws shown] in E.
  - destruct (index <? 9)%nat eqn:Hi; [| discriminate].
    apply Nat.ltb_lt in Hi.
    destruct (handleCardClick index s) as [s' |] eqn:H; [| discriminate].
    injection E as <-. cbn [st pending]. eapply handleCardClick_ok; eauto.
  - destruct (handleConfirm s) as [[s' k] |] eqn:H; [| discriminate].
    injection E as <-. cbn [st pending]. eapply handleConfirm_ok; eauto.
  - destruct (nth_error pend k) as [x |] eqn:Hk; [| discriminate].
    destruct (timer_alone _ _ _ _ C Hk) as [-> ->]. cbn [remove_nth app] in E.
    destruct x as [| | w msg flag].
    + destruct (handleConfirm_afterThinking random s n) as [[s' |] n'] eqn:H;
        [| discriminate].
      injection E as <-. cbn [st pending]. eapply afterThinking_ok; eauto.
    + destruct (currentTurn s >=? 9) eqn:T.
      * destruct (handleGameComplete s d) as [[[s' d'] calls'] callback] eqn:H.
        injection E as <-. cbn [st pending].
        eapply handleGameComplete_ok; eauto. lia.
      * injection E as <-. cbn [st pending]. apply nextTurn_ok; trivial. lia.
    + injection E as <-. cbn [st pending]. split; [exact S |].
      unfold control_ok in *.
      destruct (gamePhase s), (isLocked s); try contradiction. exact C.
Qed.

Lemma reachable_Inv (c : Config) : reachable random c -> Inv c.
Proof.
  induction 1 as [s0 d n | e c c' R IH E].
  - split; [apply state_ok_startGame |]. cbn. discriminate.
  - eapply exec_Inv; eauto.
Qed.

End MachineFacts.

(** ** What one event does *)

Lemma StronglySorted_NoDup_lt (l : list Z) :
  StronglySorted Z.lt l -> NoDup l.
Proof.
  induction 1 as [| x l S IH F]; constructor; [| exact IH].
  intros Hx. rewrite Forall_forall in F. specialize (F x Hx). lia.
Qed.

Lemma unused_nonempty (used : list Z) :
  (List.length used < 9)%nat -> unused used <> [].
Proof.
  intros Hlen E.
  assert (incl deck used) as Hincl.
  { intros x Hx. destruct (in_dec Z.eq_dec x used) as [H | H]; [exact H |].
    assert (In x (unused used)) as A by (apply In_unused; tauto).
    rewrite E in A. destruct A. }
  assert (NoDup deck) as Hd.
  { apply StronglySorted_NoDup_lt, ascending_strongly_sorted. reflexivity. }
  pose proof (NoDup_incl_length Hd Hincl) as L. cbn in L. lia.
Qed.

Lemma unused_full (used : list Z) :
  NoDup used -> (forall x, In x used -> In x deck) ->
  List.length used = 9%nat -> unused used = [].
Proof.
  intros N D L.
  assert (incl deck used) as Hincl.
  { apply NoDup_length_incl; [exact N | cbn; lia | exact D]. }
  destruct (unused used) as [| x l] eqn:E; [reflexivity |].
  assert (In x (unused used)) as A by (rewrite E; now left).
  apply In_unused in A as [A B]. elim B. now apply Hincl.
Qed.

Lemma handleCardClick_quiet (index : nat) (s s' : State) :
  handleCardClick index s = Returned s' ->
  same_pools s s' /\ same_scores s s' /\
  currentTurn s' = currentTurn s /\ gamePhase s' = gamePhase s.
Proof.
  unfold handleCardClick, same_pools, same_scores.
  destruct (isLocked s); [intros [= <-]; tauto |].
  destruct (negb _); [intros [= <-]; tauto |].
  destruct (Js.includes _ _); [intros [= <-]; tauto |].
  destruct (selected_is _ _); intros [= <-]; cbn; tauto.
Qed.

Lemma handleConfirm_quiet (s s' : State) (k : option Cont) :
  handleConfirm s = Returned (s', k) ->
  same_pools s s' /\ same_scores s s' /\
  currentTurn s' = currentTurn s /\ gamePhase s' = gamePhase s.
Proof.
  unfold handleConfirm, same_pools, same_scores.
  destruct (isLocked s); [intros [= <- <-]; tauto |].
  destruct (playerSelectedCard s); [| intros [= <- <-]; tauto].
  destruct (negb _); intros [= <- <-]; cbn; tauto.
Qed.

Section Steps.

Variable random : nat -> Q.
Context {Store : Type} {service : GameDataService Store}.

Lemma exec_shape (e : Event) (c c' : Config) :
  Inv c -> exec random e c = Some c' ->
  ((forall k, e = TimerFires k -> nth_error (pending c) k <> Some AfterThinking) /\
   same_pools (st c) (st c') /\ same_scores (st c) (st c')) \/
  (exists k p q,
      e = TimerFires k /\ nth_error (pending c) k = Some AfterThinking /\
      playerSelectedCard (st c) = Some p /\
      moves_cards p q (st c) (st c') /\
      lastRoundResult (st c') = Some (resolveRound p q) /\
      playerScore (st c') = playerScore (st c) + playerPoints (resolveRound p q) /\
      cpuScore (st c') = cpuScore (st c) + cpuPoints (resolveRound p q) /\
      gamePhase (st c) = selection /\ gamePhase (st c') = reveal).
Proof.
  destruct c as [s d calls pend n sh]. unfold Inv. cbn [st pending].
  intros [S C] E. destruct e as [index | | k]; cbn [exec st pending store
    saveCalls draws shown] in E.
  - left. split; [discriminate |].
    destruct (index <? 9)%nat; [| discriminate].
    destruct (handleCardClick index s) as [s' |] eqn:H; [| discriminate].
    injection E as <-. cbn [st]. apply handleCardClick_quiet in H. tauto.
  - left. split; [discriminate |].
    destruct (handleConfirm s) as [[s' k] |] eqn:H; [| discriminate].
    injection E as <-. cbn [st]. apply handleConfirm_quiet in H. tauto.
  - destruct (nth_error pend k) as [x |] eqn:Hk; [| discriminate].
    destruct x as [| | w msg flag].
    + right.
      destruct (handleConfirm_afterThinking random s n) as [[s' |] n'] eqn:H;
        [| discriminate].
      injection E as <-. cbn [st].
      destruct (afterThinking_fields _ _ _ _ _ H)
        as (p & q & Sel & Cpu & E1 & E2 & E3 & E4 & E5 & E6 & E7 & E8 & E9
            & E10 & E11).
      destruct (timer_alone _ _ _ _ C Hk) as [-> ->].
      unfold control_ok in C.
      destruct (gamePhase s) eqn:P; destruct (isLocked s) eqn:L;
        try contradiction.
      destruct C as (p' & Sel' & Hp). rewrite Sel in Sel'. injection Sel' as <-.
      exists 0%nat, p, q. unfold moves_cards.
      repeat split; trivial.
      apply (cpuSelectCard_Num_In random s n). now rewrite Cpu.
    + left. split; [intros k0 [= <-]; congruence |].
      destruct (currentTurn s >=? 9).
      * destruct (handleGameComplete s d) as [[[s' d'] calls'] callback] eqn:H.
        injection E as <-. cbn [st].
        apply handleGameComplete_fields in H
          as ((B1 & B2 & B3 & B4 & _ & _ & B7 & B8) & _).
        unfold same_pools, same_scores. cbn in *. tauto.
      * injection E as <-. cbn. unfold same_pools, same_scores. cbn. tauto.
    + left. split; [intros k0 [= <-]; congruence |].
      injection E as <-. unfold same_pools, same_scores. cbn. tauto.
Qed.

Lemma exec_progress (e : Event) (c : Config) :
  unit_source random -> Inv c -> enabled e c ->
  exists c', exec random e c = Some c'.
Proof.
  destruct c as [s d calls pend n sh]. unfold Inv, enabled. cbn [st pending].
  intros Hu [S C] En. destruct e as [index | | k]; cbn [exec st pending store
    saveCalls draws shown].
  - apply Nat.ltb_lt in En. rewrite En.
    unfold handleCardClick.
    destruct (isLocked s); [eauto |]. destruct (negb _); [eauto |].
    destruct (Js.includes _ _); [eauto |]. destruct (selected_is _ _); eauto.
  - unfold handleConfirm.
    destruct (isLocked s); [eauto |].
    destruct (playerSelectedCard s); [| eauto]. destruct (negb _); eauto.
  - destruct (nth_error pend k) as [x |] eqn:Hk;
      [| apply nth_error_None in Hk; lia].
    destruct x as [| | w msg flag]; [| | eauto].
    + destruct (timer_alone _ _ _ _ C Hk) as [-> ->].
      unfold control_ok in C.
      destruct (gamePhase s) eqn:P; destruct (isLocked s) eqn:L;
        try contradiction.
      destruct C as (p & Sel & Hp).
      assert (cpuCards s <> []) as Hne.
      { rewrite (ok_cpuCards s S). apply unused_nonempty.
        pose proof (ok_cpuUsed_length s S) as Len.
        pose proof (ok_turn s S). unfold resolved in Len. rewrite P in Len. lia. }
      destruct (cpuSelectCard_member random s n Hu Hne) as (q & Hq & _).
      unfold handleConfirm_afterThinking, bind, ret.
      destruct (cpuSelectCard random s n) as [v n']. cbn [fst] in Hq. subst v.
      rewrite Sel. unfold revealCards. cbn. eauto.
    + destruct (currentTurn s >=? 9); [| eauto].
      destruct (handleGameComplete s d) as [[[s' d'] calls'] callback]. eauto.
Qed.

Lemma run_reachable (es : list Event) (c c' : Config) :
  reachable random c -> run random es c = Some c' -> reachable random c'.
Proof.
  revert c. induction es as [| e es IH]; intros c R; cbn [run].
  - now intros [= <-].
  - destruct (exec random e c) as [c1 |] eqn:E; [| discriminate].
    apply IH. eapply reach_step; eauto.
Qed.

Lemma run_from_start (es : list Event) (s0 : State) (d : Store) (n : nat)
    (c : Config) :
  run random es (match_start s0 d n) = Some c -> reachable random c.
Proof. apply run_reachable. constructor. Qed.

Lemma run_used_grows (es : list Event) (c c' : Config) :
  Inv c -> run random es c = Some c' ->
  Inv c' /\
  (forall x, In x (playerUsedCards (st c)) -> In x (playerUsedCards (st c'))) /\
  (forall x, In x (cpuUsedCards (st c)) -> In x (cpuUsedCards (st c'))).
Proof.
  revert c. induction es as [| e es IH]; intros c I; cbn [run].
  - intros [= <-]. tauto.
  - destruct (exec random e c) as [c1 |] eqn:E; [| discriminate]. intros R.
    pose proof (exec_Inv random _ _ _ I E) as I1.
    destruct (IH c1 I1 R) as (I' & Gp & Gc). split; [exact I' |].
    destruct (exec_shape _ _ _ I E)
      as [(_ & (_ & _ & Ep & Ec) & _) | (k & p & q & _ & _ & _ & M & _)].
    + rewrite Ep, Ec in *. tauto.
    + destruct M as (_ & _ & _ & _ & Ep & Ec).
      split; intros x Hx; [apply Gp; rewrite Ep | apply Gc; rewrite Ec];
        apply in_or_app; now left.
Qed.

End Steps.

(** ** Card pools and their order *)

Section Pools.

Variable random : nat -> Q.
Context {Store : Type} {service : GameDataService Store}.

Lemma pool_partition (used : list Z) :
  NoDup used -> (forall x, In x used -> In x deck) ->
  Spec.pool (unused used) used.
Proof.
  intros N D. unfold Spec.pool. split; [| split; [| split]].
  - apply StronglySorted_NoDup_lt, ascending_strongly_sorted, unused_ascending.
  - exact N.
  - intros x Hx. apply In_unused in Hx. tauto.
  - intros x. rewrite <- deck_range. split.
    + intros [Hx | Hx]; [apply In_unused in Hx; tauto | auto].
    + intros Hx.
      destruct (in_dec Z.eq_dec x used) as [H | H]; [now right | left].
      apply In_unused. tauto.
Qed.

Lemma pool_permutation (available used : list Z) :
  Spec.pool available used -> Permutation (available ++ used) deck.
Proof.
  intros (Na & Nu & D & U). apply NoDup_Permutation.
  - apply NoDup_app; assumption.
  - apply StronglySorted_NoDup_lt, ascending_strongly_sorted. reflexivity.
  - intros x. rewrite in_app_iff, deck_range. apply U.
Qed.

Lemma filter_ne_In (p : Z) (l : list Z) (x : Z) :
  In x (filter (fun y => negb (y =? p)) l) <-> In x l /\ x <> p.
Proof.
  rewrite filter_In, negb_true_iff, Z.eqb_neq. tauto.
Qed.

(** The card pools of a match during which New Game is not clicked: in
    every configuration that [exec] reaches, each side's available and used
    cards hold no value twice, are disjoint, and together are exactly 1..9
    (the two arrays, put end to end, are a permutation of the deck, so
    their lengths add up to 9).  An event either leaves both pools as they
    are or, when it is the confirmed turn being played, takes one available
    card [p] of the player and one available card [q] of the CPU out of the
    available arrays and appends them to the used arrays; with a random
    source in the unit interval that step always goes through.  Along any
    further events of the match a used card stays used and is not available
    again. *)
Lemma pools_partition_deck (c : Config) :
  reachable random c ->
  Spec.pool (playerCards (st c)) (playerUsedCards (st c)) /\
  Spec.pool (cpuCards (st c)) (cpuUsedCards (st c)) /\
  Permutation (playerCards (st c) ++ playerUsedCards (st c)) deck /\
  Permutation (cpuCards (st c) ++ cpuUsedCards (st c)) deck /\
  (forall e c', exec random e c = Some c' ->
     same_pools (st c) (st c') \/
     exists k p q,
       e = TimerFires k /\ nth_error (pending c) k = Some AfterThinking /\
       moves_cards p q (st c) (st c') /\
       (forall x, In x (playerCards (st c')) <->
                  In x (playerCards (st c)) /\ x <> p) /\
       (forall x, In x (cpuCards (st c')) <->
                  In x (cpuCards (st c)) /\ x <> q)) /\
  (unit_source random ->
   forall k, nth_error (pending c) k = Some AfterThinking ->
     exists c' p q, exec random (TimerFires k) c = Some c' /\
                    moves_cards p q (st c) (st c')) /\
  (forall es c', run random es c = Some c' ->
     (forall x, In x (playerUsedCards (st c)) ->
        In x (playerUsedCards (st c')) /\ ~ In x (playerCards (st c'))) /\
     (forall x, In x (cpuUsedCards (st c)) ->
        In x (cpuUsedCards (st c')) /\ ~ In x (cpuCards (st c')))).
Proof.
  intros R. pose proof (reachable_Inv random c R) as I.
  assert (forall c0 : @Config Store, Inv c0 ->
            Spec.pool (playerCards (st c0)) (playerUsedCards (st c0)) /\
            Spec.pool (cpuCards (st c0)) (cpuUsedCards (st c0))) as Pools.
  { intros c0 [S _]. rewrite (ok_playerCards _ S), (ok_cpuCards _ S).
    split; apply pool_partition.
    - exact (ok_playerUsed_nodup _ S).
    - exact (ok_playerUsed_deck _ S).
    - exact (ok_cpuUsed_nodup _ S).
    - exact (ok_cpuUsed_deck _ S). }
  destruct (Pools c I) as [Pp Pc].
  split; [exact Pp |]. split; [exact Pc |].
  split; [now apply pool_permutation |].
  split; [now apply pool_permutation |]. split; [| split].
  - intros e c' E.
    destruct (exec_shape random _ _ _ I E)
      as [(_ & Q & _) | (k & p & q & -> & Hk & _ & M & _)]; [now left | right].
    exists k, p, q. split; [reflexivity |]. split; [exact Hk |].
    split; [exact M |]. destruct M as (_ & _ & E1 & E2 & _).
    split; intros x; [rewrite E1 | rewrite E2]; apply filter_ne_In.
  - intros Hu k Hk.
    destruct (exec_progress random (TimerFires k) c Hu I) as [c' E].
    { cbn. apply nth_error_Some. congruence. }
    destruct (exec_shape random _ _ _ I E)
      as [(N & _) | (k' & p & q & _ & _ & _ & M & _)].
    + elim (N k eq_refl). exact Hk.
    + eauto.
  - intros es c' Run.
    destruct (run_used_grows random es c c' I Run) as (I' & Gp & Gc).
    destruct (Pools c' I') as [(_ & _ & Dp & _) (_ & _ & Dc & _)].
    split; intros x Hx; (split; [auto |]); intros A;
      [apply (Dp x A) | apply (Dc x A)]; auto.
Qed.

(** C10: in every reachable configuration both arrays of available cards
    are in strictly ascending order; they start as [[1; ...; 9]], and an
    event leaves each of them as it is or filters values out of it, which
    keeps the order of the rest; and
    on the CPU's array [slice(0, 3)] is [bottomN 3] and [slice(-3)] is
    [topN 3]: every card in [slice(0, 3)] is below every available card
    outside it, and every card in [slice(-3)] is above every available card
    outside it. *)
Theorem available_cards_ascending (c : Config) :
  reachable random c ->
  ascending (playerCards (st c)) = true /\
  ascending (cpuCards (st c)) = true /\
  (forall s0 (d : Store) n,
     playerCards (st (match_start s0 d n)) = deck /\
     cpuCards (st (match_start s0 d n)) = deck) /\
  (forall e c', exec random e c = Some c' ->
     exists f g, playerCards (st c') = filter f (playerCards (st c)) /\
                 cpuCards (st c') = filter g (cpuCards (st c))) /\
  Js.slice 0 (Some 3) (cpuCards (st c)) = Spec.bottomN 3 (cpuCards (st c)) /\
  Js.slice (-3) None (cpuCards (st c)) = Spec.topN 3 (cpuCards (st c)) /\
  (forall x y, In x (Js.slice 0 (Some 3) (cpuCards (st c))) ->
               In y (cpuCards (st c)) ->
               ~ In y (Js.slice 0 (Some 3) (cpuCards (st c))) -> x < y) /\
  (forall x y, In x (Js.slice (-3) None (cpuCards (st c))) ->
               In y (cpuCards (st c)) ->
               ~ In y (Js.slice (-3) None (cpuCards (st c))) -> y < x).
Proof.
  intros R. pose proof (reachable_Inv random c R) as I.
  destruct I as [S C].
  assert (ascending (playerCards (st c)) = true) as Ap
    by (rewrite (ok_playerCards _ S); apply unused_ascending).
  assert (ascending (cpuCards (st c)) = true) as Ac
    by (rewrite (ok_cpuCards _ S); apply unused_ascending).
  split; [exact Ap |]. split; [exact Ac |].
  split; [intros s0 d n; split; reflexivity |].
  split; [| split; [| split; [| split]]].
  - intros e c' E.
    destruct (exec_shape random _ _ _ (conj S C) E)
      as [(_ & (E1 & E2 & _) & _) | (k & p & q & _ & _ & _ & M & _)].
    + exists (fun _ => true), (fun _ => true). rewrite E1, E2.
      split; symmetry; apply forallb_filter_id; apply forallb_forall; trivial.
    + destruct M as (_ & _ & E1 & E2 & _). eauto.
  - now apply bottomN_slice.
  - now apply topN_slice.
  - rewrite slice_first3. intros x y Hx Hy Ny.
    rewrite <- (firstn_skipn 3 (cpuCards (st c))) in Hy.
    apply in_app_or in Hy as [Hy | Hy]; [contradiction |].
    eapply split_ascending; eauto.
    rewrite firstn_skipn. now apply ascending_strongly_sorted.
  - rewrite slice_last3. set (n := (List.length (cpuCards (st c)) - 3)%nat).
    intros x y Hx Hy Ny.
    rewrite <- (firstn_skipn n (cpuCards (st c))) in Hy.
    apply in_app_or in Hy as [Hy | Hy]; [| contradiction].
    eapply split_ascending; eauto.
    rewrite firstn_skipn. now apply ascending_strongly_sorted.
Qed.

End Pools.

(** ** Turn counter, phases and scores *)

Section Match.

Variable random : nat -> Q.
Context {Store : Type} {service : GameDataService Store}.

Lemma complete_state (c : @Config Store) :
  Inv c -> gamePhase (st c) = complete ->
  currentTurn (st c) = 9 /\ playerCards (st c) = [] /\ cpuCards (st c) = [] /\
  List.length (rounds (st c)) = 9%nat.
Proof.
  intros [S C] P.
  assert (currentTurn (st c) = 9) as T.
  { unfold control_ok in C. rewrite P in C.
    destruct (isLocked (st c)); [| contradiction].
    destruct (pending c) as [| [] [|]]; try contradiction; exact C. }
  pose proof (ok_playerUsed_length _ S) as Lp.
  pose proof (ok_cpuUsed_length _ S) as Lc.
  unfold resolved in *. rewrite P, T in Lp, Lc.
  split; [exact T |].
  rewrite (ok_playerCards _ S), (ok_cpuCards _ S). unfold rounds.
  rewrite length_combine.
  repeat split; try lia; apply unused_full;
    try exact (ok_playerUsed_nodup _ S); try exact (ok_playerUsed_deck _ S);
    try exact (ok_cpuUsed_nodup _ S); try exact (ok_cpuUsed_deck _ S); lia.
Qed.

Lemma afterReveal_step (c c' : Config) (k : nat) :
  nth_error (pending c) k = Some AfterReveal ->
  exec random (TimerFires k) c = Some c' ->
  (currentTurn (st c) >= 9 ->
   gamePhase (st c') = complete /\ currentTurn (st c') = currentTurn (st c)) /\
  (currentTurn (st c) < 9 ->
   gamePhase (st c') = selection /\
   currentTurn (st c') = currentTurn (st c) + 1).
Proof.
  destruct c as [s d calls pend n sh]. cbn [st pending exec store saveCalls
    draws shown]. intros -> E.
  destruct (currentTurn s >=? 9) eqn:T.
  - destruct (handleGameComplete s d) as [[[s' d'] calls'] callback] eqn:H.
    injection E as <-. cbn [st].
    apply handleGameComplete_fields in H as ((_ & _ & _ & _ & E5 & E6 & _) & _).
    cbn in E5, E6. split; [tauto | lia].
  - injection E as <-. cbn. split; [lia | tauto].
Qed.

(** C6, as the code has it: in every reachable configuration, a click on a
    card that is not available, a click on confirm with no card selected,
    and either click outside the selection phase all return normally,
    without an error, and leave the whole configuration (every state field
    and the suspended computations) as it was. *)
Theorem invalid_input_ignored (c : Config) :
  reachable random c ->
  (forall index, (index < 9)%nat ->
     ~ In (Z.of_nat index + 1) (playerCards (st c)) ->
     handleCardClick index (st c) = Returned (st c) /\
     exec random (CardClick index) c = Some c) /\
  (playerSelectedCard (st c) = None ->
     handleConfirm (st c) = Returned (st c, None) /\
     exec random ConfirmClick c = Some c) /\
  (gamePhase (st c) <> selection ->
     (forall index, (index < 9)%nat ->
        handleCardClick index (st c) = Returned (st c) /\
        exec random (CardClick index) c = Some c) /\
     handleConfirm (st c) = Returned (st c, None) /\
     exec random ConfirmClick c = Some c).
Proof.
  intros R. pose proof (reachable_Inv random c R) as [S C].
  destruct c as [s d calls pend n sh]. cbn [st pending] in *.
  assert (forall index, (index < 9)%nat ->
            handleCardClick index s = Returned s ->
            exec random (CardClick index)
              (mkConfig s d calls pend n sh)
            = Some (mkConfig s d calls pend n sh)) as Click.
  { intros index Hi H. cbn [exec st pending store saveCalls draws shown].
    apply Nat.ltb_lt in Hi. now rewrite Hi, H. }
  assert (handleConfirm s = Returned (s, None) ->
          exec random ConfirmClick (mkConfig s d calls pend n sh)
          = Some (mkConfig s d calls pend n sh)) as Confirm.
  { intros H. cbn [exec st pending store saveCalls draws shown].
    now rewrite H, app_nil_r. }
  split; [| split].
  - intros index Hi Hn.
    assert (handleCardClick index s = Returned s) as H; [| auto].
    unfold handleCardClick.
    destruct (isLocked s); [reflexivity |].
    destruct (negb _); [reflexivity |].
    assert (Js.includes (Z.of_nat index + 1) (playerUsedCards s) = true) as ->;
      [| reflexivity].
    apply includes_In.
    destruct (in_dec Z.eq_dec (Z.of_nat index + 1) (playerUsedCards s))
      as [H | H]; [exact H |].
    elim Hn. rewrite (ok_playerCards _ S). apply In_unused. split; [| exact H].
    apply deck_range. lia.
  - intros Sel.
    assert (handleConfirm s = Returned (s, None)) as H; [| auto].
    unfold handleConfirm. rewrite Sel. now destruct (isLocked s).
  - intros P.
    assert (Phase_eqb (gamePhase s) selection = false) as Pb
      by (destruct (gamePhase s); [congruence | reflexivity | reflexivity]).
    split; [| assert (handleConfirm s = Returned (s, None)) as H; [| auto]].
    + intros index Hi.
      assert (handleCardClick index s = Returned s) as H; [| auto].
      unfold handleCardClick. rewrite Pb. now destruct (isLocked s).
    + unfold handleConfirm. rewrite Pb.
      destruct (isLocked s); [reflexivity |].
      now destruct (playerSelectedCard s).
Qed.

(** C7, as the code has it: in the selection phase with the game not
    locked and a card [p] pending, a click on an available card [v]
    changes only the pending card: it becomes [v] when [v] is not [p], and
    it is cleared when [v] is [p]. *)
Theorem select_replaces_or_toggles (c : Config) (index : nat) (p : Z) :
  reachable random c ->
  gamePhase (st c) = selection ->
  isLocked (st c) = false ->
  playerSelectedCard (st c) = Some p ->
  In (Z.of_nat index + 1) (playerCards (st c)) ->
  handleCardClick index (st c)
  = Returned (set_playerSelectedCard
                (if Z.of_nat index + 1 =? p then None
                 else Some (Z.of_nat index + 1)) (st c)).
Proof.
  intros R P L Sel Hin. pose proof (reachable_Inv random c R) as [S C].
  unfold handleCardClick. rewrite L, P, Sel. cbn [Phase_eqb negb selected_is].
  assert (Js.includes (Z.of_nat index + 1) (playerUsedCards (st c)) = false)
    as ->.
  { rewrite (ok_playerCards _ S) in Hin. apply In_unused in Hin as [_ Hin].
    destruct (Js.includes _ _) eqn:U; [| reflexivity].
    apply includes_In in U. contradiction. }
  rewrite (Z.eqb_sym p). now destruct (_ =? p).
Qed.

End Match.

(** ** High score *)

Lemma checkAndSaveHighScore_result {Store : Type} {service : GameDataService Store}
    (s : State) (d : Store) :
  checkAndSaveHighScore s d
  = (Spec.beats_record (playerScore s) (highScore s),
     (if Spec.beats_record (playerScore s) (highScore s)
      then set_highScore (Some (playerScore s)) s else s),
     (if Spec.beats_record (playerScore s) (highScore s)
      then snd (saveNineGameScore (playerScore s) d) else d),
     (if Spec.beats_record (playerScore s) (highScore s)
      then [playerScore s] else [])).
Proof.
  unfold checkAndSaveHighScore, Spec.beats_record.
  destruct (highScore s) as [best |].
  - rewrite Z.gtb_ltb. destruct (best <? playerScore s); [| reflexivity].
    now destruct (saveNineGameScore (playerScore s) d).
  - now destruct (saveNineGameScore (playerScore s) d).
Qed.

Lemma best_after_check (s : State) :
  highScore (if Spec.beats_record (playerScore s) (highScore s)
             then set_highScore (Some (playerScore s)) s else s)
  = Some (Spec.best (highScore s) (playerScore s)).
Proof.
  unfold Spec.beats_record, Spec.best.
  destruct (highScore s) as [best |] eqn:H; [| reflexivity].
  destruct (best <? playerScore s) eqn:B; cbn; rewrite ?H; f_equal; lia.
Qed.

(** ** Concrete runs *)

Lemma card_pending_reachable :
  reachable (service := cell_service) tenths card_pending.
Proof.
  apply (run_from_start tenths [CardClick 4] constructor_state None 0%nat).
  vm_compute. reflexivity.
Qed.

Lemma cpu_thinking_reachable :
  reachable (service := cell_service) tenths cpu_thinking.
Proof.
  apply (run_from_start tenths [CardClick 4; ConfirmClick]
           constructor_state None 0%nat).
  vm_compute. reflexivity.
Qed.

Lemma three_played_reachable :
  reachable (service := cell_service) tenths three_played.
Proof.
  apply (run_from_start tenths (play_turn 2) constructor_state None 0%nat).
  vm_compute. reflexivity.
Qed.

Lemma last_reveal_reachable :
  reachable (service := cell_service) tenths last_reveal.
Proof.
  apply (run_from_start tenths (removelast descending_match)
           constructor_state None 0%nat).
  vm_compute. reflexivity.
Qed.


Lemma available_cards_ascending_witness :
  ascending (cpuCards (st three_played)) = true /\
  Js.slice (-3) None (cpuCards (st three_played))
  = Spec.topN 3 (cpuCards (st three_played)).
Proof.
  destruct (available_cards_ascending tenths (service := cell_service)
              three_played three_played_reachable)
    as (_ & A & _ & _ & _ & T & _).
  exact (conj A T).
Defined.

(** C6 as the specification words it fails: with card 3 already used, a
    click on card 3 returns normally; nothing is thrown. *)
Lemma invalid_selection_not_signalled :
  ~ (forall (c : Config) (index : nat),
       reachable (service := cell_service) tenths c ->
       (index < 9)%nat ->
       ~ In (Z.of_nat index + 1) (playerCards (st c)) ->
       signals_invalid (handleCardClick index (st c))).
Proof.
  intros H.
  assert (~ In (Z.of_nat 2 + 1) (playerCards (st three_played))) as N.
  { cbn. intros F. repeat destruct F as [F | F]; try discriminate F. exact F. }
  destruct (H three_played 2%nat three_played_reachable ltac:(lia) N) as [E | E];
    discriminate E.
Qed.

Lemma invalid_input_ignored_witness :
  handleCardClick 2 (st three_played) = Returned (st three_played) /\
  exec (service := cell_service) tenths (CardClick 2) three_played
  = Some three_played.
Proof.
  destruct (invalid_input_ignored tenths (service := cell_service)
              three_played three_played_reachable) as (Click & _ & _).
  apply Click; [lia |].
  cbn. intros F. repeat destruct F as [F | F]; try discriminate F. exact F.
Defined.

(** C7 as the specification words it fails: with card 5 pending, a click
    on card 5 leaves no card pending. *)
Lemma reselect_clears_pending :
  ~ (forall (c : Config) (index : nat) (p : Z),
       reachable (service := cell_service) tenths c ->
       gamePhase (st c) = selection ->
       playerSelectedCard (st c) = Some p ->
       In (Z.of_nat index + 1) (playerCards (st c)) ->
       exists s', handleCardClick index (st c) = Returned s' /\
                  playerSelectedCard s' = Some (Z.of_nat index + 1)).
Proof.
  intros H.
  destruct (H card_pending 4%nat 5 card_pending_reachable eq_refl eq_refl)
    as (s' & E & Sel).
  - cbn. tauto.
  - cbn in E. injection E as <-. discriminate Sel.
Qed.

Lemma select_replaces_or_toggles_witness :
  handleCardClick 2 (st card_pending)
  = Returned (set_playerSelectedCard (Some 3) (st card_pending)) /\
  handleCardClick 4 (st card_pending)
  = Returned (set_playerSelectedCard None (st card_pending)).
Proof.
  split.
  - apply (select_replaces_or_toggles tenths (service := cell_service)
             card_pending 2%nat 5 card_pending_reachable);
      [reflexivity | reflexivity | reflexivity | cbn; tauto].
  - apply (select_replaces_or_toggles tenths (service := cell_service)
             card_pending 4%nat 5 card_pending_reachable);
      [reflexivity | reflexivity | reflexivity | cbn; tauto].
Defined.

(** Outside the contract of [Math.random]: a source that returns 1 makes
    [randomChoice] read past the end of the array. *)
Example cpuSelectCard_source_out_of_range :
  fst (cpuSelectCard (fun _ => 1%Q) constructor_state 0%nat) = Js.Undefined.
Proof. reflexivity. Qed.

(** The same match on a store whose writes fail: the state, the flag kept
    for the modal and the write attempted are those of [match_over]; only
    the store differs. *)
Example failed_write_changes_nothing_else :
  match run (service := failing_service) tenths descending_match fresh_match with
  | Some c =>
      st c = st match_over /\ pending c = pending match_over /\
      saveCalls c = [29] /\ store c = None /\ store match_over = Some 29
  | None => False
  end.
Proof. vm_compute. repeat split. Qed.

(** ** More about one event *)

Section Events.

Variable random : nat -> Q.
Context {Store : Type} {service : GameDataService Store}.

(** What each kind of event does to a configuration whose invariant holds. *)
Lemma exec_inv (e : Event) (c c' : Config) :
  Inv c -> exec random e c = Some c' ->
  (exists index s',
     e = CardClick index /\ (index < 9)%nat /\
     handleCardClick index (st c) = Returned s' /\
     c' = mkConfig s' (store c) (saveCalls c) (pending c) (draws c) (shown c)) \/
  (exists s' k,
     e = ConfirmClick /\ handleConfirm (st c) = Returned (s', k) /\
     c' = mkConfig s' (store c) (saveCalls c)
            (pending c ++ match k with Some x => [x] | None => [] end)
            (draws c) (shown c)) \/
  (exists s' n',
     e = TimerFires 0 /\ pending c = [AfterThinking] /\
     handleConfirm_afterThinking random (st c) (draws c) = (Some s', n') /\
     c' = mkConfig s' (store c) (saveCalls c) [AfterReveal] n' (shown c)) \/
  (exists s' d' calls callback,
     e = TimerFires 0 /\ pending c = [AfterReveal] /\ currentTurn (st c) = 9 /\
     handleGameComplete (st c) (store c) = (s', d', calls, callback) /\
     c' = mkConfig s' d' (saveCalls c ++ calls) [callback] (draws c) (shown c)) \/
  (e = TimerFires 0 /\ pending c = [AfterReveal] /\ currentTurn (st c) < 9 /\
   c' = mkConfig (nextTurn (st c)) (store c) (saveCalls c) [] (draws c) (shown c)) \/
  (exists w msg flag,
     e = TimerFires 0 /\ pending c = [ShowResult w msg flag] /\
     c' = mkConfig (st c) (store c) (saveCalls c) [] (draws c)
            (shown c ++ [showResult w msg flag (st c)])).
Proof.
  destruct c as [s d calls pend n sh]. unfold Inv. cbn [st pending store
    saveCalls draws shown].
  intros [S C] E. destruct e as [index | | k]; cbn [exec st pending store
    saveCalls draws shown] in E.
  - left. destruct (index <? 9)%nat eqn:Hi; [| discriminate].
    apply Nat.ltb_lt in Hi.
    destruct (handleCardClick index s) as [s' |] eqn:H; [| discriminate].
    injection E as <-. eauto 6.
  - right; left.
    destruct (handleConfirm s) as [[s' k] |] eqn:H; [| discriminate].
    injection E as <-. eauto 6.
  - destruct (nth_error pend k) as [x |] eqn:Hk; [| discriminate].
    destruct (timer_alone _ _ _ _ C Hk) as [-> ->]. cbn [remove_nth app] in E.
    destruct x as [| | w msg flag].
    + right; right; left.
      destruct (handleConfirm_afterThinking random s n) as [[s' |] n'] eqn:H;
        [| discriminate].
      injection E as <-. eauto 6.
    + pose proof (ok_turn _ S) as T.
      destruct (currentTurn s >=? 9) eqn:G.
      * right; right; right; left.
        destruct (handleGameComplete s d) as [[[s' d'] calls'] callback] eqn:H.
        injection E as <-. exists s', d', calls', callback.
        repeat split; trivial. lia.
      * right; right; right; right; left. injection E as <-.
        repeat split; trivial. lia.
    + right; right; right; right; right. injection E as <-. eauto 6.
Qed.

End Events.

Lemma handleCardClick_cases (index : nat) (s s' : State) :
  handleCardClick index s = Returned s' ->
  s' = s \/
  (isLocked s = false /\ gamePhase s = selection /\
   Js.includes (Z.of_nat index + 1) (playerUsedCards s) = false /\
   s' = set_playerSelectedCard
          (if selected_is (playerSelectedCard s) (Z.of_nat index + 1)
           then None else Some (Z.of_nat index + 1)) s).
Proof.
  unfold handleCardClick.
  destruct (isLocked s); [intros [= <-]; now left |].
  destruct (gamePhase s); cbn [Phase_eqb negb]; try (intros [= <-]; now left).
  destruct (Js.includes _ _); [intros [= <-]; now left |].
  destruct (selected_is _ _); intros [= <-]; right; repeat split.
Qed.

Lemma handleConfirm_cases (s s' : State) (k : option Cont) :
  handleConfirm s = Returned (s', k) ->
  (s' = s /\ k = None) \/
  (isLocked s = false /\ gamePhase s = selection /\
   playerSelectedCard s <> None /\
   s' = set_isLocked true s /\ k = Some AfterThinking).
Proof.
  unfold handleConfirm.
  destruct (isLocked s); [intros [= <- <-]; now left |].
  destruct (playerSelectedCard s); [| intros [= <- <-]; now left].
  destruct (gamePhase s); cbn [Phase_eqb negb]; intros [= <- <-];
    try (now left).
  right. repeat split. discriminate.
Qed.

Lemma rem2_odd (t : Z) : 0 <= t -> (Z.rem t 2 =? 1) = Z.odd t.
Proof.
  intros H. rewrite Z.rem_mod_nonneg by lia. rewrite Zmod_odd.
  now destruct (Z.odd t).
Qed.

Section MoreFacts.

Variable random : nat -> Q.
Context {Store : Type} {service : GameDataService Store}.

Lemma afterThinking_keeps (s s' : State) (k n : nat) :
  handleConfirm_afterThinking random s k = (Some s', n) ->
  isPlayerTurn s' = isPlayerTurn s /\ highScore s' = highScore s /\
  currentTurn s' = currentTurn s /\ isLocked s' = isLocked s /\
  playerSelectedCard s' = playerSelectedCard s /\
  lastPlayerCard s' = playerSelectedCard s /\
  (n = k \/ n = S k \/ n = S (S k)).
Proof.
  unfold handleConfirm_afterThinking, bind, ret.
  destruct (cpuSelectCard random s k) as [v k'] eqn:Cpu.
  destruct v as [c | |]; try discriminate.
  destruct (playerSelectedCard s) as [p |] eqn:Sel; try discriminate.
  unfold revealCards. cbn. intros [= <- <-]. cbn.
  repeat split.
  apply (f_equal snd) in Cpu. cbn [snd] in Cpu. revert Cpu.
  unfold cpuSelectCard, randomChoice, bind, ret, Math_random.
  repeat match goal with
         | |- context [if ?b then _ else _] => destruct b
         end; cbn [snd]; intros <-; auto.
Qed.

Lemma handleGameComplete_result (s : State) (d : Store) :
  handleGameComplete s d
  = ((if Spec.beats_record (playerScore s) (highScore s)
      then set_highScore (Some (playerScore s)) (endGame s)
      else endGame s),
     (if Spec.beats_record (playerScore s) (highScore s)
      then snd (saveNineGameScore (playerScore s) d) else d),
     (if Spec.beats_record (playerScore s) (highScore s)
      then [playerScore s] else []),
     ShowResult
       (if playerScore s >? cpuScore s then player
        else if cpuScore s >? playerScore s then cpu else tie)
       (if playerScore s >? cpuScore s then "You Win!"
        else if cpuScore s >? playerScore s then "CPU Wins!"
             else "It's a Tie!")%string
       (Spec.beats_record (playerScore s) (highScore s))).
Proof.
  unfold handleGameComplete.
  change (set_isLocked true (set_gamePhase complete s)) with (endGame s).
  rewrite checkAndSaveHighScore_result.
  change (playerScore (endGame s)) with (playerScore s).
  change (cpuScore (endGame s)) with (cpuScore s).
  change (highScore (endGame s)) with (highScore s).
  destruct (playerScore s >? cpuScore s); [reflexivity |].
  destruct (cpuScore s >? playerScore s); reflexivity.
Qed.

End MoreFacts.

Section MatchFacts.

Variable random : nat -> Q.
Context {Store : Type} {service : GameDataService Store}.



Lemma isPlayerTurn_odd (c : Config) :
  reachable random c ->
  isPlayerTurn (st c) = Z.odd (currentTurn (st c)).
Proof.
  induction 1 as [s0 d n | e c c' R IH E]; [reflexivity |].
  pose proof (reachable_Inv random c R) as I.
  destruct (exec_inv random e c c' I E)
    as [(index & s' & _ & _ & H & ->) |
        [(s' & k & _ & H & ->) |
         [(s' & n' & _ & _ & H & ->) |
          [(s' & d' & calls & cb & _ & _ & _ & H & ->) |
           [(_ & _ & T & ->) | (w & msg & flag & _ & _ & ->)]]]]];
    cbn [st].
  - apply handleCardClick_cases in H as [-> | (_ & _ & _ & ->)]; exact IH.
  - apply handleConfirm_cases in H as [[-> _] | (_ & _ & _ & -> & _)]; exact IH.
  - apply afterThinking_keeps in H as (E1 & _ & E3 & _). now rewrite E1, E3.
  - rewrite handleGameComplete_result in H. injection H as <- _ _ _.
    destruct (Spec.beats_record _ _); exact IH.
  - cbn. apply rem2_odd. pose proof (ok_turn _ (proj1 I)). lia.
  - exact IH.
Qed.

(** X1: in every reachable configuration [isPlayerTurn] says whether the
    turn number is odd: the player moves first on turns 1, 3, 5, 7, 9 and
    the CPU on turns 2, 4, 6, 8. *)
Theorem player_first_on_odd_turns (c : Config) :
  reachable random c ->
  isPlayerTurn (st c) = Z.odd (currentTurn (st c)).
Proof. apply isPlayerTurn_odd. Qed.



End MatchFacts.

Section Completion.

Variable random : nat -> Q.
Context {Store : Type} {service : GameDataService Store}.


Lemma pending_locked (c : @Config Store) :
  Inv c -> pending c <> [] -> isLocked (st c) = true.
Proof.
  intros [_ C] N. unfold control_ok in C.
  destruct (gamePhase (st c)), (isLocked (st c)), (pending c) as [| x l];
    try reflexivity; try contradiction; congruence.
Qed.








End Completion.

Section Liveness.

Variable random : nat -> Q.
Context {Store : Type} {service : GameDataService Store}.
Hypothesis random_unit : unit_source random.

Lemma run_app (es1 es2 : list Event) (c c1 c2 : Config) :
  run random es1 c = Some c1 -> run random es2 c1 = Some c2 ->
  run random (es1 ++ es2) c = Some c2.
Proof.
  revert c. induction es1 as [| e es1 IH]; intros c; cbn [run app].
  - now intros [= ->].
  - destruct (exec random e c) as [c' |]; [apply IH | discriminate].
Qed.

Lemma finish_reveal (c : Config) :
  Inv c -> gamePhase (st c) = reveal ->
  exists c', exec random (TimerFires 0) c = Some c' /\
    ((currentTurn (st c) = 9 /\ gamePhase (st c') = complete) \/
     (currentTurn (st c) < 9 /\ gamePhase (st c') = selection /\
      currentTurn (st c') = currentTurn (st c) + 1)).
Proof.
  intros I P.
  assert (pending c = [AfterReveal]) as Hp.
  { destruct I as [_ C]. unfold control_ok in C. rewrite P in C.
    destruct (isLocked (st c)); [| contradiction].
    destruct (pending c) as [| [] [|]]; try contradiction; reflexivity. }
  destruct (exec_progress random (TimerFires 0) c random_unit I) as [c' E].
  { cbn. rewrite Hp. cbn. lia. }
  exists c'. split; [exact E |].
  destruct (afterReveal_step random c c' 0%nat) as [A B]; trivial.
  { now rewrite Hp. }
  pose proof (ok_turn _ (proj1 I)) as T.
  destruct (Z.eq_dec (currentTurn (st c)) 9) as [T9 | T9].
  - left. split; [exact T9 |]. apply A. lia.
  - right. split; [lia |]. apply B. lia.
Qed.

Lemma finish_thinking (c : Config) :
  Inv c -> gamePhase (st c) = selection -> isLocked (st c) = true ->
  exists c', exec random (TimerFires 0) c = Some c' /\
             gamePhase (st c') = reveal /\
             currentTurn (st c') = currentTurn (st c).
Proof.
  intros I P L.
  assert (pending c = [AfterThinking]) as Hp.
  { destruct I as [_ C]. unfold control_ok in C. rewrite P, L in C.
    destruct (pending c) as [| [] [|]]; try contradiction; reflexivity. }
  destruct (exec_progress random (TimerFires 0) c random_unit I) as [c' E].
  { cbn. rewrite Hp. cbn. lia. }
  exists c'. split; [exact E |].
  destruct (exec_inv random _ c c' I E)
    as [(index & s' & [=] & _) |
        [(s' & k & [=] & _) |
         [(s' & n' & _ & _ & H & ->) |
          [(s' & d' & calls & cb & _ & Q & _) |
           [(_ & Q & _) | (w & msg & flag & _ & Q & _)]]]]];
    try congruence.
  destruct (afterThinking_fields random _ _ _ _ H)
    as (p & q & _ & _ & _ & _ & _ & _ & E5 & E6 & _).
  cbn [st]. tauto.
Qed.

Lemma start_confirm (c : Config) (p : Z) :
  Inv c -> gamePhase (st c) = selection -> isLocked (st c) = false ->
  playerSelectedCard (st c) = Some p ->
  exists c', exec random ConfirmClick c = Some c' /\
             gamePhase (st c') = selection /\ isLocked (st c') = true /\
             currentTurn (st c') = currentTurn (st c).
Proof.
  intros I P L Sel. destruct c as [s d calls pend n sh].
  cbn [st exec store saveCalls pending draws shown] in *.
  unfold handleConfirm. rewrite L, Sel, P. cbn [Phase_eqb negb].
  eexists. split; [reflexivity |]. cbn. tauto.
Qed.

Lemma pick_a_card (c : Config) :
  Inv c -> gamePhase (st c) = selection -> isLocked (st c) = false ->
  playerSelectedCard (st c) = None ->
  exists index c' p,
    exec random (CardClick index) c = Some c' /\
    gamePhase (st c') = selection /\ isLocked (st c') = false /\
    playerSelectedCard (st c') = Some p /\
    currentTurn (st c') = currentTurn (st c).
Proof.
  intros I P L Sel. destruct I as [S C].
  assert (playerCards (st c) <> []) as Hne.
  { rewrite (ok_playerCards _ S). apply unused_nonempty.
    pose proof (ok_playerUsed_length _ S) as Len.
    pose proof (ok_turn _ S). unfold resolved in Len. rewrite P in Len. lia. }
  destruct (playerCards (st c)) as [| x l] eqn:Hc; [congruence |].
  assert (In x (unused (playerUsedCards (st c)))) as Hx
    by (rewrite <- (ok_playerCards _ S), Hc; now left).
  apply In_unused in Hx as [Hd Hu]. apply deck_range in Hd.
  exists (Z.to_nat (x - 1)), 
    (mkConfig (set_playerSelectedCard (Some x) (st c)) (store c) (saveCalls c)
       (pending c) (draws c) (shown c)), x.
  destruct c as [s d calls pend n sh].
  cbn [st exec store saveCalls pending draws shown] in *.
  replace (Z.to_nat (x - 1) <? 9)%nat with true
    by (symmetry; apply Nat.ltb_lt; lia).
  unfold handleCardClick. rewrite L, P, Sel. cbn [Phase_eqb negb selected_is].
  replace (Z.of_nat (Z.to_nat (x - 1)) + 1) with x by lia.
  replace (Js.includes x (playerUsedCards s)) with false.
  - cbn. tauto.
  - symmetry. destruct (Js.includes x (playerUsedCards s)) eqn:U; [| reflexivity].
    apply includes_In in U. contradiction.
Qed.

Lemma finish_turn (c : Config) :
  Inv c -> gamePhase (st c) <> complete ->
  exists es c',
    run random es c = Some c' /\ (List.length es <= 4)%nat /\
    ((currentTurn (st c) = 9 /\ gamePhase (st c') = complete) \/
     (currentTurn (st c) < 9 /\ gamePhase (st c') = selection /\
      currentTurn (st c') = currentTurn (st c) + 1)).
Proof.
  intros I P.
  assert (forall c1, Inv c1 -> gamePhase (st c1) = reveal ->
            currentTurn (st c1) = currentTurn (st c) ->
            exists es c',
              run random es c1 = Some c' /\ (List.length es <= 1)%nat /\
              ((currentTurn (st c) = 9 /\ gamePhase (st c') = complete) \/
               (currentTurn (st c) < 9 /\ gamePhase (st c') = selection /\
                currentTurn (st c') = currentTurn (st c) + 1))) as FromReveal.
  { intros c1 I1 P1 T1. destruct (finish_reveal c1 I1 P1) as (c' & E & H).
    exists [TimerFires 0], c'. cbn [run]. rewrite E, <- T1.
    split; [reflexivity |]. split; [cbn; lia | exact H]. }
  assert (forall c1, Inv c1 -> gamePhase (st c1) = selection ->
            isLocked (st c1) = true ->
            currentTurn (st c1) = currentTurn (st c) ->
            exists es c',
              run random es c1 = Some c' /\ (List.length es <= 2)%nat /\
              ((currentTurn (st c) = 9 /\ gamePhase (st c') = complete) \/
               (currentTurn (st c) < 9 /\ gamePhase (st c') = selection /\
                currentTurn (st c') = currentTurn (st c) + 1))) as FromThinking.
  { intros c1 I1 P1 L1 T1.
    destruct (finish_thinking c1 I1 P1 L1) as (c2 & E & P2 & T2).
    destruct (FromReveal c2 (exec_Inv random _ _ _ I1 E) P2 ltac:(congruence))
      as (es & c' & R & Len & H).
    exists (TimerFires 0 :: es), c'. cbn [run]. rewrite E.
    split; [exact R |]. split; [cbn; lia | exact H]. }
  assert (forall c1 p, Inv c1 -> gamePhase (st c1) = selection ->
            isLocked (st c1) = false -> playerSelectedCard (st c1) = Some p ->
            currentTurn (st c1) = currentTurn (st c) ->
            exists es c',
              run random es c1 = Some c' /\ (List.length es <= 3)%nat /\
              ((currentTurn (st c) = 9 /\ gamePhase (st c') = complete) \/
               (currentTurn (st c) < 9 /\ gamePhase (st c') = selection /\
                currentTurn (st c') = currentTurn (st c) + 1))) as FromSelected.
  { intros c1 p I1 P1 L1 S1 T1.
    destruct (start_confirm c1 p I1 P1 L1 S1) as (c2 & E & P2 & L2 & T2).
    destruct (FromThinking c2 (exec_Inv random _ _ _ I1 E) P2 L2
                ltac:(congruence)) as (es & c' & R & Len & H).
    exists (ConfirmClick :: es), c'. cbn [run]. rewrite E.
    split; [exact R |]. split; [cbn; lia | exact H]. }
  destruct (gamePhase (st c)) eqn:Ph; [| | congruence].
  - destruct (isLocked (st c)) eqn:L.
    + destruct (FromThinking c I Ph L eq_refl) as (es & c' & R & Len & H).
      exists es, c'. split; [exact R |]. split; [lia | exact H].
    + destruct (playerSelectedCard (st c)) as [p |] eqn:Sel.
      * destruct (FromSelected c p I Ph L Sel eq_refl) as (es & c' & R & Len & H).
        exists es, c'. split; [exact R |]. split; [lia | exact H].
      * destruct (pick_a_card c I Ph L Sel)
          as (index & c2 & p & E & P2 & L2 & S2 & T2).
        destruct (FromSelected c2 p (exec_Inv random _ _ _ I E) P2 L2 S2 T2)
          as (es & c' & R & Len & H).
        exists (CardClick index :: es), c'. cbn [run]. rewrite E.
        split; [exact R |]. split; [cbn; lia | exact H].
  - destruct (FromReveal c I Ph eq_refl) as (es & c' & R & Len & H).
    exists es, c'. split; [exact R |]. split; [lia | exact H].
Qed.

Lemma finish_match (k : nat) (c : Config) :
  Inv c -> currentTurn (st c) = 9 - Z.of_nat k ->
  exists es c',
    run random es c = Some c' /\ gamePhase (st c') = complete /\
    (List.length es <= 4 * (k + 1))%nat.
Proof.
  revert c. induction k as [| k IH]; intros c I T.
  - destruct (Phase_eqb (gamePhase (st c)) complete) eqn:Pb.
    + exists [], c. cbn.
      destruct (gamePhase (st c)); try discriminate. repeat split. lia.
    + destruct (finish_turn c I) as (es & c' & R & Len & [[_ H] | [H _]]);
        [intros P; rewrite P in Pb; discriminate | | lia].
      exists es, c'. repeat split; trivial; lia.
  - destruct (finish_turn c I) as (es & c1 & R & Len & [[H _] | (_ & P1 & T1)]);
      [| lia |].
    { intros P. destruct (complete_state c I P) as [T9 _]. lia. }
    assert (Inv c1) as I1.
    { destruct (run_used_grows random es c c1 I R) as [I1 _]. exact I1. }
    destruct (IH c1 I1 ltac:(lia)) as (es2 & c' & R2 & P' & Len2).
    exists (es ++ es2), c'. split; [eapply run_app; eauto |].
    split; [exact P' |]. rewrite length_app. lia.
Qed.

End Liveness.

(** X7: with a random source in the unit interval, a match can always be
    played to its end: from every reachable configuration some sequence of
    at most four events per remaining turn (a card click, the confirm
    click and the two timers) runs without getting stuck and ends in the
    [complete] phase. *)
Theorem match_can_be_finished (random : nat -> Q) {Store : Type}
    {service : GameDataService Store} (c : Config) :
  unit_source random ->
  reachable random c ->
  exists es c',
    run random es c = Some c' /\ gamePhase (st c') = complete /\
    (Z.of_nat (List.length es) <= 4 * (10 - currentTurn (st c))).
Proof.
  intros Hu R. pose proof (reachable_Inv random c R) as I.
  pose proof (ok_turn _ (proj1 I)) as T.
  destruct (finish_match random Hu (Z.to_nat (9 - currentTurn (st c))) c I)
    as (es & c' & Run & P & Len); [lia |].
  exists es, c'. repeat split; trivial. lia.
Qed.

(** ** The page *)

Lemma In_classList_add (t u : string) (l : list string) :
  In t (Dom.classList_add u l) <-> t = u \/ In t l.
Proof.
  unfold Dom.classList_add.
  destruct (existsb (String.eqb u) l) eqn:E.
  - apply existsb_exists in E as (x & Hx & Ex).
    apply String.eqb_eq in Ex. subst x. split; [tauto |].
    intros [-> | H]; assumption.
  - rewrite in_app_iff. cbn [In]. intuition congruence.
Qed.

Lemma In_classList_remove (t : string) (ts l : list string) :
  In t (Dom.classList_remove ts l) <-> In t l /\ ~ In t ts.
Proof.
  unfold Dom.classList_remove. rewrite filter_In, negb_true_iff.
  split; intros [H N]; (split; [exact H |]).
  - intros Hin. assert (existsb (String.eqb t) ts = true) as E; [| congruence].
    apply existsb_exists. exists t. split; [exact Hin | apply String.eqb_refl].
  - destruct (existsb (String.eqb t) ts) eqn:E; [| reflexivity].
    apply existsb_exists in E as (x & Hx & Ex).
    apply String.eqb_eq in Ex. subst x. contradiction.
Qed.

Lemma nth_error_forEach_from {A : Type} (f : nat -> A -> A) (i k : nat)
    (l : list A) :
  nth_error (forEach_from f i l) k = option_map (f (i + k)%nat) (nth_error l k).
Proof.
  revert i k. induction l as [| x l IH]; intros i [| k]; cbn; trivial.
  - now rewrite Nat.add_0_r.
  - rewrite IH. now replace (S i + k)%nat with (i + S k)%nat by lia.
Qed.

Lemma nth_error_forEach {A : Type} (f : nat -> A -> A) (k : nat) (l : list A)
    (y : A) :
  nth_error (forEach f l) k = Some y ->
  exists x, nth_error l k = Some x /\ y = f k x.
Proof.
  unfold forEach. rewrite nth_error_forEach_from. cbn.
  destruct (nth_error l k) as [x |]; [| discriminate].
  intros [= <-]. eauto.
Qed.

Lemma colour_parity (v : Z) :
  0 <= v -> colour v = if Z.odd v then "red"%string else "black"%string.
Proof. intros H. unfold colour. now rewrite rem2_odd. Qed.

Lemma selected_is_true (sel : option Z) (v : Z) :
  selected_is sel v = true <-> sel = Some v.
Proof.
  destruct sel as [x |]; cbn; [| split; discriminate].
  rewrite Z.eqb_eq. split; congruence.
Qed.

Lemma render_player_card_synced (s : State) (index : nat) (el : Dom.Element) :
  player_card_synced s index (render_player_card s index el).
Proof.
  unfold player_card_synced, render_player_card. cbn [Dom.dataset_value
    Dom.textContent Dom.classList].
  set (v := Z.of_nat index + 1).
  rewrite colour_parity by lia.
  pose proof (includes_In v (playerUsedCards s)) as U.
  pose proof (selected_is_true (playerSelectedCard s) v) as Sel.
  split; [reflexivity |]. split; [reflexivity |].
  destruct (Js.includes v (playerUsedCards s));
    destruct (selected_is (playerSelectedCard s) v);
    destruct (Z.odd v);
    repeat rewrite ?In_classList_add, ?In_classList_remove; cbn [In];
    repeat split; intros; 
    repeat match goal with
           | H : _ \/ _ |- _ => destruct H
           | H : _ /\ _ |- _ => destruct H
           end;
    try discriminate; try tauto; try (exfalso; intuition congruence);
    intuition congruence.
Qed.

Lemma cpu_card_no_wrong_colour (s : State) (index : nat) (el : Dom.Element) :
  cpu_card_synced s index el ->
  (In "red"%string (Dom.classList el) -> Z.odd (Z.of_nat index + 1) = true) /\
  (In "black"%string (Dom.classList el) -> Z.odd (Z.of_nat index + 1) = false).
Proof.
  unfold cpu_card_synced. intros (_ & A & B).
  destruct (in_dec Z.eq_dec (Z.of_nat index + 1) (cpuUsedCards s)) as [H | H].
  - destruct (A H) as (_ & _ & R & K). split; [apply R | apply K].
  - destruct (B H) as (_ & _ & R & K). split; intros; contradiction.
Qed.

Lemma render_cpu_card_synced (s : State) (index : nat) (el : Dom.Element) :
  (In (Z.of_nat index + 1) (cpuUsedCards s) ->
   (In "red"%string (Dom.classList el) -> Z.odd (Z.of_nat index + 1) = true) /\
   (In "black"%string (Dom.classList el) -> Z.odd (Z.of_nat index + 1) = false)) ->
  cpu_card_synced s index (render_cpu_card s index el).
Proof.
  unfold cpu_card_synced, render_cpu_card.
  set (v := Z.of_nat index + 1). intros W.
  pose proof (includes_In v (cpuUsedCards s)) as U.
  destruct (Js.includes v (cpuUsedCards s)); cbn [Dom.dataset_value
    Dom.textContent Dom.classList].
  - destruct (W (proj1 U eq_refl)) as [Wr Wb].
    rewrite colour_parity by lia.
    split; [reflexivity |]. split; [| intros N; elim N; now apply U].
    intros _. split; [reflexivity |].
    destruct (Z.odd v);
      repeat rewrite ?In_classList_add, ?In_classList_remove; cbn [In];
      repeat split; intros;
      repeat match goal with
             | H : _ \/ _ |- _ => destruct H
             | H : _ /\ _ |- _ => destruct H
             end;
      try discriminate; try tauto; auto;
      try (exfalso; intuition congruence).
  - split; [reflexivity |]. split; [intros H; apply U in H; discriminate |].
    intros _. split; [reflexivity |].
    repeat rewrite ?In_classList_remove; cbn [In]. intuition congruence.
Qed.

Lemma string_app_assoc (a b c : string) :
  ((a ++ b) ++ c = a ++ (b ++ c))%string.
Proof. induction a as [| x a IH]; cbn; [reflexivity | now rewrite IH]. Qed.

Lemma turn_text_written (s : State) :
  (("Turn " ++ Js.show (currentTurn s) ++ "/9") ++ " - "
   ++ (if isPlayerTurn s then "Your turn" else "CPU's turn"))%string
  = turn_text s.
Proof.
  unfold turn_text. cbn [String.append]. do 5 f_equal.
  now rewrite string_app_assoc.
Qed.

Lemma option_map_Some {A B : Type} (f : A -> B) (o : option A) (y : B) :
  option_map f o = Some y -> exists x, o = Some x /\ y = f x.
Proof. destruct o as [x |]; cbn; [intros [= <-]; eauto | discriminate]. Qed.

Lemma player_card_synced_ext (s s' : State) (index : nat) (el : Dom.Element) :
  playerUsedCards s' = playerUsedCards s ->
  playerSelectedCard s' = playerSelectedCard s ->
  player_card_synced s index el -> player_card_synced s' index el.
Proof. unfold player_card_synced. now intros -> ->. Qed.

Lemma cpu_card_synced_ext (s s' : State) (index : nat) (el : Dom.Element) :
  cpuUsedCards s' = cpuUsedCards s ->
  cpu_card_synced s index el -> cpu_card_synced s' index el.
Proof. unfold cpu_card_synced. now intros ->. Qed.

Lemma result_synced_ext (s s' : State) (el : Dom.Element) :
  gamePhase s' = gamePhase s -> isLocked s' = isLocked s ->
  lastPlayerCard s' = lastPlayerCard s -> lastCpuCard s' = lastCpuCard s ->
  lastRoundResult s' = lastRoundResult s ->
  result_synced s el -> result_synced s' el.
Proof. unfold result_synced. now intros -> -> -> -> ->. Qed.

Lemma render_player_ok (s : State) (dom : Dom.t) (index : nat)
    (el : Dom.Element) :
  nth_error (Dom.playerCardElements (renderCards s dom)) index = Some el ->
  player_card_synced s index el.
Proof.
  cbn [renderCards Dom.playerCardElements]. intros H.
  apply nth_error_forEach in H as (x & _ & ->).
  apply render_player_card_synced.
Qed.

Lemma render_cpu_ok (s : State) (dom : Dom.t) (index : nat)
    (el : Dom.Element) :
  (cpuUsedCards s = [] \/
   forall i x, nth_error (Dom.cpuCardElements dom) i = Some x ->
               exists s0, cpu_card_synced s0 i x) ->
  nth_error (Dom.cpuCardElements (renderCards s dom)) index = Some el ->
  cpu_card_synced s index el.
Proof.
  cbn [renderCards Dom.cpuCardElements]. intros Old H.
  apply nth_error_forEach in H as (x & Hx & ->).
  apply render_cpu_card_synced. intros Hin.
  destruct Old as [E | Old]; [rewrite E in Hin; destruct Hin |].
  destruct (Old index x Hx) as [s0 S0].
  eapply cpu_card_no_wrong_colour; eauto.
Qed.

Lemma synced_startGame (s0 : State) (dom0 : Dom.t) :
  synced (startGame s0) (startGame_dom s0 dom0).
Proof.
  unfold startGame_dom. cbv zeta. constructor;
    cbn [set_resultDisplay updateConfirmButton set_confirmButton_disabled
           updateTurnDisplay updateScoreDisplays
           Dom.playerCardElements Dom.cpuCardElements Dom.confirmButton
           Dom.playerScoreDisplay Dom.cpuScoreDisplay Dom.highScoreDisplay
           Dom.turnDisplay Dom.resultDisplay].
  - intros index el. apply render_player_ok.
  - intros index el. apply render_cpu_ok. now left.
  - intros el H. apply option_map_Some in H as (x & _ & ->). reflexivity.
  - intros el H. apply option_map_Some in H as (x & _ & ->). reflexivity.
  - intros el H. apply option_map_Some in H as (x & _ & ->). reflexivity.
  - intros el H. apply option_map_Some in H as (x & _ & ->). reflexivity.
  - intros el H. apply option_map_Some in H as (x & _ & ->).
    apply turn_text_written.
  - intros el H. apply option_map_Some in H as (x & _ & ->).
    cbn. split; reflexivity.
Qed.

Lemma synced_card_click (s : State) (dom : Dom.t) (v : option Z) :
  isLocked s = false -> gamePhase s = selection ->
  synced s dom ->
  synced (set_playerSelectedCard v s)
    (updateConfirmButton (set_playerSelectedCard v s)
       (renderCards (set_playerSelectedCard v s) dom)).
Proof.
  intros L P [Sp Sc Sb S1 S2 S3 St Sr]. constructor;
    cbn [updateConfirmButton set_confirmButton_disabled
           Dom.playerCardElements Dom.cpuCardElements Dom.confirmButton
           Dom.playerScoreDisplay Dom.cpuScoreDisplay Dom.highScoreDisplay
           Dom.turnDisplay Dom.resultDisplay].
  - intros index el. apply render_player_ok.
  - intros index el. apply render_cpu_ok. right. eauto.
  - intros el H. apply option_map_Some in H as (x & _ & ->). reflexivity.
  - exact S1.
  - exact S2.
  - exact S3.
  - exact St.
  - intros el H. eapply result_synced_ext; [.. | apply (Sr el H)]; reflexivity.
Qed.

Lemma synced_confirm (s : State) (dom : Dom.t) :
  gamePhase s = selection ->
  synced s dom ->
  synced (set_isLocked true s)
    (set_resultDisplay "CPU is thinking..." ["result-display"%string]
       (set_confirmButton_disabled true dom)).
Proof.
  intros P [Sp Sc Sb S1 S2 S3 St Sr]. constructor;
    cbn [set_resultDisplay set_confirmButton_disabled
           Dom.playerCardElements Dom.cpuCardElements Dom.confirmButton
           Dom.playerScoreDisplay Dom.cpuScoreDisplay Dom.highScoreDisplay
           Dom.turnDisplay Dom.resultDisplay].
  - intros index el H. eapply player_card_synced_ext; [.. | apply (Sp index el H)];
      reflexivity.
  - intros index el H. eapply cpu_card_synced_ext; [| apply (Sc index el H)];
      reflexivity.
  - intros el H. apply option_map_Some in H as (x & _ & ->).
    cbn. now destruct (playerSelectedCard s).
  - exact S1.
  - exact S2.
  - exact S3.
  - exact St.
  - intros el H. apply option_map_Some in H as (x & _ & ->).
    unfold result_synced. cbn. rewrite P. split; reflexivity.
Qed.

Lemma synced_reveal (s s' : State) (dom : Dom.t) (p q : Z) :
  isLocked s = true ->
  playerSelectedCard s = Some p ->
  revealCards (cards_played p q s) = Some s' ->
  synced s dom ->
  synced s' (revealCards_dom (cards_played p q s) dom).
Proof.
  intros L Sel R [Sp Sc Sb S1 S2 S3 St Sr].
  unfold revealCards_dom. rewrite R.
  unfold revealCards in R.
  cbn [cards_played lastPlayerCard lastCpuCard] in *. rewrite Sel in *.
  injection R as <-.
  constructor;
    cbn [set_resultDisplay updateScoreDisplays
           Dom.playerCardElements Dom.cpuCardElements Dom.confirmButton
           Dom.playerScoreDisplay Dom.cpuScoreDisplay Dom.highScoreDisplay
           Dom.turnDisplay Dom.resultDisplay].
  - intros index el H. apply render_player_ok in H.
    eapply player_card_synced_ext; [.. | exact H]; reflexivity.
  - intros index el H. apply render_cpu_ok in H; [| right; eauto].
    eapply cpu_card_synced_ext; [| exact H]; reflexivity.
  - intros el H. rewrite (Sb el H). cbn. rewrite L.
    now rewrite !orb_true_r.
  - intros el H. apply option_map_Some in H as (x & _ & ->). reflexivity.
  - intros el H. apply option_map_Some in H as (x & _ & ->). reflexivity.
  - intros el H. apply option_map_Some in H as (x & _ & ->). reflexivity.
  - exact St.
  - intros el H. apply option_map_Some in H as (x & _ & ->).
    unfold result_synced. cbn. exists p, q. repeat split.
Qed.

Lemma synced_nextTurn (s : State) (dom : Dom.t) :
  synced s dom -> synced (nextTurn s) (nextTurn_dom s dom).
Proof.
  intros [Sp Sc Sb S1 S2 S3 St Sr]. unfold nextTurn_dom. cbv zeta. constructor;
    cbn [set_resultDisplay updateConfirmButton set_confirmButton_disabled
           Dom.playerCardElements Dom.cpuCardElements Dom.confirmButton
           Dom.playerScoreDisplay Dom.cpuScoreDisplay Dom.highScoreDisplay
           Dom.turnDisplay Dom.resultDisplay].
  - intros index el. apply render_player_ok.
  - intros index el. apply render_cpu_ok. right. eauto.
  - intros el H. apply option_map_Some in H as (x & _ & ->). reflexivity.
  - exact S1.
  - exact S2.
  - exact S3.
  - intros el H. apply option_map_Some in H as (x & _ & ->).
    apply turn_text_written.
  - intros el H. apply option_map_Some in H as (x & _ & ->).
    cbn. split; reflexivity.
Qed.

Lemma synced_complete (s : State) (dom : Dom.t) :
  gamePhase s = reveal ->
  synced s dom ->
  synced (if Spec.beats_record (playerScore s) (highScore s)
          then set_highScore (Some (playerScore s)) (endGame s)
          else endGame s)
    (handleGameComplete_dom s dom).
Proof.
  intros P [Sp Sc Sb S1 S2 S3 St Sr].
  unfold handleGameComplete_dom, checkAndSaveHighScore_dom.
  change (set_isLocked true (set_gamePhase complete s)) with (endGame s).
  change (playerScore (endGame s)) with (playerScore s).
  change (highScore (endGame s)) with (highScore s).
  assert (match highScore s with
          | Some best => playerScore s >? best
          | None => true
          end = Spec.beats_record (playerScore s) (highScore s)) as ->.
  { unfold Spec.beats_record. destruct (highScore s); [apply Z.gtb_ltb | reflexivity]. }
  assert (forall el, Dom.resultDisplay dom = Some el ->
            forall s', gamePhase s' = complete ->
              lastPlayerCard s' = lastPlayerCard s ->
              lastCpuCard s' = lastCpuCard s ->
              lastRoundResult s' = lastRoundResult s ->
              result_synced s' el) as Res.
  { intros el H s' P' E1 E2 E3. specialize (Sr el H).
    unfold result_synced in *. rewrite P in Sr. rewrite P', E1, E2, E3.
    destruct (isLocked s), (isLocked s'); exact Sr. }
  destruct (Spec.beats_record (playerScore s) (highScore s)); constructor;
    cbn [updateScoreDisplays
           Dom.playerCardElements Dom.cpuCardElements Dom.confirmButton
           Dom.playerScoreDisplay Dom.cpuScoreDisplay Dom.highScoreDisplay
           Dom.turnDisplay Dom.resultDisplay];
    try exact Sp; try exact Sc; try exact S1; try exact S2; try exact S3;
    try exact St;
    try (intros el H; apply option_map_Some in H as (x & _ & ->); reflexivity);
    try (intros el H; rewrite (Sb el H); cbn; rewrite P;
         now rewrite !orb_true_r);
    try (intros el H; apply (Res el H); reflexivity).
Qed.

Lemma synced_handleCardClick (index : nat) (s s' : State) (dom : Dom.t) :
  handleCardClick index s = Returned s' -> synced s dom ->
  synced s' (handleCardClick_dom index s dom).
Proof.
  unfold handleCardClick, handleCardClick_dom.
  destruct (isLocked s) eqn:L; [now intros [= <-] |].
  destruct (gamePhase s) eqn:P; cbn [Phase_eqb negb]; try (now intros [= <-]).
  destruct (Js.includes _ _); [now intros [= <-] |].
  destruct (selected_is _ _); intros [= <-]; now apply synced_card_click.
Qed.

Lemma synced_handleConfirm (s s' : State) (k : option Cont) (dom : Dom.t) :
  handleConfirm s = Returned (s', k) -> synced s dom ->
  synced s' (handleConfirm_dom s dom).
Proof.
  unfold handleConfirm, handleConfirm_dom.
  destruct (isLocked s) eqn:L; [now intros [= <- <-] |].
  destruct (playerSelectedCard s); [| now intros [= <- <-]].
  destruct (gamePhase s) eqn:P; cbn [Phase_eqb negb];
    try (now intros [= <- <-]).
  intros [= <- <-]. now apply synced_confirm.
Qed.

Section PageFacts.

Variable random : nat -> Q.
Context {Store : Type} {service : GameDataService Store}.

Lemma synced_afterThinking (s s' : State) (k n : nat) (dom : Dom.t) :
  isLocked s = true ->
  handleConfirm_afterThinking random s k = (Some s', n) -> synced s dom ->
  synced s' (handleConfirm_afterThinking_dom random s k dom).
Proof.
  intros L. unfold handleConfirm_afterThinking, handleConfirm_afterThinking_dom,
    bind, ret.
  destruct (cpuSelectCard random s k) as [v k']. cbn [fst].
  destruct v as [q | |]; try discriminate.
  destruct (playerSelectedCard s) as [p |] eqn:Sel; try discriminate.
  intros [= R <-] S. apply synced_reveal; trivial.
  unfold cards_played. rewrite Sel, <- R. reflexivity.
Qed.

Lemma exec_synced (e : Event) (c c' : Config) (dom : Dom.t) :
  Inv c -> synced (st c) dom -> exec random e c = Some c' ->
  synced (st c') (exec_dom random e c dom).
Proof.
  intros I S E.
  destruct (exec_inv random e c c' I E)
    as [(index & s' & -> & Hi & H & ->) |
        [(s' & k & -> & H & ->) |
         [(s' & n' & -> & Q & H & ->) |
          [(s' & d' & calls & cb & -> & Q & T & H & ->) |
           [(-> & Q & T & ->) | (w & msg & flag & -> & Q & ->)]]]]];
    cbn [st exec_dom]; rewrite ?Q; cbn [nth_error].
  - apply Nat.ltb_lt in Hi. rewrite Hi. now apply synced_handleCardClick.
  - eapply synced_handleConfirm; eauto.
  - eapply synced_afterThinking; eauto.
    apply (pending_locked c I). rewrite Q. discriminate.
  - replace (currentTurn (st c) >=? 9) with true by lia.
    rewrite handleGameComplete_result in H. injection H as <- _ _ _.
    apply synced_complete; trivial.
    destruct I as [_ C]. unfold control_ok in C. rewrite Q in C.
    destruct (gamePhase (st c)), (isLocked (st c)); try contradiction.
    reflexivity.
  - replace (currentTurn (st c) >=? 9) with false by lia.
    now apply synced_nextTurn.
  - exact S.
Qed.

Lemma page_reachable_synced (c : Config) (dom : Dom.t) :
  page_reachable random c dom -> reachable random c /\ synced (st c) dom.
Proof.
  induction 1 as [s0 d n dom0 | e c c' dom R [IHr IHs] E].
  - split; [constructor | apply synced_startGame].
  - split; [eapply reach_step; eauto |].
    apply exec_synced; trivial. now apply (reachable_Inv random).
Qed.

End PageFacts.

Section PageTheorems.

Variable random : nat -> Q.
Context {Store : Type} {service : GameDataService Store}.

Lemma run_page_reachable (es : list Event) (c c' : Config) (dom dom' : Dom.t) :
  page_reachable random c dom ->
  run_page random es c dom = Some (c', dom') ->
  page_reachable random c' dom'.
Proof.
  revert c dom. induction es as [| e es IH]; intros c dom R; cbn [run_page].
  - now intros [= <- <-].
  - destruct (exec random e c) as [c1 |] eqn:E; [| discriminate].
    apply IH. now apply page_step.
Qed.

(** X9: on every page reached in a match the node of player card [v]
    (node [index], [v = index + 1]) carries the value [v] as text and as
    [data-value]; it has class [used] exactly when [v] is in
    [playerUsedCards], class [selected] exactly when [v] is the selected
    card, class [red] exactly when [v] is odd and class [black] exactly
    when [v] is even. *)
Theorem player_card_nodes_show_state (c : Config) (dom : Dom.t) (index : nat)
    (el : Dom.Element) :
  page_reachable random c dom ->
  nth_error (Dom.playerCardElements dom) index = Some el ->
  player_card_synced (st c) index el.
Proof.
  intros R H. destruct (page_reachable_synced random c dom R) as [_ S].
  exact (sync_player _ _ S index el H).
Qed.

(** X10: on every page reached in a match the node of CPU card [v] stays
    face down until the CPU has played [v]: while [v] is not in
    [cpuUsedCards] its text is [?] and it has none of the classes [used],
    [red], [black]; once [v] is used it shows [v], has class [used] and
    has the colour class of [v] and not the other one. *)
Theorem cpu_card_nodes_hide_unplayed_cards (c : Config) (dom : Dom.t)
    (index : nat) (el : Dom.Element) :
  page_reachable random c dom ->
  nth_error (Dom.cpuCardElements dom) index = Some el ->
  cpu_card_synced (st c) index el.
Proof.
  intros R H. destruct (page_reachable_synced random c dom R) as [_ S].
  exact (sync_cpu _ _ S index el H).
Qed.

(** X11: on every page reached in a match the three score displays show
    the current [playerScore], [cpuScore] and high score, the last one as
    [--] while there is none. *)
Theorem score_displays_show_scores (c : Config) (dom : Dom.t) :
  page_reachable random c dom ->
  (forall el, Dom.playerScoreDisplay dom = Some el ->
     Dom.textContent el = Js.show (playerScore (st c))) /\
  (forall el, Dom.cpuScoreDisplay dom = Some el ->
     Dom.textContent el = Js.show (cpuScore (st c))) /\
  (forall el, Dom.highScoreDisplay dom = Some el ->
     Dom.textContent el = match highScore (st c) with
                          | Some best => Js.show best
                          | None => "--"%string
                          end).
Proof.
  intros R. destruct (page_reachable_synced random c dom R) as [_ S].
  repeat split.
  - exact (sync_playerScore _ _ S).
  - exact (sync_cpuScore _ _ S).
  - exact (sync_highScore _ _ S).
Qed.

(** X12: on every page reached in a match the turn display reads
    [Turn n/9 - Your turn] when the current turn [n] is odd and
    [Turn n/9 - CPU's turn] when it is even. *)
Theorem turn_display_shows_turn (c : Config) (dom : Dom.t) (el : Dom.Element) :
  page_reachable random c dom ->
  Dom.turnDisplay dom = Some el ->
  Dom.textContent el
  = ("Turn " ++ Js.show (currentTurn (st c)) ++ "/9 - "
     ++ if Z.odd (currentTurn (st c)) then "Your turn" else "CPU's turn")%string.
Proof.
  intros R H. destruct (page_reachable_synced random c dom R) as [Rc S].
  rewrite (sync_turn _ _ S el H). unfold turn_text.
  now rewrite (isPlayerTurn_odd random c Rc).
Qed.

End PageTheorems.

Lemma card_pending_page_reachable :
  page_reachable (service := cell_service) tenths card_pending card_pending_page.
Proof.
  apply (run_page_reachable tenths [CardClick 4] fresh_match _ fresh_page).
  - apply page_start.
  - vm_compute. reflexivity.
Qed.

Lemma three_played_page_reachable :
  page_reachable (service := cell_service) tenths three_played three_played_page.
Proof.
  apply (run_page_reachable tenths (play_turn 2) fresh_match _ fresh_page).
  - apply page_start.
  - vm_compute. reflexivity.
Qed.

Lemma last_reveal_page_reachable :
  page_reachable (service := cell_service) tenths last_reveal last_reveal_page.
Proof.
  apply (run_page_reachable tenths (removelast descending_match)
           fresh_match _ fresh_page).
  - apply page_start.
  - vm_compute. reflexivity.
Qed.

Lemma player_first_on_odd_turns_witness :
  isPlayerTurn (st three_played) = Z.odd (currentTurn (st three_played)).
Proof.
  apply (player_first_on_odd_turns tenths (service := cell_service) three_played).
  exact three_played_reachable.
Defined.




Lemma match_can_be_finished_witness :
  exists es c',
    run (service := cell_service) tenths es three_played = Some c' /\
    gamePhase (st c') = complete /\
    Z.of_nat (List.length es) <= 32.
Proof.
  apply (match_can_be_finished tenths (service := cell_service) three_played).
  - exact tenths_unit.
  - exact three_played_reachable.
Defined.

Lemma player_card_nodes_show_state_witness :
  exists el,
    nth_error (Dom.playerCardElements card_pending_page) 4 = Some el /\
    player_card_synced (st card_pending) 4 el.
Proof.
  eexists. split; [reflexivity |].
  apply (player_card_nodes_show_state tenths (service := cell_service)
           card_pending card_pending_page).
  - exact card_pending_page_reachable.
  - reflexivity.
Defined.

Lemma cpu_card_nodes_hide_unplayed_cards_witness :
  exists el,
    nth_error (Dom.cpuCardElements three_played_page) 4 = Some el /\
    cpu_card_synced (st three_played) 4 el.
Proof.
  eexists. split; [reflexivity |].
  apply (cpu_card_nodes_hide_unplayed_cards tenths (service := cell_service)
           three_played three_played_page).
  - exact three_played_page_reachable.
  - reflexivity.
Defined.

Lemma score_displays_show_scores_witness :
  exists el,
    Dom.playerScoreDisplay last_reveal_page = Some el /\
    Dom.textContent el = "29"%string.
Proof.
  eexists. split; [reflexivity |].
  destruct (score_displays_show_scores tenths (service := cell_service)
              last_reveal last_reveal_page last_reveal_page_reachable)
    as (A & _).
  apply A. reflexivity.
Defined.

Lemma turn_display_shows_turn_witness :
  exists el,
    Dom.turnDisplay three_played_page = Some el /\
    Dom.textContent el = "Turn 2/9 - CPU's turn"%string.
Proof.
  eexists. split; [reflexivity |].
  apply (turn_display_shows_turn tenths (service := cell_service)
           three_played three_played_page).
  - exact three_played_page_reachable.
  - reflexivity.
Defined.

(** ** Helpers *)








(** ** Rounding *)

Lemma nearest_even_bound : forall q : Q,
  (q - (1 # 2) <= inject_Z (Double.nearest_even q) <= q + (1 # 2))%Q.
Proof.
  intros q. unfold Double.nearest_even.
  pose proof (Qfloor_le q) as Hlo. pose proof (Qlt_floor q) as Hhi.
  rewrite inject_Z_plus in Hhi. change (inject_Z 1) with 1%Q in Hhi.
  destruct (Qcompare_spec (q - inject_Z (Qfloor q)) (1 # 2)) as [He | Hl | Hg].
  - destruct (Z.even (Qfloor q)).
    + split; lra.
    + rewrite inject_Z_plus. change (inject_Z 1) with 1%Q. split; lra.
  - split; lra.
  - rewrite inject_Z_plus. change (inject_Z 1) with 1%Q. split; lra.
Qed.

Lemma nearest_even_nonneg : forall q : Q, (0 <= q)%Q -> 0 <= Double.nearest_even q.
Proof.
  intros q Hq. unfold Double.nearest_even.
  assert (0 <= Qfloor q).
  { change 0 with (Qfloor 0). apply Qfloor_resp_le. exact Hq. }
  destruct (q - inject_Z (Qfloor q) ?= 1 # 2)%Q; try lia.
  destruct (Z.even (Qfloor q)); lia.
Qed.

Lemma nearest_even_zero : forall q : Q, (q == 0)%Q -> Double.nearest_even q = 0.
Proof.
  intros q Hq. unfold Double.nearest_even.
  assert (Hf : Qfloor q = 0) by (rewrite Hq; reflexivity).
  rewrite Hf.
  assert (Hc : (q - inject_Z 0 ?= 1 # 2)%Q = Lt).
  { rewrite <- Qlt_alt. rewrite Hq. reflexivity. }
  rewrite Hc. reflexivity.
Qed.

Lemma pow2_pos : forall e : Z, (0 < 2 ^ e)%Q.
Proof. intros e. apply Qpower_0_lt. reflexivity. Qed.

Lemma pow2_add : forall a b : Z, (2 ^ (a + b) == 2 ^ a * 2 ^ b)%Q.
Proof. intros a b. apply Qpower_plus. discriminate. Qed.

Lemma pow2_le : forall a b : Z, a <= b -> (2 ^ a <= 2 ^ b)%Q.
Proof. intros a b H. apply Qpower_le_compat_l; [exact H | discriminate]. Qed.

Lemma pow2_lt : forall a b : Z, a < b -> (2 ^ a < 2 ^ b)%Q.
Proof. intros a b H. apply Qpower_lt_compat_l; [exact H | reflexivity]. Qed.

Lemma pow2_lt_inv : forall a b : Z, (2 ^ a < 2 ^ b)%Q -> a < b.
Proof. intros a b H. apply Qpower_lt_compat_l_inv with (q := 2%Q); [exact H | reflexivity]. Qed.

(** The error of one rounding is at most half a unit in the last place. *)
Lemma round_error : forall x : Q,
  (x - 2 ^ (Double.ulp_exp x) * (1 # 2) <= Double.round x
   <= x + 2 ^ (Double.ulp_exp x) * (1 # 2))%Q.
Proof.
  intros x. unfold Double.round. cbv zeta.
  set (e := Double.ulp_exp x).
  pose proof (pow2_pos e) as Hp.
  pose proof (nearest_even_bound (x / 2 ^ e)) as [Hlo Hhi].
  assert (Hx : (x == (x / 2 ^ e) * 2 ^ e)%Q).
  { field. intros H. rewrite H in Hp. inversion Hp. }
  set (q := (x / 2 ^ e)%Q) in *.
  set (m := inject_Z (Double.nearest_even q)) in *.
  split.
  - apply Qle_trans with ((q - (1 # 2)) * 2 ^ e)%Q.
    + rewrite Hx at 1. apply Qle_lteq. right. ring.
    + apply Qmult_le_compat_r; [exact Hlo | apply Qlt_le_weak; exact Hp].
  - apply Qle_trans with ((q + (1 # 2)) * 2 ^ e)%Q.
    + apply Qmult_le_compat_r; [exact Hhi | apply Qlt_le_weak; exact Hp].
    + rewrite Hx at 1. apply Qle_lteq. right. ring.
Qed.

Lemma round_nonneg : forall x : Q, (0 <= x)%Q -> (0 <= Double.round x)%Q.
Proof.
  intros x Hx. unfold Double.round. cbv zeta.
  apply Qmult_le_0_compat.
  - change 0%Q with (inject_Z 0). rewrite <- Zle_Qle.
    apply nearest_even_nonneg.
    apply Qle_shift_div_l; [apply pow2_pos |].
    rewrite Qmult_0_l. exact Hx.
  - apply Qlt_le_weak, pow2_pos.
Qed.

Lemma round_zero : forall x : Q, (x == 0)%Q -> (Double.round x == 0)%Q.
Proof.
  intros x Hx. unfold Double.round. cbv zeta.
  generalize (Double.ulp_exp x). intros e.
  rewrite nearest_even_zero.
  - ring.
  - rewrite Hx. unfold Qdiv. ring.
Qed.

Lemma pow2_inject : forall n : Z, 0 <= n -> (inject_Z (2 ^ n) == 2 ^ n)%Q.
Proof. intros n Hn. rewrite Zpower_Qpower by exact Hn. reflexivity. Qed.

Lemma log2_bounds : forall a : Z, 0 < a ->
  (2 ^ Z.log2 a <= inject_Z a /\ inject_Z a < 2 * 2 ^ Z.log2 a)%Q.
Proof.
  intros a Ha. destruct (Z.log2_spec a Ha) as [Hlo Hhi].
  pose proof (Z.log2_nonneg a) as Hn.
  split.
  - rewrite <- pow2_inject by exact Hn. rewrite <- Zle_Qle. exact Hlo.
  - replace (2 * 2 ^ Z.log2 a)%Q with (2 ^ 1 * 2 ^ Z.log2 a)%Q by reflexivity.
    rewrite <- pow2_add. rewrite <- pow2_inject by lia.
    rewrite <- Zlt_Qlt. replace (1 + Z.log2 a) with (Z.succ (Z.log2 a)) by lia.
    exact Hhi.
Qed.

(** [ilog2 x] is the integer part of the binary logarithm of [x]. *)
Lemma ilog2_spec : forall x : Q, (0 < x)%Q ->
  (2 ^ Double.ilog2 x <= x /\ x < 2 * 2 ^ Double.ilog2 x)%Q.
Proof.
  intros x Hx.
  assert (Ha : 0 < Qnum x).
  { unfold Qlt in Hx. simpl in Hx. lia. }
  destruct (log2_bounds (Qnum x) Ha) as [Ha1 Ha2].
  destruct (log2_bounds (Zpos (Qden x)) (Pos2Z.is_pos _)) as [Hb1 Hb2].
  set (A := Z.log2 (Qnum x)) in *. set (B := Z.log2 (Zpos (Qden x))) in *.
  pose proof (pow2_pos A) as HA. pose proof (pow2_pos B) as HB.
  assert (Hxd : (x == inject_Z (Qnum x) / inject_Z (Zpos (Qden x)))%Q).
  { destruct x as [a b]. simpl. apply Qmake_Qdiv. }
  set (qa := inject_Z (Qnum x)) in *. set (qb := inject_Z (Zpos (Qden x))) in *.
  assert (Hqb : (0 < qb)%Q) by lra.
  assert (Hsub : (2 ^ (A - B) == 2 ^ A / 2 ^ B)%Q).
  { apply Qpower_minus. discriminate. }
  assert (Hsub1 : (2 * 2 ^ (A - B - 1) == 2 ^ (A - B))%Q).
  { replace (A - B) with (1 + (A - B - 1)) at 2 by lia. rewrite pow2_add. reflexivity. }
  assert (Hup : (x < 2 * 2 ^ (A - B))%Q).
  { rewrite Hxd, Hsub. apply Qlt_shift_div_r; [exact Hqb |].
    assert (E : (2 * (2 ^ A / 2 ^ B) * qb == (2 * 2 ^ A * qb) / 2 ^ B)%Q).
    { field. intros H. rewrite H in HB. inversion HB. }
    rewrite E. apply Qlt_shift_div_l; [exact HB |]. nra. }
  assert (Hdown : (2 ^ (A - B - 1) <= x)%Q).
  { assert (E : (2 ^ (A - B - 1) == 2 ^ A / (2 * 2 ^ B))%Q).
    { apply Qmult_inj_l with (z := 2%Q); [discriminate |].
      rewrite Hsub1, Hsub. field. intros H. rewrite H in HB. inversion HB. }
    rewrite E, Hxd. apply Qle_shift_div_l; [exact Hqb |].
    assert (E2 : (2 ^ A / (2 * 2 ^ B) * qb == (2 ^ A * qb) / (2 * 2 ^ B))%Q).
    { field. intros H. rewrite H in HB. inversion HB. }
    rewrite E2. apply Qle_shift_div_r; [lra |]. nra. }
  unfold Double.ilog2. cbv zeta. fold A B.
  destruct (Qle_bool (2 ^ (A - B)) x) eqn:E.
  - apply Qle_bool_iff in E. split; assumption.
  - assert (Hlt : (x < 2 ^ (A - B))%Q).
    { apply Qnot_le_lt. intros H. apply Qle_bool_iff in H. congruence. }
    split; [exact Hdown |]. rewrite Hsub1. exact Hlt.
Qed.

Lemma ilog2_unique : forall (x : Q) (e : Z), (0 < x)%Q ->
  (2 ^ e <= x)%Q -> (x < 2 * 2 ^ e)%Q -> Double.ilog2 x = e.
Proof.
  intros x e Hx Hlo Hhi.
  destruct (ilog2_spec x Hx) as [Ilo Ihi].
  assert (H1 : (2 ^ e < 2 ^ (Double.ilog2 x + 1))%Q).
  { rewrite Z.add_comm, pow2_add. change (2 ^ 1)%Q with 2%Q. lra. }
  assert (H2 : (2 ^ Double.ilog2 x < 2 ^ (e + 1))%Q).
  { rewrite Z.add_comm, pow2_add. change (2 ^ 1)%Q with 2%Q. lra. }
  apply pow2_lt_inv in H1. apply pow2_lt_inv in H2. lia.
Qed.

Lemma Qabs_nonneg_eq : forall x : Q, (0 <= x)%Q -> Qabs x = x.
Proof.
  intros [a b] H. unfold Qle in H. cbn in H. cbn. f_equal. lia.
Qed.

(** Half a unit in the last place of [x] is at most [x * 2^-53], or
    [2^-1075] for the smallest numbers. *)
Lemma half_ulp_bound : forall x : Q, (0 < x)%Q ->
  (2 ^ Double.ulp_exp x * (1 # 2) <= x * 2 ^ (-53) + 2 ^ (-1075))%Q.
Proof.
  intros x Hx. unfold Double.ulp_exp.
  rewrite Qabs_nonneg_eq by (apply Qlt_le_weak; exact Hx).
  destruct (ilog2_spec x Hx) as [Hlo _].
  pose proof (pow2_pos (-53)) as P53. pose proof (pow2_pos (-1075)) as P1075.
  unfold Double.prec, Double.emin.
  destruct (Z.max_spec (Double.ilog2 x - (53 - 1)) (-1074)) as [[_ ->] | [_ ->]].
  - assert (E : (2 ^ (-1074) * (1 # 2) == 2 ^ (-1075))%Q).
    { replace (-1074) with (1 + -1075) by lia. rewrite pow2_add.
      change (2 ^ 1)%Q with 2%Q. field. }
    rewrite E.
    assert (0 <= x * 2 ^ (-53))%Q by (apply Qmult_le_0_compat; lra). lra.
  - assert (E : (2 ^ (Double.ilog2 x - (53 - 1)) * (1 # 2)
                 == 2 ^ Double.ilog2 x * 2 ^ (-53))%Q).
    { replace (Double.ilog2 x - (53 - 1)) with (Double.ilog2 x + (1 + -53)) by lia.
      rewrite !pow2_add. change (2 ^ 1)%Q with 2%Q. field. }
    rewrite E.
    assert (2 ^ Double.ilog2 x * 2 ^ (-53) <= x * 2 ^ (-53))%Q
      by (apply Qmult_le_compat_r; lra).
    lra.
Qed.

(** One rounding moves a number that is not negative by at most its
    2^-53rd part, or by 2^-1075. *)
Lemma round_close : forall x : Q, (0 <= x)%Q ->
  (x - (x * 2 ^ (-53) + 2 ^ (-1075)) <= Double.round x
   <= x + (x * 2 ^ (-53) + 2 ^ (-1075)))%Q.
Proof.
  intros x Hx.
  pose proof (pow2_pos (-53)) as P53. pose proof (pow2_pos (-1075)) as P1075.
  destruct (Qlt_le_dec 0 x) as [Hp | Hz].
  - pose proof (round_error x) as [Hlo Hhi].
    pose proof (half_ulp_bound x Hp). split; lra.
  - assert (Hx0 : (x == 0)%Q) by lra.
    pose proof (round_zero x Hx0) as R.
    assert (0 <= x * 2 ^ (-53))%Q by (apply Qmult_le_0_compat; lra).
    split; lra.
Qed.

(** The numbers below 1 end at [1 - 2^-53]. *)
Lemma below_one : forall r : Q,
  Double.representable r -> (0 <= r)%Q -> (r < 1)%Q -> (r <= 1 - 2 ^ (-53))%Q.
Proof.
  intros r Hr H0 H1.
  assert (C53 : (2 ^ (-53) == 1 # 9007199254740992)%Q) by reflexivity.
  destruct (Qlt_le_dec r (1 # 2)) as [Hs | Hb].
  - rewrite C53. lra.
  - assert (Hp : (0 < r)%Q) by lra.
    assert (Hi : Double.ilog2 r = -1).
    { apply ilog2_unique; [exact Hp | |].
      - change (2 ^ (-1))%Q with (1 # 2)%Q. exact Hb.
      - change (2 ^ (-1))%Q with (1 # 2)%Q. lra. }
    unfold Double.representable, Double.round, Double.ulp_exp in Hr.
    cbv zeta in Hr. rewrite Qabs_nonneg_eq in Hr by exact H0.
    rewrite Hi in Hr. change (Z.max (-1 - (Double.prec - 1)) Double.emin) with (-53) in Hr.
    set (m := Double.nearest_even (r / 2 ^ (-53))) in Hr.
    assert (Hm : m < 9007199254740992).
    { rewrite Zlt_Qlt. rewrite C53 in Hr.
      change (inject_Z 9007199254740992) with (9007199254740992 # 1)%Q. lra. }
    assert (Hm' : (inject_Z m <= 9007199254740991 # 1)%Q).
    { change (9007199254740991 # 1)%Q with (inject_Z 9007199254740991).
      rewrite <- Zle_Qle. lia. }
    rewrite C53 in *. lra.
Qed.

(** The same for a factor [N] that is the integer [n]. *)
Lemma floor_round_range (r N : Q) (n : Z) :
  Double.representable r -> (0 <= r)%Q -> (r < 1)%Q ->
  (N == inject_Z n)%Q -> 0 < n ->
  0 <= Qfloor (Double.round (r * N)) < n.
Proof.
  intros Hr H0 H1 HNn Hn.
  assert (HN : (1 <= N)%Q).
  { rewrite HNn. change 1%Q with (inject_Z 1). rewrite <- Zle_Qle. lia. }
  assert (Hx : (0 <= r * N)%Q) by (apply Qmult_le_0_compat; lra).
  split.
  - change 0 with (Qfloor 0). apply Qfloor_resp_le. apply round_nonneg. exact Hx.
  - assert (Hlt : (Double.round (r * N) < N)%Q).
    { pose proof (below_one r Hr H0 H1) as Hb.
      assert (C53 : (2 ^ (-53) == 1 # 9007199254740992)%Q) by reflexivity.
      assert (HrN : (r * N <= (1 - 2 ^ (-53)) * N)%Q)
        by (apply Qmult_le_compat_r; lra).
      destruct (Qlt_le_dec 0 (r * N)) as [Hp | Hz].
      - pose proof (round_error (r * N)) as [_ Hhi].
        unfold Double.ulp_exp in Hhi.
        rewrite Qabs_nonneg_eq in Hhi by exact Hx.
        destruct (ilog2_spec (r * N) Hp) as [Ilo Ihi].
        unfold Double.prec, Double.emin in Hhi.
        destruct (Z.max_spec (Double.ilog2 (r * N) - (53 - 1)) (-1074))
          as [[Hc E] | [Hc E]]; rewrite E in Hhi; clear E.
        + assert (Double.ilog2 (r * N) <= -1022) by lia.
          assert (2 ^ Double.ilog2 (r * N) <= 2 ^ (-2))%Q by (apply pow2_le; lia).
          assert (2 ^ (-1074) <= 2 ^ (-2))%Q by (apply pow2_le; lia).
          change (2 ^ (-2))%Q with (1 # 4)%Q in *. lra.
        + assert (E : (2 ^ (Double.ilog2 (r * N) - (53 - 1)) * (1 # 2)
                       == 2 ^ Double.ilog2 (r * N) * 2 ^ (-53))%Q).
          { replace (Double.ilog2 (r * N) - (53 - 1))
              with (Double.ilog2 (r * N) + (1 + -53)) by lia.
            rewrite !pow2_add. change (2 ^ 1)%Q with 2%Q. field. }
          rewrite E in Hhi.
          assert (2 ^ Double.ilog2 (r * N) * 2 ^ (-53) <= r * N * 2 ^ (-53))%Q
            by (apply Qmult_le_compat_r; [exact Ilo | rewrite C53; lra]).
          rewrite C53 in *. lra.
      - assert (Hx0 : (r * N == 0)%Q) by lra.
        pose proof (round_zero (r * N) Hx0). lra. }
    pose proof (Qfloor_le (Double.round (r * N))) as Hf.
    rewrite Zlt_Qlt. rewrite <- HNn. lra.
Qed.

(** [Math.floor(r * n)] for a value [r] of [Math.random()] and a length
    [n] is an index below [n]. *)
Lemma floor_mul_double_range : forall (r : Q) (n : Z),
  Double.representable r -> (0 <= r)%Q -> (r < 1)%Q -> 0 < n ->
  0 <= Qfloor (Double.mul r (inject_Z n)) < n.
Proof.
  intros r n Hr H0 H1 Hn. unfold Double.mul.
  apply floor_round_range; trivial. reflexivity.
Qed.

Lemma nearest_even_integer (q : Q) (m : Z) :
  (q == inject_Z m)%Q -> Double.nearest_even q = m.
Proof.
  intros H. unfold Double.nearest_even.
  assert (Hf : Qfloor q = m) by (rewrite H; apply Qfloor_Z).
  rewrite Hf.
  assert (Hc : (q - inject_Z m ?= 1 # 2)%Q = Lt).
  { rewrite <- Qlt_alt. rewrite H. unfold Qminus. rewrite Qplus_opp_r. reflexivity. }
  now rewrite Hc.
Qed.

Lemma ilog2_integer (x : Q) (z : Z) :
  (x == inject_Z z)%Q -> 0 < z -> Double.ilog2 x = Z.log2 z.
Proof.
  intros H Hz. destruct (log2_bounds z Hz) as [Hlo Hhi].
  apply ilog2_unique; rewrite H; try assumption.
  change 0%Q with (inject_Z 0). rewrite <- Zlt_Qlt. exact Hz.
Qed.

(** An integer of magnitude at most 2^53 is a number. *)
Lemma round_integer (x : Q) (z : Z) :
  (x == inject_Z z)%Q -> Z.abs z <= 9007199254740992 ->
  (Double.round x == x)%Q.
Proof.
  intros H Hz. destruct (Z.eq_dec z 0) as [-> | Hnz].
  { rewrite (round_zero x H). symmetry. exact H. }
  assert (Ha : (Qabs x == inject_Z (Z.abs z))%Q).
  { rewrite H. destruct z; reflexivity. }
  assert (Hi : Double.ilog2 (Qabs x) = Z.log2 (Z.abs z))
    by (apply ilog2_integer; [exact Ha | lia]).
  pose proof (Z.log2_nonneg (Z.abs z)) as L0.
  assert (L53 : Z.log2 (Z.abs z) <= 53).
  { change 53 with (Z.log2 9007199254740992). apply Z.log2_le_mono. exact Hz. }
  unfold Double.round, Double.ulp_exp. cbv zeta. rewrite Hi.
  unfold Double.prec, Double.emin.
  rewrite Z.max_l by lia.
  set (L := Z.log2 (Z.abs z)) in *.
  pose proof (pow2_pos (L - (53 - 1))) as Pe.
  destruct (Z.le_gt_cases L 52) as [Hs | Hb].
  - assert (E : (x / 2 ^ (L - (53 - 1)) == inject_Z (z * 2 ^ (52 - L)))%Q).
    { rewrite inject_Z_mult, pow2_inject by lia. rewrite H.
      replace (L - (53 - 1)) with (- (52 - L)) by lia.
      rewrite Qpower_opp. field.
      intros F. pose proof (pow2_pos (52 - L)) as P. rewrite F in P. inversion P. }
    rewrite (nearest_even_integer _ _ E). rewrite <- E. field.
    intros F. rewrite F in Pe. inversion Pe.
  - assert (L = 53) by lia.
    assert (Habs : Z.abs z = 9007199254740992).
    { destruct (Z.log2_spec (Z.abs z) ltac:(lia)) as [Hlo _]. fold L in Hlo.
      replace L with 53 in Hlo by lia. change (2 ^ 53) with 9007199254740992 in Hlo.
      lia. }
    replace (L - (53 - 1)) with 1 in * by lia. change (2 ^ 1)%Q with 2%Q in *.
    assert (E : (x / 2 == inject_Z (z / 2))%Q).
    { rewrite H. destruct (Z.abs_spec z) as [[_ A] | [_ A]]; rewrite Habs in A.
      - subst z. reflexivity.
      - assert (z = -9007199254740992) by lia. subst z. reflexivity. }
    rewrite (nearest_even_integer _ _ E). rewrite <- E. field.
Qed.

Lemma eighths_double : double_source eighths.
Proof.
  intros k. unfold eighths.
  pose proof (Nat.mod_upper_bound k 8 ltac:(lia)) as H.
  destruct (k mod 8)%nat as [| [| [| [| [| [| [| [| n]]]]]]]]; try lia;
    (split; [vm_compute; reflexivity | split; vm_compute; congruence]).
Qed.

Example literal_0_6 :
  (Double.literal (6 # 10) == 5404319552844595 # 9007199254740992)%Q.
Proof. vm_compute. reflexivity. Qed.

(** ** The opponent strategy on rounded draws *)

Section RoundedStrategy.

Variable random : nat -> Q.

Lemma rounded_choice_In (X : list Z) (k : nat) (c : Z) :
  fst (Full.randomChoice random X k) = Js.Num c -> In c X.
Proof. cbn. apply get_Num_In. Qed.

Lemma rounded_choice_uniform (X : list Z) (k : nat) :
  double_source random -> X <> [] ->
  exists c, Full.randomChoice random X k = (Js.Num c, S k) /\
            Rules.uniform_pick X (random k) c.
Proof.
  intros Hu HX. destruct (Hu k) as (Hr & H0 & H1).
  assert (0 < Z.of_nat (List.length X)) as Hlen
    by (destruct X; [congruence | cbn [List.length]; lia]).
  pose proof (floor_mul_double_range _ _ Hr H0 H1 Hlen) as Hi.
  destruct (get_in_range X _ Hi) as [c Hc].
  exists c. split.
  - cbv [Full.randomChoice bind Math_random ret]. now rewrite Hc.
  - apply get_Num_nth in Hc as [_ Hn].
    exists (Z.to_nat (Qfloor (Double.mul (random k)
                                (inject_Z (Z.of_nat (List.length X)))))).
    split; [exact Hn |]. rewrite Z2Nat.id by lia. cbv zeta.
    set (x := (random k * inject_Z (Z.of_nat (List.length X)))%Q).
    assert (0 <= x)%Q as Hx.
    { apply Qmult_le_0_compat; [exact H0 |].
      change 0%Q with (inject_Z 0). rewrite <- Zle_Qle. lia. }
    pose proof (round_close x Hx) as [Rlo Rhi].
    pose proof (Qfloor_le (Double.round x)) as Flo.
    pose proof (Qlt_floor (Double.round x)) as Fhi.
    unfold Double.mul. fold x. unfold Rules.slack. split; lra.
Qed.

Lemma rounded_strategy_In (s : Full.State) (k : nat) (c : Z) :
  fst (Full.cpuSelectCard random s k) = Js.Num c -> In c (Full.cpuCards s).
Proof.
  unfold Full.cpuSelectCard.
  destruct (_ && _).
  { intros H. apply rounded_choice_In in H. eapply In_slice; eauto. }
  destruct (_ && _).
  { intros H. apply rounded_choice_In in H. eapply In_slice; eauto. }
  destruct (_ && _).
  { cbn. apply Math_max_Num_In. }
  destruct (_ >? 0).
  - cbv [bind Math_random]. destruct (Js.ltb _ _); intros H.
    + apply rounded_choice_In in H. apply filter_In in H. tauto.
    + now apply rounded_choice_In in H.
  - apply rounded_choice_In.
Qed.

End RoundedStrategy.

Lemma literal_0_6_close :
  ((6 # 10) - 2 ^ (-54) < Double.literal (6 # 10))%Q /\
  (Double.literal (6 # 10) < 6 # 10)%Q.
Proof. split; vm_compute; reflexivity. Qed.

Lemma ltb_below_0_6 (r : Q) :
  Js.ltb r (Double.literal (6 # 10)) = true -> Rules.below_0_6 r.
Proof.
  unfold Js.ltb, Rules.below_0_6. rewrite negb_true_iff. intros H.
  destruct literal_0_6_close as [_ L].
  apply Qlt_trans with (Double.literal (6 # 10)); [| exact L].
  apply Qnot_le_lt. intros F. apply Qle_bool_iff in F. congruence.
Qed.

Lemma ltb_not_below_0_6 (r : Q) :
  Js.ltb r (Double.literal (6 # 10)) = false -> Rules.not_below_0_6 r.
Proof.
  unfold Js.ltb, Rules.not_below_0_6. rewrite negb_false_iff. intros H.
  apply Qle_bool_iff in H.
  destruct literal_0_6_close as [L _].
  apply Qlt_le_weak. eapply Qlt_le_trans; eauto.
Qed.

(** Under the contract of [Math.random], [cpuSelectCard] on a non-empty
    array returns a number, one of the array. *)
Lemma rounded_strategy_member (random : nat -> Q) (s : Full.State) (k : nat) :
  double_source random ->
  Full.cpuCards s <> [] ->
  exists c, fst (Full.cpuSelectCard random s k) = Js.Num c /\
            In c (Full.cpuCards s).
Proof.
  intros Hu Hne.
  assert (exists c, fst (Full.cpuSelectCard random s k) = Js.Num c) as [c Hc].
  { unfold Full.cpuSelectCard.
    destruct (_ && _).
    { destruct (rounded_choice_uniform random _ k Hu (slice_last3_nonempty _ Hne))
        as (c & -> & _). now exists c. }
    destruct (_ && _).
    { destruct (rounded_choice_uniform random _ k Hu (slice_first3_nonempty _ Hne))
        as (c & -> & _). now exists c. }
    destruct (_ && _).
    { destruct (Math_max_spec _ Hne) as (m & E & _). exists m. exact E. }
    destruct (_ >? 0) eqn:Hmid.
    - cbv [bind Math_random]. destruct (Js.ltb _ _).
      + assert (filter (fun c => (c >=? 4) && (c <=? 6)) (Full.cpuCards s) <> [])
          as Hm by (apply nonempty_length; lia).
        destruct (rounded_choice_uniform random _ (S k) Hu Hm) as (c & -> & _).
        now exists c.
      + destruct (rounded_choice_uniform random _ (S k) Hu Hne) as (c & -> & _).
        now exists c.
    - destruct (rounded_choice_uniform random _ k Hu Hne) as (c & -> & _).
      now exists c. }
  exists c. split; [exact Hc |]. eapply rounded_strategy_In; eauto.
Qed.

(** C1: on an ascending, non-empty array of available cards, with integer
    scores, [scoreDiff = cpuScore - playerScore] and the current turn
    number, and with draws that are numbers in the unit interval,
    [cpuSelectCard] takes some number [n] of draws from the random source
    and returns a card [c] that the strategy of the specification picks
    with these draws: a uniform pick among the 3 highest cards when
    [scoreDiff < -15] and more than 3 cards are available; else a uniform
    pick among the 3 lowest when [scoreDiff > 15] and more than 3 cards are
    available; else the highest card, with no draw, when
    [10 - turnNumber <= 3] and [scoreDiff <= 0]; else, when the cards in
    4..6 are not empty and a first draw is below 0.6, a uniform pick among
    them; else a uniform pick among all available cards.  The engine rounds
    the product [Math.random() * array.length] and the literal [0.6]: a
    piece of a uniform pick ends within the 2^-53rd part of where an exact
    division of the unit interval ends, and the threshold is less than
    2^-54 below 6/10. *)
Theorem cpuSelectCard_follows_strategy (random : nat -> Q) (s : Full.State)
    (playerScore cpuScore : Z) (k : nat) :
  double_source random ->
  Full.playerScore s = JsNumber.Int playerScore ->
  Full.cpuScore s = JsNumber.Int cpuScore ->
  ascending (Full.cpuCards s) = true ->
  Full.cpuCards s <> [] ->
  exists (n : nat) (c : Z),
    Full.cpuSelectCard random s k = (Js.Num c, (k + n)%nat) /\
    Rules.chooseCard (Full.cpuCards s) (cpuScore - playerScore)
      (Full.currentTurn s) (map random (seq k n)) c.
Proof.
  intros Hu Ep Ec Hasc Hne.
  unfold Full.cpuSelectCard. cbv zeta. rewrite Ep, Ec.
  change (JsNumber.sub (JsNumber.Int cpuScore) (JsNumber.Int playerScore))
    with (JsNumber.Int (cpuScore - playerScore)).
  cbn [JsNumber.ltb JsNumber.gtb JsNumber.leb].
  rewrite <- (Z.gtb_ltb (cpuScore - playerScore) 15).
  destruct ((_ <? -15) && _) eqn:G1.
  { apply desperation_guard in G1.
    destruct (rounded_choice_uniform random _ k Hu (slice_last3_nonempty _ Hne))
      as (c & E & P).
    exists 1%nat, c. rewrite E, Nat.add_1_r. split; [reflexivity |].
    rewrite topN_slice in P by exact Hasc. now constructor. }
  assert (~ Spec.desperation (Full.cpuCards s) (cpuScore - playerScore)) as N1
    by (rewrite <- desperation_guard; congruence).
  destruct ((_ >? 15) && _) eqn:G2.
  { apply preservation_guard in G2.
    destruct (rounded_choice_uniform random _ k Hu (slice_first3_nonempty _ Hne))
      as (c & E & P).
    exists 1%nat, c. rewrite E, Nat.add_1_r. split; [reflexivity |].
    rewrite bottomN_slice in P by exact Hasc. now constructor. }
  assert (~ Spec.preservation (Full.cpuCards s) (cpuScore - playerScore)) as N2
    by (rewrite <- preservation_guard; congruence).
  destruct ((_ <=? 3) && _) eqn:G3.
  { apply endgame_guard in G3.
    destruct (Math_max_spec _ Hne) as (m & E & Hin & Hmax).
    exists 0%nat, m. cbv [ret]. rewrite E, Nat.add_0_r. split; [reflexivity |].
    now constructor. }
  assert (~ Spec.endgame (cpuScore - playerScore) (Full.currentTurn s)) as N3
    by (rewrite <- endgame_guard; congruence).
  rewrite middleCards_mid.
  destruct (_ >? 0) eqn:Hmid.
  - assert (Spec.mid (Full.cpuCards s) <> []) as Hm
      by (apply nonempty_length; lia).
    cbv [bind Math_random]. destruct (Js.ltb _ _) eqn:Hcoin.
    + apply ltb_below_0_6 in Hcoin.
      destruct (rounded_choice_uniform random _ (S k) Hu Hm) as (c & E & P).
      exists 2%nat, c. rewrite E. split; [f_equal; lia |].
      now apply Rules.balanced.
    + apply ltb_not_below_0_6 in Hcoin.
      destruct (rounded_choice_uniform random _ (S k) Hu Hne) as (c & E & P).
      exists 2%nat, c. rewrite E. split; [f_equal; lia |].
      now apply Rules.fallback_after_draw.
  - assert (Spec.mid (Full.cpuCards s) = []) as Hm.
    { destruct (Spec.mid (Full.cpuCards s)); [reflexivity | cbn in Hmid; lia]. }
    destruct (rounded_choice_uniform random _ k Hu Hne) as (c & E & P).
    exists 1%nat, c. rewrite E, Nat.add_1_r. split; [reflexivity |].
    now apply Rules.fallback.
Qed.

Lemma cpuSelectCard_follows_strategy_witness :
  exists (n : nat) (c : Z),
    Full.cpuSelectCard eighths desperate 5%nat = (Js.Num c, (5 + n)%nat) /\
    Rules.chooseCard [2; 3; 7; 8; 9] (0 - 20) 8 (map eighths (seq 5 n)) c.
Proof.
  apply (cpuSelectCard_follows_strategy eighths desperate 20 0 5%nat).
  - exact eighths_double.
  - reflexivity.
  - reflexivity.
  - reflexivity.
  - cbn. discriminate.
Defined.

(** The draw 0.3333333333333333 on the cards 7, 8, 9: the product with 3
    rounds to 1 and the card at index 1 is returned. *)
Example product_rounds_up :
  Full.cpuSelectCard (fun _ => Double.literal (3333333333333333 # 10000000000000000))
    three_high_cards 0%nat
  = (Js.Num 8, 1%nat).
Proof. vm_compute. reflexivity. Qed.

(** A draw equal to the number that [0.6] denotes is not below it: the
    fallback rule picks among all nine cards. *)
Example draw_at_threshold :
  Full.cpuSelectCard (fun _ => Double.literal (6 # 10)) Full.constructor_state 0%nat
  = (Js.Num 6, 2%nat).
Proof. vm_compute. reflexivity. Qed.

(** ** The session: New Game at any moment *)

(** On two cards [resolveRound] does what it does on integers. *)
Lemma resolveRound_cards (p : Full.PlayerCard) (q : Z) :
  Full.winner (Full.resolveRound p (Some (Js.Num q)))
  = winner (resolveRound (playerValue p) q) /\
  Full.playerPoints (Full.resolveRound p (Some (Js.Num q)))
  = JsNumber.Int (playerPoints (resolveRound (playerValue p) q)) /\
  Full.cpuPoints (Full.resolveRound p (Some (Js.Num q)))
  = JsNumber.Int (cpuPoints (resolveRound (playerValue p) q)).
Proof.
  unfold Full.resolveRound, resolveRound.
  assert (Full.playerNumber p = JsNumber.Int (playerValue p)) as ->
    by (destruct p; reflexivity).
  cbn [Full.cpuNumber JsNumber.gtb JsNumber.ltb JsNumber.add].
  rewrite <- !Z.gtb_ltb.
  destruct (playerValue p >? q); [cbn; tauto |].
  destruct (q >? playerValue p); cbn; tauto.
Qed.

Lemma full_includes_In (x : Z) (l : list Full.PlayerCard) :
  Full.includes x l = true <-> In (Some x) l.
Proof.
  unfold Full.includes. rewrite existsb_exists. split.
  - intros ([y |] & Hy & E); [| discriminate].
    cbn in E. apply Z.eqb_eq in E. now subst.
  - intros H. exists (Some x). split; [exact H | cbn; apply Z.eqb_refl].
Qed.

Lemma full_includes_push (x : Z) (v : Full.PlayerCard) (l : list Full.PlayerCard) :
  Full.includes x (Js.push v l) = Full.includes x l || selected_is v x.
Proof.
  unfold Full.includes, Js.push. rewrite existsb_app. cbn. now rewrite orb_false_r.
Qed.

Lemma left_to_player_push (used : list Full.PlayerCard) (v : Full.PlayerCard) :
  filter (fun x => negb (selected_is v x)) (left_to_player used)
  = left_to_player (Js.push v used).
Proof.
  unfold left_to_player. induction deck as [| y l IH]; [reflexivity |].
  cbn [filter]. rewrite full_includes_push.
  destruct (Full.includes y used); cbn [negb orb filter]; [exact IH |].
  destruct (selected_is v y); cbn [negb]; now rewrite IH.
Qed.

Lemma In_left_to_player (used : list Full.PlayerCard) (x : Z) :
  In x (left_to_player used) <-> 1 <= x <= 9 /\ ~ In (Some x) used.
Proof.
  unfold left_to_player. rewrite filter_In, deck_range, negb_true_iff.
  pose proof (full_includes_In x used) as H.
  destruct (Full.includes x used); intuition congruence.
Qed.

Lemma left_to_player_ascending (used : list Full.PlayerCard) :
  ascending (left_to_player used) = true.
Proof.
  apply strongly_sorted_ascending, filter_ascending.
  apply ascending_strongly_sorted. reflexivity.
Qed.

Lemma played_by_cpu_In (x : Z) (l : list Js.value) :
  played_by_cpu x l = true <-> In (Js.Num x) l.
Proof.
  unfold played_by_cpu. rewrite existsb_exists. split.
  - intros ([y | |] & Hy & E); try discriminate.
    cbn in E. rewrite negb_involutive in E. apply Z.eqb_eq in E. now subst.
  - intros H. exists (Js.Num x). split; [exact H |].
    cbn. now rewrite Z.eqb_refl.
Qed.

Lemma played_by_cpu_push (x : Z) (v : Js.value) (l : list Js.value) :
  played_by_cpu x (Js.push v l) = played_by_cpu x l || negb (Full.differs v x).
Proof.
  unfold played_by_cpu, Js.push. rewrite existsb_app. cbn. now rewrite orb_false_r.
Qed.

Lemma left_to_cpu_push (used : list Js.value) (v : Js.value) :
  filter (Full.differs v) (left_to_cpu used) = left_to_cpu (Js.push v used).
Proof.
  unfold left_to_cpu. induction deck as [| y l IH]; [reflexivity |].
  cbn [filter]. rewrite played_by_cpu_push.
  destruct (played_by_cpu y used); cbn [negb orb filter]; [exact IH |].
  destruct (Full.differs v y); cbn [negb]; now rewrite IH.
Qed.

Lemma In_left_to_cpu (used : list Js.value) (x : Z) :
  In x (left_to_cpu used) <-> 1 <= x <= 9 /\ ~ In (Js.Num x) used.
Proof.
  unfold left_to_cpu. rewrite filter_In, deck_range, negb_true_iff.
  pose proof (played_by_cpu_In x used) as H.
  destruct (played_by_cpu x used); intuition congruence.
Qed.

Lemma left_to_cpu_ascending (used : list Js.value) :
  ascending (left_to_cpu used) = true.
Proof.
  apply strongly_sorted_ascending, filter_ascending.
  apply ascending_strongly_sorted. reflexivity.
Qed.

Lemma cards_only_push (v : Js.value) (l : list Js.value) :
  cards_only (Js.push v l) -> cards_only l /\ exists n, v = Js.Num n.
Proof.
  unfold cards_only, Js.push. intros H. split.
  - intros x Hx. apply H, in_or_app. now left.
  - apply H, in_or_app. right. now left.
Qed.

Lemma resetGame_twice (s : Full.State) :
  Full.resetGame (Full.resetGame s) = Full.resetGame s.
Proof. reflexivity. Qed.

Lemma session_ok_startGame (s : Full.State) : session_ok (Full.startGame s).
Proof.
  constructor; cbn; try reflexivity; try lia; try discriminate; try tauto.
Qed.

Lemma session_ok_handleCardClick (index : nat) (s : Full.State) :
  (index < 9)%nat -> session_ok s -> session_ok (Full.handleCardClick index s).
Proof.
  intros Hi S. unfold Full.handleCardClick.
  destruct (Full.isLocked s); [exact S |].
  destruct (negb _); [exact S |].
  destruct (Full.includes _ _); [exact S |].
  destruct S.
  destruct (selected_is _ _); constructor; cbn; try assumption;
    try discriminate.
  intros p [= <-]. lia.
Qed.

Lemma session_ok_handleConfirm (s s' : Full.State) (k : option Cont) :
  Full.handleConfirm s = (s', k) -> session_ok s -> session_ok s'.
Proof.
  unfold Full.handleConfirm. intros E S.
  destruct (Full.isLocked s); [injection E as <- _; exact S |].
  destruct (Full.playerSelectedCard s) eqn:Sel; [| injection E as <- _; exact S].
  destruct (negb _); injection E as <- _; [exact S |].
  destruct S. constructor; cbn; assumption.
Qed.

Lemma rounds_playCards (v : Js.value) (s : Full.State) :
  List.length (Full.playerUsedCards s) = List.length (Full.cpuUsedCards s) ->
  session_rounds (Full.revealCards (Full.playCards v s))
  = session_rounds s ++ [(playerValue (Full.playerSelectedCard s), cpuValue v)].
Proof.
  intros L. unfold session_rounds. cbn [Full.revealCards Full.playCards
    Full.playerUsedCards Full.cpuUsedCards].
  unfold Js.push at 1 2. rewrite !map_app. cbn [map].
  apply (combine_push (map playerValue (Full.playerUsedCards s))
           (map cpuValue (Full.cpuUsedCards s))).
  now rewrite !length_map.
Qed.

Lemma session_ok_cards_played (v : Js.value) (s : Full.State) :
  (forall q, v = Js.Num q -> In q (Full.cpuCards s)) -> session_ok s ->
  session_ok (Full.revealCards (Full.playCards v s)).
Proof.
  intros Hv S.
  pose proof (rounds_playCards v s (so_lengths _ S)) as R.
  constructor.
  - exact (so_turn _ S).
  - cbn. discriminate.
  - cbn. unfold Js.push. rewrite !length_app. cbn. pose proof (so_lengths _ S). lia.
  - cbn. rewrite (so_playerCards _ S). apply left_to_player_push.
  - cbn. rewrite (so_cpuCards _ S). apply left_to_cpu_push.
  - cbn. unfold Js.push. intros x Hx. apply in_app_or in Hx as [Hx | [Hx | []]].
    + exact (so_cpuUsed _ S x Hx).
    + specialize (Hv x Hx). rewrite (so_cpuCards _ S) in Hv.
      apply In_left_to_cpu in Hv. apply deck_range. tauto.
  - cbn. exact (so_selected _ S).
  - cbn. unfold Js.push. intros p Hp. apply in_app_or in Hp as [Hp | [Hp | []]].
    + exact (so_playerUsed _ S p Hp).
    + exact (so_selected _ S p Hp).
  - intros C. cbn [Full.revealCards Full.playCards Full.cpuUsedCards] in C.
    apply cards_only_push in C as [C [q ->]].
    destruct (so_scores _ S C) as [Ps Cs].
    destruct (resolveRound_cards (Full.playerSelectedCard s) q) as (_ & Pp & Pc).
    rewrite R, player_total_app, cpu_total_app.
    cbn [Full.revealCards Full.playCards Full.playerScore Full.cpuScore
         Full.lastPlayerCard Full.lastCpuCard cpuValue].
    rewrite Pp, Pc, Ps, Cs. cbn [JsNumber.add]. tauto.
Qed.

Lemma session_ok_nextTurn (s : Full.State) :
  Full.currentTurn s < 9 -> session_ok s -> session_ok (Full.nextTurn s).
Proof.
  intros T S. destruct S. constructor; cbn; try assumption; try discriminate.
  lia.
Qed.

Section SessionFacts.

Variable random : nat -> Q.
Context {Store : Type} {service : Full.GameDataService Store}.

Lemma full_checkAndSaveHighScore_result (s : Full.State) (d : Store) :
  Full.checkAndSaveHighScore s d
  = (Rules.beats_record (Full.playerScore s) (Full.highScore s),
     (if Rules.beats_record (Full.playerScore s) (Full.highScore s)
      then Full.set_highScore (Some (Full.playerScore s)) s else s),
     (if Rules.beats_record (Full.playerScore s) (Full.highScore s)
      then snd (Full.saveNineGameScore (Full.playerScore s) d) else d),
     (if Rules.beats_record (Full.playerScore s) (Full.highScore s)
      then [Full.playerScore s] else [])).
Proof.
  unfold Full.checkAndSaveHighScore, Rules.beats_record.
  destruct (Full.highScore s) as [high |].
  - unfold JsNumber.gtb.
    destruct (JsNumber.ltb high (Full.playerScore s)); [| reflexivity].
    now destruct (Full.saveNineGameScore (Full.playerScore s) d).
  - now destruct (Full.saveNineGameScore (Full.playerScore s) d).
Qed.

(** What [handleGameComplete()] returns, written out. *)
Lemma full_handleGameComplete_result (s : Full.State) (d : Store) :
  Full.handleGameComplete s d
  = ((if Rules.beats_record (Full.playerScore s) (Full.highScore s)
      then Full.set_highScore (Some (Full.playerScore s))
             (Full.set_isLocked true (Full.set_gamePhase complete s))
      else Full.set_isLocked true (Full.set_gamePhase complete s)),
     (if Rules.beats_record (Full.playerScore s) (Full.highScore s)
      then snd (Full.saveNineGameScore (Full.playerScore s) d) else d),
     (if Rules.beats_record (Full.playerScore s) (Full.highScore s)
      then [Full.playerScore s] else []),
     ShowResult
       (if JsNumber.gtb (Full.playerScore s) (Full.cpuScore s) then player
        else if JsNumber.gtb (Full.cpuScore s) (Full.playerScore s) then cpu
             else tie)
       (if JsNumber.gtb (Full.playerScore s) (Full.cpuScore s) then "You Win!"
        else if JsNumber.gtb (Full.cpuScore s) (Full.playerScore s)
             then "CPU Wins!"
             else "It's a Tie!")%string
       (Rules.beats_record (Full.playerScore s) (Full.highScore s))).
Proof.
  unfold Full.handleGameComplete.
  rewrite full_checkAndSaveHighScore_result.
  cbn [Full.set_isLocked Full.set_gamePhase Full.playerScore Full.cpuScore
       Full.highScore].
  destruct (JsNumber.gtb (Full.playerScore s) (Full.cpuScore s)); [reflexivity |].
  destruct (JsNumber.gtb (Full.cpuScore s) (Full.playerScore s)); reflexivity.
Qed.

Lemma session_ok_handleGameComplete (s s' : Full.State) (d d' : Store)
    (calls : list JsNumber.t) (callback : Cont) :
  Full.handleGameComplete s d = (s', d', calls, callback) ->
  Full.currentTurn s >= 9 -> session_ok s -> session_ok s'.
Proof.
  rewrite full_handleGameComplete_result. intros [= <- _ _ _] T S.
  pose proof (so_turn _ S).
  destruct S.
  destruct (Rules.beats_record _ _); constructor; cbn; try assumption; lia.
Qed.

(** [session_ok] is kept by every event. *)
Lemma session_ok_exec (e : Full.Event) (c c' : Full.Config) :
  session_ok (Full.st c) -> Full.exec random e c = Some c' ->
  session_ok (Full.st c').
Proof.
  intros S E. destruct c as [s d calls pend n sh].
  cbn [Full.st] in S. destruct e as [index | | | k];
    cbn [Full.exec Full.st Full.store Full.saveCalls Full.pending Full.draws
         Full.shown] in E.
  - destruct (index <? 9)%nat eqn:Hi; [| discriminate].
    injection E as <-. cbn [Full.st].
    apply session_ok_handleCardClick; [now apply Nat.ltb_lt | exact S].
  - destruct (Full.handleConfirm s) as [s1 k] eqn:H.
    injection E as <-. cbn [Full.st]. eapply session_ok_handleConfirm; eauto.
  - injection E as <-. cbn [Full.st]. apply session_ok_startGame.
  - destruct (nth_error pend k) as [[| | w msg flag] |]; [| | | discriminate].
    + unfold Full.handleConfirm_afterThinking, bind, ret in E.
      destruct (Full.cpuSelectCard random s n) as [v n'] eqn:H.
      injection E as <-. cbn [Full.st].
      apply session_ok_cards_played; [| exact S].
      intros q ->. apply (rounded_strategy_In random s n). now rewrite H.
    + destruct (Full.currentTurn s >=? 9) eqn:T.
      * destruct (Full.handleGameComplete s d) as [[[s1 d1] calls1] cb] eqn:H.
        injection E as <-. cbn [Full.st].
        eapply session_ok_handleGameComplete; eauto. lia.
      * injection E as <-. cbn [Full.st]. apply session_ok_nextTurn; [lia | exact S].
    + injection E as <-. exact S.
Qed.

Lemma session_ok_reachable (c : Full.Config) :
  Full.reachable random c -> session_ok (Full.st c).
Proof.
  induction 1 as [d n | e c c' R IH E].
  - apply session_ok_startGame.
  - eapply session_ok_exec; eauto.
Qed.

Lemma full_run_reachable (es : list Full.Event) (c c' : Full.Config) :
  Full.reachable random c -> Full.run random es c = Some c' ->
  Full.reachable random c'.
Proof.
  revert c. induction es as [| e es IH]; intros c R; cbn [Full.run].
  - now intros [= <-].
  - destruct (Full.exec random e c) as [c1 |] eqn:E; [| discriminate].
    apply IH. eapply Full.reach_step; eauto.
Qed.

Lemma full_run_loaded (es : list Full.Event) (d : Store) (n : nat)
    (c : Full.Config) :
  Full.run random es (Full.loaded d n) = Some c -> Full.reachable random c.
Proof. apply full_run_reachable. constructor. Qed.

(** Every event that can happen goes through: no segment is stuck. *)
Lemma full_exec_defined (e : Full.Event) (c : Full.Config) :
  match e with
  | Full.CardClick index => (index < 9)%nat
  | Full.TimerFires k => (k < List.length (Full.pending c))%nat
  | _ => True
  end ->
  exists c', Full.exec random e c = Some c'.
Proof.
  destruct c as [s d calls pend n sh]. destruct e as [index | | | k];
    cbn [Full.exec Full.st Full.store Full.saveCalls Full.pending Full.draws
         Full.shown]; intros H.
  - apply Nat.ltb_lt in H. rewrite H. eauto.
  - destruct (Full.handleConfirm s). eauto.
  - eauto.
  - destruct (nth_error pend k) as [[| | w msg flag] |] eqn:Hk.
    + destruct (Full.handleConfirm_afterThinking random s n). eauto.
    + destruct (Full.currentTurn s >=? 9); [| eauto].
      destruct (Full.handleGameComplete s d) as [[[s1 d1] calls1] cb]. eauto.
    + eauto.
    + apply nth_error_None in Hk. lia.
Qed.

(** C4, as the code has it: in every configuration of a session, New Game
    clicked at any moment, the turn number is between 1 and 9; when the
    phase is [complete] the turn number is 9; and the step that ends a
    reveal goes to [complete] with the turn number left at 9 when the turn
    number is 9, and otherwise adds 1 to the turn number and goes back to
    [selection]. *)
Theorem turn_is_nine_when_complete (c : Full.Config) :
  Full.reachable random c ->
  1 <= Full.currentTurn (Full.st c) <= 9 /\
  (Full.gamePhase (Full.st c) = complete -> Full.currentTurn (Full.st c) = 9) /\
  (forall k c',
     nth_error (Full.pending c) k = Some AfterReveal ->
     Full.exec random (Full.TimerFires k) c = Some c' ->
     (Full.currentTurn (Full.st c) = 9 ->
      Full.gamePhase (Full.st c') = complete /\
      Full.currentTurn (Full.st c') = 9) /\
     (Full.currentTurn (Full.st c) <> 9 ->
      Full.gamePhase (Full.st c') = selection /\
      Full.currentTurn (Full.st c') = Full.currentTurn (Full.st c) + 1)).
Proof.
  intros R. pose proof (session_ok_reachable c R) as S.
  pose proof (so_turn _ S) as T.
  split; [exact T |]. split; [exact (so_complete _ S) |].
  intros k c' Hk E. destruct c as [s d calls pend n sh].
  cbn [Full.exec Full.st Full.pending Full.store Full.saveCalls Full.draws
       Full.shown] in *.
  rewrite Hk in E. destruct (Full.currentTurn s >=? 9) eqn:G.
  - rewrite full_handleGameComplete_result in E. injection E as <-.
    cbn [Full.st]. split; [| lia]. intros _.
    destruct (Rules.beats_record _ _); cbn; split; (reflexivity || lia).
  - injection E as <-. cbn. split; [lia | tauto].
Qed.

(** As long as every card that the CPU has played since the match started
    is a card, the two scores are integers, [playerScore + cpuScore] is
    the sum of [playerCard + cpuCard] over the rounds that were not ties,
    and neither score is negative.  A round that the player's side entered
    with no card selected counts that card as 0, as [resolveRound]
    does. *)
Lemma scores_add_up (c : Full.Config) :
  Full.reachable random c ->
  cards_only (Full.cpuUsedCards (Full.st c)) ->
  exists a b : Z,
    Full.playerScore (Full.st c) = JsNumber.Int a /\
    Full.cpuScore (Full.st c) = JsNumber.Int b /\
    a + b = Spec.nontie_total (session_rounds (Full.st c)) /\
    0 <= a /\ 0 <= b.
Proof.
  intros R C. pose proof (session_ok_reachable c R) as S.
  destruct (so_scores _ S C) as [Ps Cs].
  destruct (totals_nonneg (session_rounds (Full.st c))) as [Np Nc].
  { intros [p q] Hr. unfold session_rounds in Hr.
    pose proof (in_combine_l _ _ _ _ Hr) as Hp.
    pose proof (in_combine_r _ _ _ _ Hr) as Hq.
    apply in_map_iff in Hp as ([x |] & <- & Hx);
      apply in_map_iff in Hq as (v & <- & Hv);
      destruct (C v Hv) as [y ->];
      pose proof (so_cpuUsed _ S y Hv) as Hy; apply deck_range in Hy; cbn.
    - pose proof (so_playerUsed _ S x Hx). lia.
    - lia. }
  exists (player_total (session_rounds (Full.st c))),
         (cpu_total (session_rounds (Full.st c))).
  split; [exact Ps |]. split; [exact Cs |].
  split; [apply totals_nontie |]. lia.
Qed.

(** X17: in every configuration of a session, New Game clicked at any
    moment, each side's array of available cards is in ascending order and
    holds exactly the cards 1..9 that are not in that side's array of used
    cards; and the two arrays of used cards have the same length. *)
Theorem available_is_deck_without_used (c : Full.Config) :
  Full.reachable random c ->
  (forall x, In x (Full.playerCards (Full.st c)) <->
             1 <= x <= 9 /\ ~ In (Some x) (Full.playerUsedCards (Full.st c))) /\
  (forall x, In x (Full.cpuCards (Full.st c)) <->
             1 <= x <= 9 /\ ~ In (Js.Num x) (Full.cpuUsedCards (Full.st c))) /\
  ascending (Full.playerCards (Full.st c)) = true /\
  ascending (Full.cpuCards (Full.st c)) = true /\
  List.length (Full.playerUsedCards (Full.st c))
  = List.length (Full.cpuUsedCards (Full.st c)).
Proof.
  intros R. pose proof (session_ok_reachable c R) as S.
  rewrite (so_playerCards _ S), (so_cpuCards _ S).
  split; [intros x; apply In_left_to_player |].
  split; [intros x; apply In_left_to_cpu |].
  split; [apply left_to_player_ascending |].
  split; [apply left_to_cpu_ascending |].
  exact (so_lengths _ S).
Qed.

End SessionFacts.

(** ** High score *)

Section HighScore.

Variable random : nat -> Q.
Context {Store : Type} {service : Full.GameDataService Store}.

(** With a store whose writes take effect, the high score in the state is
    the stored one throughout a session. *)
Lemma highScore_is_stored (c : Full.Config) :
  writes_take_effect service ->
  Full.reachable random c ->
  Full.highScore (Full.st c) = Full.loadNineGameHighScore (Full.store c).
Proof.
  intros W. induction 1 as [d n | e c c' R IH E]; [reflexivity |].
  destruct c as [s d calls pend n sh].
  cbn [Full.st Full.store] in *. destruct e as [index | | | k];
    cbn [Full.exec Full.st Full.store Full.saveCalls Full.pending Full.draws
         Full.shown] in E.
  - destruct (index <? 9)%nat; [| discriminate]. injection E as <-.
    cbn [Full.st Full.store]. rewrite <- IH. unfold Full.handleCardClick.
    destruct (Full.isLocked s); [reflexivity |].
    destruct (negb _); [reflexivity |].
    destruct (Full.includes _ _); [reflexivity |].
    now destruct (selected_is _ _).
  - destruct (Full.handleConfirm s) as [s1 k] eqn:H. injection E as <-.
    cbn [Full.st Full.store]. rewrite <- IH. unfold Full.handleConfirm in H.
    destruct (Full.isLocked s); [now injection H as <- _ |].
    destruct (Full.playerSelectedCard s); [| now injection H as <- _].
    destruct (negb _); now injection H as <- _.
  - injection E as <-. exact IH.
  - destruct (nth_error pend k) as [[| | w msg flag] |]; [| | | discriminate].
    + unfold Full.handleConfirm_afterThinking, bind, ret in E.
      destruct (Full.cpuSelectCard random s n) as [v n'].
      injection E as <-. exact IH.
    + destruct (Full.currentTurn s >=? 9).
      * rewrite full_handleGameComplete_result in E. injection E as <-.
        cbn [Full.st Full.store].
        destruct (Rules.beats_record _ _); [| exact IH].
        cbn. symmetry. apply W.
      * injection E as <-. exact IH.
    + injection E as <-. exact IH.
Qed.

End HighScore.

(** C8, as the code has it: when a match completes in state [s] on the
    store [d], [saveNineGameScore] is called, with [playerScore], exactly
    when [s] holds no high score or [playerScore] is strictly above the
    high score that [s] holds; the store afterwards is what that call
    leaves, and [d] itself when no call is made; the [isNewRecord] flag
    handed to the result modal is the outcome of that comparison, made
    before the write; the high score kept in the state afterwards is the
    maximum of the prior one and [playerScore]; and state, flag and calls
    are the same whatever service is plugged in and whatever its write
    returns.  The event that ends the reveal of turn 9 does just this to
    the configuration.  The high score that the state holds is the one
    [init()] loaded, raised at each completion: with a store whose writes
    take effect it is the stored high score in every configuration of a
    session. *)
Theorem high_score_write_on_completion (random : nat -> Q) {Store : Type}
    {service : Full.GameDataService Store} (s : Full.State) (d : Store) :
  let newRecord := Rules.beats_record (Full.playerScore s) (Full.highScore s) in
  let calls := if newRecord then [Full.playerScore s] else [] in
  let d' := if newRecord
            then snd (Full.saveNineGameScore (Full.playerScore s) d)
            else d in
  (exists s' w msg,
     Full.handleGameComplete s d = (s', d', calls, ShowResult w msg newRecord) /\
     Full.highScore s'
     = Some (Rules.best (Full.highScore s) (Full.playerScore s)) /\
     (forall s'',
        Full.ResultModal.isNewRecord (Full.showResult w msg newRecord s'')
        = newRecord) /\
     (forall (Store2 : Type) (service2 : Full.GameDataService Store2)
             (d2 : Store2),
        exists d2', Full.handleGameComplete (service := service2) s d2
                    = (s', d2', calls, ShowResult w msg newRecord)) /\
     (forall (c c' : Full.Config) (k : nat),
        Full.st c = s -> Full.store c = d ->
        nth_error (Full.pending c) k = Some AfterReveal ->
        Full.currentTurn s >= 9 ->
        Full.exec random (Full.TimerFires k) c = Some c' ->
        Full.st c' = s' /\ Full.store c' = d' /\
        Full.saveCalls c' = Full.saveCalls c ++ calls /\
        In (ShowResult w msg newRecord) (Full.pending c'))) /\
  (writes_take_effect service ->
   forall c : Full.Config,
     Full.reachable random c ->
     Full.highScore (Full.st c) = Full.loadNineGameHighScore (Full.store c)).
Proof.
  intros newRecord calls d'. split.
  - eexists _, _, _. split; [| split; [| split; [| split]]].
    + rewrite full_handleGameComplete_result. reflexivity.
    + fold newRecord. unfold newRecord, Rules.beats_record, Rules.best, Rules.max.
      destruct (Full.highScore s) as [high |] eqn:H; [| reflexivity].
      destruct (JsNumber.ltb high (Full.playerScore s)); cbn; rewrite ?H;
        reflexivity.
    + reflexivity.
    + intros Store2 service2 d2. eexists.
      rewrite full_handleGameComplete_result. reflexivity.
    + intros c c' k <- <- Hk T E.
      destruct c as [s d calls0 pend n sh].
      cbn [Full.st Full.store Full.pending Full.exec Full.saveCalls Full.draws
           Full.shown] in *.
      rewrite Hk in E.
      replace (Full.currentTurn s >=? 9) with true in E by lia.
      rewrite full_handleGameComplete_result in E. injection E as <-.
      cbn [Full.st Full.store Full.saveCalls Full.pending].
      repeat split. apply in_or_app. right. now left.
  - intros W c R. now apply highScore_is_stored with (random := random).
Qed.

Lemma cell_writes_take_effect : writes_take_effect Full.cell_service.
Proof. intros v d. reflexivity. Qed.

Lemma ninth_reveal_reachable :
  Full.reachable (service := Full.cell_service) eighths ninth_reveal.
Proof.
  apply (full_run_loaded eighths (removelast Full.descending_match) None 0%nat).
  vm_compute. reflexivity.
Qed.

Lemma ninth_complete_reachable :
  Full.reachable (service := Full.cell_service) eighths ninth_complete.
Proof.
  apply (full_run_loaded eighths Full.descending_match None 0%nat).
  vm_compute. reflexivity.
Qed.

Lemma second_reveal_reachable :
  Full.reachable (service := Full.failing_service) eighths second_reveal.
Proof.
  apply (full_run_loaded eighths (removelast two_matches) None 0%nat).
  vm_compute. reflexivity.
Qed.

Lemma reset_while_thinking_reachable :
  Full.reachable (service := Full.cell_service) eighths reset_while_thinking.
Proof.
  apply (full_run_loaded eighths
           [Full.CardClick 2; Full.ConfirmClick; Full.NewGameClick;
            Full.TimerFires 0] None 0%nat).
  vm_compute. reflexivity.
Qed.

Lemma high_score_write_on_completion_witness :
  (exists s' w msg,
     Full.highScore s' = Some (JsNumber.Int 32) /\
     Full.st ninth_complete = s' /\
     Full.store ninth_complete = Some (JsNumber.Int 32) /\
     Full.saveCalls ninth_complete = [JsNumber.Int 32] /\
     In (ShowResult w msg true) (Full.pending ninth_complete)) /\
  Full.highScore (Full.st ninth_complete)
  = @Full.loadNineGameHighScore _ Full.cell_service (Full.store ninth_complete).
Proof.
  destruct (high_score_write_on_completion eighths (service := Full.cell_service)
              (Full.st ninth_reveal) None)
    as [(s' & w & msg & _ & Hs & _ & _ & Hexec) Hstored].
  split.
  - exists s', w, msg. split; [exact Hs |].
    apply (Hexec ninth_reveal ninth_complete 0%nat);
      [reflexivity | reflexivity | reflexivity | cbn; lia | reflexivity].
  - apply (Hstored cell_writes_take_effect ninth_complete).
    exact ninth_complete_reachable.
Defined.

(** C8 as the specification words it fails: on a store whose writes fail,
    the first match ends with 55 points and its write fails; the second
    match ends with 31 points and no write is attempted, although no high
    score is stored. *)
Lemma write_not_decided_by_stored_score :
  ~ (forall (c c' : Full.Config) (k : nat),
       Full.reachable (service := Full.failing_service) eighths c ->
       nth_error (Full.pending c) k = Some AfterReveal ->
       Full.currentTurn (Full.st c) >= 9 ->
       Full.exec (service := Full.failing_service) eighths (Full.TimerFires k) c
       = Some c' ->
       (Full.saveCalls c' <> Full.saveCalls c <->
        Rules.beats_record (Full.playerScore (Full.st c))
          (@Full.loadNineGameHighScore _ Full.failing_service (Full.store c))
        = true)).
Proof.
  intros H.
  destruct (H second_reveal second_complete 0%nat second_reveal_reachable
              eq_refl ltac:(cbn; lia) eq_refl) as [_ H2].
  apply H2; reflexivity.
Qed.

(** ** New Game during a delay *)

(** C5, at the failing input: card 3 is selected and confirmed, New Game
    is clicked during the CPU's delay, and the delay ends.  The suspended
    [handleConfirm] resumes on the new match: it pushes [null] on
    [playerUsedCards] while all nine cards stay available, and moves a card
    of the CPU. *)
Theorem new_game_during_delay_breaks_pools :
  Full.run (service := Full.cell_service) eighths
    [Full.CardClick 2; Full.ConfirmClick; Full.NewGameClick; Full.TimerFires 0]
    (Full.loaded (service := Full.cell_service) None 0)
  = Some reset_while_thinking /\
  Full.playerCards (Full.st reset_while_thinking) = deck /\
  Full.playerUsedCards (Full.st reset_while_thinking) = [None] /\
  Full.cpuCards (Full.st reset_while_thinking) = [1; 2; 3; 5; 6; 7; 8; 9] /\
  Full.cpuUsedCards (Full.st reset_while_thinking) = [Js.Num 4] /\
  Full.lastRoundResult (Full.st reset_while_thinking)
  = Some (Full.resolveRound None (Some (Js.Num 4))) /\
  Full.cpuScore (Full.st reset_while_thinking) = JsNumber.Int 4.
Proof. vm_compute. repeat split. Qed.

(** The same click followed by a second selection and confirmation: both
    suspended calls resume, and card 9 is played twice. *)
Example new_game_during_delay_plays_card_twice :
  match Full.run (service := Full.cell_service) eighths confirmed_twice
          (Full.loaded (service := Full.cell_service) None 0) with
  | Some c =>
      Full.playerUsedCards (Full.st c) = [Some 9; Some 9] /\
      Full.playerCards (Full.st c) = [1; 2; 3; 4; 5; 6; 7; 8] /\
      Full.pending c = [AfterReveal; AfterReveal]
  | None => False
  end.
Proof. vm_compute. repeat split. Qed.

(** New Game clicked during the reveal of turn 1: the suspended call moves
    the new match on to turn 2, and the match is complete with a card left
    on each side. *)
Example new_game_during_reveal_ends_early :
  match Full.run (service := Full.cell_service) eighths
          ([Full.CardClick 2; Full.ConfirmClick; Full.TimerFires 0;
            Full.NewGameClick; Full.TimerFires 0]
           ++ flat_map Full.play_turn [8; 7; 6; 5; 4; 3; 2; 1]%nat)
          (Full.loaded (service := Full.cell_service) None 0) with
  | Some c =>
      Full.gamePhase (Full.st c) = complete /\
      Full.currentTurn (Full.st c) = 9 /\
      Full.playerCards (Full.st c) = [1] /\ Full.cpuCards (Full.st c) = [2] /\
      List.length (session_rounds (Full.st c)) = 8%nat
  | None => False
  end.
Proof. vm_compute. repeat split. Qed.

(** C9, at the failing input: New Game is clicked during the CPU's delay
    and the player confirms again before the delay ends, so that two calls
    of [handleConfirm] are suspended; from then on the player confirms each
    time one of them unlocks the game.  Two rounds are played per turn, and
    the tenth, at turn 9, finds [cpuCards] empty: [cpuSelectCard()] returns
    [Math.max()], which is [-Infinity], [resolveRound] names the player as
    winner of [-Infinity] points, and [playerScore] is [-Infinity], which
    is below 0. *)
Theorem tenth_round_scores_minus_infinity :
  Full.run (service := Full.cell_service) eighths ten_rounds
    (Full.loaded (service := Full.cell_service) None 0)
  = Some tenth_round /\
  Full.currentTurn (Full.st tenth_round) = 9 /\
  List.length (Full.cpuUsedCards (Full.st tenth_round)) = 10%nat /\
  Full.lastCpuCard (Full.st tenth_round) = Some Js.NegInfinity /\
  Full.lastRoundResult (Full.st tenth_round)
  = Some (Full.resolveRound (Some 5) (Some Js.NegInfinity)) /\
  Full.playerPoints (Full.resolveRound (Some 5) (Some Js.NegInfinity))
  = JsNumber.NegInfinity /\
  Full.playerScore (Full.st tenth_round) = JsNumber.NegInfinity /\
  JsNumber.ltb (Full.playerScore (Full.st tenth_round)) (JsNumber.Int 0) = true.
Proof. vm_compute. repeat split. Qed.

(** ** Witnesses on the session *)

(** C4 as the specification words it fails: after the nine turns of
    [descending_match] the phase is [complete] and the turn number is 9,
    which is not above 9. *)
Lemma complete_with_turn_nine :
  ~ (forall c : Full.Config,
       Full.reachable (service := Full.cell_service) eighths c ->
       (Full.gamePhase (Full.st c) = complete <->
        Full.currentTurn (Full.st c) > 9)).
Proof.
  intros H.
  destruct (H ninth_complete ninth_complete_reachable) as [H1 _].
  specialize (H1 eq_refl). cbn in H1. lia.
Qed.

Lemma turn_is_nine_when_complete_witness :
  1 <= Full.currentTurn (Full.st ninth_reveal) <= 9 /\
  Full.gamePhase (Full.st ninth_complete) = complete /\
  Full.currentTurn (Full.st ninth_complete) = 9.
Proof.
  destruct (turn_is_nine_when_complete eighths (service := Full.cell_service)
              ninth_reveal ninth_reveal_reachable)
    as (T & _ & Step).
  split; [exact T |].
  apply (Step 0%nat ninth_complete); reflexivity.
Defined.

Lemma available_is_deck_without_used_witness :
  (In 3 (Full.playerCards (Full.st reset_while_thinking)) <->
   1 <= 3 <= 9 /\
   ~ In (Some 3) (Full.playerUsedCards (Full.st reset_while_thinking))) /\
  ascending (Full.cpuCards (Full.st reset_while_thinking)) = true.
Proof.
  destruct (available_is_deck_without_used eighths (service := Full.cell_service)
              reset_while_thinking reset_while_thinking_reachable)
    as (A & _ & _ & B & _).
  exact (conj (A 3) B).
Defined.

(** ** [getRandomInt] *)

(** X15: with values of [Math.random()] that are numbers in the unit
    interval, and bounds whose integers are of magnitude at most 2^51 with
    at least one integer between them, [getRandomInt(min, max)] returns an
    integer [n] with [min <= n <= max]. *)
Theorem getRandomInt_in_range (random : nat -> Q) (min max : Q) (k : nat) :
  double_source random ->
  -2251799813685248 <= Qceiling min ->
  Qceiling min <= Qfloor max ->
  Qfloor max <= 2251799813685248 ->
  exists n : Z,
    (fst (Helpers.getRandomInt random min max k) == inject_Z n)%Q /\
    (min <= inject_Z n)%Q /\ (inject_Z n <= max)%Q.
Proof.
  intros Hu Hlo H Hhi.
  unfold Helpers.getRandomInt, bind, ret, Math_random. cbn [fst].
  destruct (Hu k) as (Hr & H0 & H1).
  set (m := Qceiling min) in *. set (M := Qfloor max) in *.
  assert (Esub : (Double.sub (inject_Z M) (inject_Z m) == inject_Z (M - m))%Q).
  { unfold Double.sub.
    assert (E : (inject_Z M - inject_Z m == inject_Z (M - m))%Q).
    { unfold Zminus. rewrite inject_Z_plus, inject_Z_opp. reflexivity. }
    rewrite (round_integer _ (M - m) E) by lia. exact E. }
  assert (Eadd : (Double.add (Double.sub (inject_Z M) (inject_Z m)) 1
                  == inject_Z (M - m + 1))%Q).
  { unfold Double.add.
    assert (E : (Double.sub (inject_Z M) (inject_Z m) + 1
                 == inject_Z (M - m + 1))%Q).
    { rewrite Esub, inject_Z_plus. reflexivity. }
    rewrite (round_integer _ (M - m + 1) E) by lia. exact E. }
  pose proof (floor_round_range (random k) _ (M - m + 1) Hr H0 H1 Eadd
                ltac:(lia)) as Hf.
  unfold Double.mul.
  set (f := Qfloor (Double.round
                      (random k * Double.add (Double.sub (inject_Z M) (inject_Z m)) 1)))
    in *.
  exists (f + m).
  assert (E : (inject_Z f + inject_Z m == inject_Z (f + m))%Q)
    by (rewrite inject_Z_plus; reflexivity).
  split; [| split].
  - unfold Double.add. rewrite (round_integer _ (f + m) E) by lia. exact E.
  - eapply Qle_trans; [apply Qle_ceiling |]. fold m. rewrite <- Zle_Qle. lia.
  - eapply Qle_trans; [| apply Qfloor_le]. fold M. rewrite <- Zle_Qle. lia.
Qed.

Lemma getRandomInt_in_range_witness :
  exists n : Z,
    (fst (Helpers.getRandomInt eighths 1 6 7%nat) == inject_Z n)%Q /\
    (1 <= inject_Z n)%Q /\ (inject_Z n <= 6)%Q.
Proof.
  apply (getRandomInt_in_range eighths 1%Q 6%Q 7%nat).
  - exact eighths_double.
  - vm_compute. discriminate.
  - vm_compute. discriminate.
  - vm_compute. discriminate.
Defined.
